(** * cloud-browser-server: session multiplexing tier

    A shallow embedding of [BrowserSession.ts], [SessionManager.ts] and the
    key mapper of [utils], with the properties stated in the specification.

    Conventions used throughout:
    - a JavaScript value of type [any] is a [JsVal]; truthiness, [===] and
      template-literal conversion are written out;
    - a [Set] or [Map] whose iteration order is observable is a list, the
      others are stdpp's [gset] and [gmap];
    - recursion over the node graph takes fuel and answers [None] when the
      fuel runs out (the source would overflow its stack on a cyclic graph). *)

From Stdlib Require Import ZArith List Bool Ascii String Decimal DecimalString DecimalNat DecimalZ Lia PrimFloat.
From stdpp Require Import base option list strings gmap.

Local Open Scope string_scope.
Local Open Scope Z_scope.
#[local] Set Warnings "-clear-no-such-hyp".

(** ** JavaScript values *)

Module Js.

(** The values the accessibility tree carries in its [any] slots.  Numbers
    are the integers (levels, ids); [JObject] stands for an object, which is
    truthy and equal to nothing else under [===]. *)
Inductive JsVal : Type :=
| JUndefined
| JNull
| JBool (b : bool)
| JNum (z : Z)
| JStr (s : string)
| JObject.

Definition truthy (v : JsVal) : bool :=
  match v with
  | JUndefined | JNull => false
  | JBool b => b
  | JNum z => negb (z =? 0)
  | JStr s => negb (String.eqb s "")
  | JObject => true
  end.

(** [v === w]; two object values are distinct objects wherever the source
    compares them. *)
Definition strict_eq (v w : JsVal) : bool :=
  match v, w with
  | JUndefined, JUndefined => true
  | JNull, JNull => true
  | JBool a, JBool b => Bool.eqb a b
  | JNum a, JNum b => a =? b
  | JStr a, JStr b => String.eqb a b
  | _, _ => false
  end.

Definition string_of_nat (n : nat) : string :=
  NilEmpty.string_of_uint (Nat.to_uint n).

Definition string_of_Z (z : Z) : string :=
  NilEmpty.string_of_int (Z.to_int z).

(** Conversion inside a template literal. *)
Definition toString (v : JsVal) : string :=
  match v with
  | JUndefined => "undefined"
  | JNull => "null"
  | JBool true => "true"
  | JBool false => "false"
  | JNum z => string_of_Z z
  | JStr s => s
  | JObject => "[object Object]"
  end.

(** [a ?? b] *)
Definition nullish_or (a b : JsVal) : JsVal :=
  match a with
  | JUndefined | JNull => b
  | _ => a
  end.

(** [a || b] *)
Definition or_else (a b : JsVal) : JsVal := if truthy a then a else b.

(** [s.repeat(n)] *)
Fixpoint repeat_string (s : string) (n : nat) : string :=
  match n with
  | O => ""
  | S n' => s ++ repeat_string s n'
  end.

(** The double-quote character, as a string. *)
Definition dq : string := String (ascii_of_nat 34) "".

(** The line-feed character, as a string. *)
Definition nl : string := String (ascii_of_nat 10) "".

(** [parts.join(sep)] *)
Fixpoint join (sep : string) (parts : list string) : string :=
  match parts with
  | [] => ""
  | [p] => p
  | p :: rest => p ++ sep ++ join sep rest
  end.

End Js.

(** ** Accessibility tree compressor *)

Module A11y.
Import Js.

(** CDP [AXValue]: [{ type, value? }]; an absent [value] is [JUndefined]. *)
Record AXValue : Type := { ax_type : string; ax_value : JsVal }.

(** CDP [AXProperty]: [{ name, value }]. *)
Record AXProperty : Type := { prop_name : string; prop_value : option AXValue }.

(** CDP [AXNode], with the fields the compressor reads. *)
Record AXNode : Type := {
  nodeId : string;
  ignored : bool;
  role : option AXValue;
  name : option AXValue;
  description : option AXValue;
  value : option AXValue;
  properties : option (list AXProperty);
  childIds : option (list string);
  backendDOMNodeId : option Z
}.

(** [x.value ?? x] for an [AXValue] object [x]. *)
Definition unwrap (x : AXValue) : JsVal := nullish_or (ax_value x) JObject.

(** [node[propertyName]]: of the names the compressor asks for, only
    [name], [description] and [value] are fields of an [AXNode]. *)
Definition direct_field (node : AXNode) (propertyName : string) : option AXValue :=
  if String.eqb propertyName "name" then name node
  else if String.eqb propertyName "description" then description node
  else if String.eqb propertyName "value" then value node
  else None.

(** [getNodeProperty(node, propertyName)] *)
Definition getNodeProperty (node : AXNode) (propertyName : string) : JsVal :=
  let direct :=
    match direct_field node propertyName with
    | Some x => unwrap x
    | None => JUndefined
    end in
  match properties node with
  | Some props =>
      match List.find (fun p => String.eqb (prop_name p) propertyName) props with
      | Some prop =>
          match prop_value prop with
          | Some x => unwrap x
          | None => JUndefined
          end
      | None => direct
      end
  | None => direct
  end.

(** [node.role?.value || ''] *)
Definition roleOf (node : AXNode) : JsVal :=
  or_else (match role node with Some r => ax_value r | None => JUndefined end) (JStr "").

Definition is_str (v : JsVal) (s : string) : bool := strict_eq v (JStr s).

(** [role === 'Ignored' || node.ignored] *)
Definition isIgnored (node : AXNode) : bool :=
  is_str (roleOf node) "Ignored" || ignored node.

(** [backendNodeId ? `${depth}_${backendNodeId}` : node.nodeId] *)
Definition uidOf (node : AXNode) (depth : nat) : string :=
  match backendDOMNodeId node with
  | Some b => if b =? 0 then nodeId node
              else string_of_nat depth ++ "_" ++ string_of_Z b
  | None => nodeId node
  end.

Definition push_if (c : bool) (s : string) (attrs : list string) : list string :=
  if c then (attrs ++ [s])%list else attrs.

(** The attribute list of [formatNodeLine], in the order it is pushed. *)
Definition attrsOf (node : AXNode) : list string :=
  let name := getNodeProperty node "name" in
  let url := getNodeProperty node "url" in
  let value := getNodeProperty node "value" in
  let focusable := getNodeProperty node "focusable" in
  let focused := getNodeProperty node "focused" in
  let multiline := getNodeProperty node "multiline" in
  let checked := getNodeProperty node "checked" in
  let expanded := getNodeProperty node "expanded" in
  let selected := getNodeProperty node "selected" in
  let disabled := getNodeProperty node "disabled" in
  let required := getNodeProperty node "required" in
  let level := getNodeProperty node "level" in
  let attrs := [] in
  let attrs := push_if (truthy url) ("url=" ++ dq ++ toString url ++ dq) attrs in
  let attrs := push_if (truthy focusable) "focusable" attrs in
  let attrs := push_if (truthy focused) "focused" attrs in
  let attrs := push_if (truthy multiline) "multiline" attrs in
  let attrs := push_if (is_str checked "true" || strict_eq checked (JBool true)) "checked" attrs in
  let attrs := push_if (is_str checked "mixed") "checked=mixed" attrs in
  let attrs := push_if (strict_eq expanded (JBool true)) "expanded" attrs in
  let attrs := push_if (strict_eq expanded (JBool false)) "collapsed" attrs in
  let attrs := push_if (truthy selected) "selected" attrs in
  let attrs := push_if (truthy disabled) "disabled" attrs in
  let attrs := push_if (truthy required) "required" attrs in
  let attrs := push_if (truthy level) ("level=" ++ toString level) attrs in
  let attrs := push_if (negb (strict_eq value JUndefined) && negb (strict_eq value name))
                       ("value=" ++ dq ++ toString value ++ dq) attrs in
  attrs.

(** What follows the role on a line: the quoted name and the attributes. *)
Definition lineTail (node : AXNode) : string :=
  let name := getNodeProperty node "name" in
  let attrs := attrsOf node in
  (if truthy name then " " ++ dq ++ toString name ++ dq else "")
  ++ (match attrs with [] => "" | _ => " " ++ join " " attrs end).

(** [formatNodeLine(node, depth)]; [None] is the source's [null]. *)
Definition formatNodeLine (node : AXNode) (depth : nat) : option string :=
  if isIgnored node then None
  else
    let indent := repeat_string "  " depth in
    Some (indent ++ "uid=" ++ uidOf node depth ++ " " ++ toString (roleOf node)
            ++ lineTail node).

(** A [for (const x of xs)] loop whose body threads a state and may run out
    of fuel. *)
Definition forEach {S A : Type} (body : S -> A -> option S) (xs : list A) (init : option S)
    : option S :=
  foldl (fun acc x => match acc with Some s => body s x | None => None end) init xs.

(** *** Role sets *)

Definition CONTROL_ROLES : list string :=
  ["button"; "checkbox"; "combobox"; "listbox"; "menu"; "menubar"; "menuitem";
   "menuitemcheckbox"; "menuitemradio"; "option"; "progressbar"; "radio";
   "scrollbar"; "searchbox"; "slider"; "spinbutton"; "switch"; "tab";
   "tablist"; "textbox"; "tree"; "treeitem"; "link"; "gridcell"].

Definition LANDMARK_ROLES : list string :=
  ["banner"; "complementary"; "contentinfo"; "form"; "main"; "navigation";
   "region"; "search"].

Definition LEAF_ROLES : list string :=
  ["textbox"; "searchbox"; "image"; "progressbar"; "slider"; "separator";
   "meter"; "scrollbar"; "spinbutton"].

(** [ROLES.has(role)] for a set of strings. *)
Definition has_role (roles : list string) (r : JsVal) : bool :=
  existsb (is_str r) roles.

(** *** The two maps built from the node list *)

(** A [Map<string, V>] in insertion order: setting a present key keeps its
    place. *)
Fixpoint omap_set {V : Type} (k : string) (v : V) (m : list (string * V)) : list (string * V) :=
  match m with
  | [] => [(k, v)]
  | (k', v') :: rest =>
      if String.eqb k' k then (k, v) :: rest else (k', v') :: omap_set k v rest
  end.

Fixpoint omap_get {V : Type} (k : string) (m : list (string * V)) : option V :=
  match m with
  | [] => None
  | (k', v') :: rest => if String.eqb k' k then Some v' else omap_get k rest
  end.

Definition buildNodeMap (nodes : list AXNode) : gmap string AXNode :=
  foldl (fun m node => <[nodeId node := node]> m) ∅ nodes.

Definition buildChildrenMap (nodes : list AXNode) : list (string * list string) :=
  foldl (fun m node =>
           match childIds node with
           | Some cs => omap_set (nodeId node) cs m
           | None => m
           end) [] nodes.

(** [childrenMap.get(id) || []] *)
Definition childrenOf (childrenMap : list (string * list string)) (id : string) : list string :=
  default [] (omap_get id childrenMap).

(** *** The interesting predicate *)

(** [isLeafNode(node, nodeMap, childrenMap)] *)
Definition isLeafNode (node : AXNode) (nodeMap : gmap string AXNode)
    (childrenMap : list (string * list string)) : bool :=
  if has_role LEAF_ROLES (roleOf node) then true
  else
    let children := childrenOf childrenMap (nodeId node) in
    match children with
    | [] => true
    | _ =>
        forallb (fun childId =>
                   match nodeMap !! childId with
                   | None => true
                   | Some child =>
                       let childRole := roleOf child in
                       ignored child || is_str childRole "StaticText"
                       || is_str childRole "text" || is_str childRole "none"
                   end) children
    end.

(** [isInterestingNode(node, nodeMap, childrenMap, insideControl)] *)
Definition isInterestingNode (node : AXNode) (nodeMap : gmap string AXNode)
    (childrenMap : list (string * list string)) (insideControl : bool) : bool :=
  let role := roleOf node in
  let name := getNodeProperty node "name" in
  let description := getNodeProperty node "description" in
  if is_str role "Ignored" || ignored node then false
  else if has_role LANDMARK_ROLES role then true
  else if has_role CONTROL_ROLES role then true
  else
    let focusable := getNodeProperty node "focusable" in
    let editable := getNodeProperty node "editable" in
    let modal := getNodeProperty node "modal" in
    let live := getNodeProperty node "live" in
    if truthy focusable || truthy editable || truthy modal
       || (truthy live && negb (is_str live "off")) then true
    else if is_str role "heading" && truthy name then true
    else if insideControl && negb (truthy focusable) then false
    else if isLeafNode node nodeMap childrenMap && (truthy name || truthy description) then true
    else if is_str role "image" && truthy name then true
    else if (is_str role "StaticText" || is_str role "text") && truthy name then true
    else false.

(** *** Collecting the interesting ids *)

(** The parent lookup handed to [markAncestorsInteresting]: the first entry
    of [childrenMap], in insertion order, whose children include [id]. *)
Definition getParent (childrenMap : list (string * list string)) (id : string) : option string :=
  fst <$> List.find (fun entry => existsb (String.eqb id) (snd entry)) childrenMap.

(** A string used as a condition: [undefined] and the empty string are
    falsy. *)
Definition truthy_id (id : option string) : option string :=
  match id with
  | Some s => if String.eqb s "" then None else Some s
  | None => None
  end.

(** The [while (parentId)] loop of [markAncestorsInteresting]. *)
Fixpoint markLoop (fuel : nat) (childrenMap : list (string * list string))
    (parentId : option string) (interestingIds : gset string) : option (gset string) :=
  match truthy_id parentId with
  | None => Some interestingIds
  | Some p =>
      if decide (p ∈ interestingIds) then Some interestingIds
      else
        match fuel with
        | O => None
        | S fuel' =>
            markLoop fuel' childrenMap (getParent childrenMap p) ({[p]} ∪ interestingIds)
        end
  end.

(** [markAncestorsInteresting(nodeId, getParent, interestingIds)].  Every turn
    of the loop adds a key of [childrenMap] that was not in the set, so the
    number of entries bounds the number of turns. *)
Definition markAncestorsInteresting (childrenMap : list (string * list string))
    (nodeId : string) (interestingIds : gset string) : option (gset string) :=
  markLoop (S (length childrenMap)) childrenMap (getParent childrenMap nodeId) interestingIds.

(** [collectInterestingNodes(nodeId, nodeMap, childrenMap, interestingIds,
    insideControl)]; the set is returned instead of mutated. *)
Fixpoint collectInterestingNodes (fuel : nat) (nodeId : option string)
    (nodeMap : gmap string AXNode) (childrenMap : list (string * list string))
    (interestingIds : gset string) (insideControl : bool) : option (gset string) :=
  match fuel with
  | O => None
  | S fuel' =>
      match truthy_id nodeId with
      | None => Some interestingIds
      | Some id =>
          match nodeMap !! id with
          | None => Some interestingIds
          | Some node =>
              let marked :=
                if isInterestingNode node nodeMap childrenMap insideControl
                then markAncestorsInteresting childrenMap id ({[id]} ∪ interestingIds)
                else Some interestingIds in
              let isControl := has_role CONTROL_ROLES (roleOf node) in
              forEach (fun ids childId =>
                         collectInterestingNodes fuel' (Some childId) nodeMap childrenMap
                           ids (insideControl || isControl))
                      (childrenOf childrenMap id) marked
          end
      end
  end.

(** [filterInterestingNodes(nodes)] *)
Definition filterInterestingNodes (fuel : nat) (nodes : list AXNode) : option (list AXNode) :=
  let nodeMap := buildNodeMap nodes in
  let childrenMap := buildChildrenMap nodes in
  match collectInterestingNodes fuel (nodeId <$> head nodes) nodeMap childrenMap ∅ false with
  | None => None
  | Some interestingNodeIds =>
      Some (omap (fun node =>
              if decide (nodeId node ∈ interestingNodeIds) then
                let kept :=
                  match childIds node with
                  | Some cs =>
                      match List.filter (fun id => bool_decide (id ∈ interestingNodeIds)) cs with
                      | [] => None
                      | cs' => Some cs'
                      end
                  | None => None
                  end in
                Some {| nodeId := nodeId node; ignored := ignored node; role := role node;
                        name := name node; description := description node;
                        value := value node; properties := properties node;
                        childIds := kept; backendDOMNodeId := backendDOMNodeId node |}
              else None) nodes)
  end.

(** *** Text rendering *)

(** [buildCompressedTree(nodeId, depth, nodeMap, childrenMap, lines)]; the
    lines pushed so far are threaded through. *)
Fixpoint buildCompressedTree (fuel : nat) (nodeId : string) (depth : nat)
    (nodeMap : gmap string AXNode) (childrenMap : list (string * list string))
    (lines : list string) : option (list string) :=
  match fuel with
  | O => None
  | S fuel' =>
      match nodeMap !! nodeId with
      | None => Some lines
      | Some node =>
          let lines1 :=
            match formatNodeLine node depth with
            | Some line => if String.eqb line "" then lines else (lines ++ [line])%list
            | None => lines
            end in
          forEach (fun ls childId =>
                     buildCompressedTree fuel' childId (S depth) nodeMap childrenMap ls)
                  (childrenOf childrenMap nodeId) (Some lines1)
      end
  end.

(** The [lines] array of [compressAXTreeToText(nodes)] before it is joined. *)
Definition compressedLines (fuel : nat) (nodes : list AXNode) : option (list string) :=
  match nodes with
  | [] => Some []
  | first :: _ =>
      let nodeMap := buildNodeMap nodes in
      let childrenMap := buildChildrenMap nodes in
      if String.eqb (nodeId first) "" then Some []
      else buildCompressedTree fuel (nodeId first) 0 nodeMap childrenMap []
  end.

(** [compressAXTreeToText(nodes)] *)
Definition compressAXTreeToText (fuel : nat) (nodes : list AXNode) : option string :=
  join nl <$> compressedLines fuel nodes.

(** The node list [getSnapshot(interestingOnly, compressed)] renders: the
    filtered list when [interestingOnly], the raw one otherwise. *)
Definition snapshotNodes (fuel : nat) (interestingOnly : bool) (nodes : list AXNode)
    : option (list AXNode) :=
  if interestingOnly then filterInterestingNodes fuel nodes else Some nodes.

Definition snapshotLines (fuel : nat) (interestingOnly : bool) (nodes : list AXNode)
    : option (list string) :=
  match snapshotNodes fuel interestingOnly nodes with
  | Some ns => compressedLines fuel ns
  | None => None
  end.

(** The set [collectInterestingNodes] leaves behind when started, as
    [filterInterestingNodes] does, from the first node with an empty set. *)
Definition interestingIdsOf (fuel : nat) (nodes : list AXNode) : option (gset string) :=
  collectInterestingNodes fuel (nodeId <$> head nodes) (buildNodeMap nodes)
    (buildChildrenMap nodes) ∅ false.

(** *** Reading a line back (specification side)

    The round trip of the specification reads the uid of a line as
    [uid=D_B]: skip the indent, expect [uid=], read decimal [D] up to the
    underscore and decimal [B] up to the next space. *)

Fixpoint leadingSpaces (s : string) : nat :=
  match s with
  | String c rest => if Ascii.eqb c " " then S (leadingSpaces rest) else O
  | EmptyString => O
  end.

Fixpoint dropSpaces (s : string) : string :=
  match s with
  | String c rest => if Ascii.eqb c " " then dropSpaces rest else s
  | EmptyString => s
  end.

(** The text before the first [c] and the text after it. *)
Fixpoint splitAtChar (c : ascii) (s : string) : option (string * string) :=
  match s with
  | EmptyString => None
  | String a rest =>
      if Ascii.eqb a c then Some (EmptyString, rest)
      else match splitAtChar c rest with
           | Some (before, after) => Some (String a before, after)
           | None => None
           end
  end.

Definition stripPrefix (p s : string) : option string :=
  if String.prefix p s then Some (String.substring (String.length p) (String.length s - String.length p) s)
  else None.

Definition parseUid (line : string) : option (nat * Z) :=
  match stripPrefix "uid=" (dropSpaces line) with
  | None => None
  | Some rest =>
      match splitAtChar "_" rest with
      | None => None
      | Some (ds, rest') =>
          let bs := match splitAtChar " " rest' with
                    | Some (bs, _) => bs
                    | None => rest'
                    end in
          if String.eqb ds "" || String.eqb bs "" then None
          else
            match NilEmpty.uint_of_string ds, NilEmpty.int_of_string bs with
            | Some d, Some b => Some (Nat.of_uint d, Z.of_int b)
            | _, _ => None
            end
      end
  end.

(** [atDepth nodeMap childrenMap root id d]: the traversal that starts at
    [root] with depth 0 and descends along [childrenMap] through nodes
    present in [nodeMap] meets [id] at depth [d]. *)
Inductive atDepth (nodeMap : gmap string AXNode) (childrenMap : list (string * list string))
    (root : string) : string -> nat -> Prop :=
| atDepth_root : atDepth nodeMap childrenMap root root O
| atDepth_child (parent child : string) (d : nat) :
    atDepth nodeMap childrenMap root parent d ->
    is_Some (nodeMap !! parent) ->
    child ∈ childrenOf childrenMap parent ->
    atDepth nodeMap childrenMap root child (S d).

(** [line] is what [formatNodeLine] gives for a node the traversal from [root]
    meets at depth [d]. *)
Definition emittedAt (nodeMap : gmap string AXNode) (childrenMap : list (string * list string))
    (root : string) (line : string) (node : AXNode) (d : nat) : Prop :=
  exists id, atDepth nodeMap childrenMap root id d /\ nodeMap !! id = Some node
             /\ formatNodeLine node d = Some line.

(** Decimal digits contain neither an underscore nor a space. *)
Definition digit_char (c : ascii) : Prop :=
  Ascii.eqb c "_" = false /\ Ascii.eqb c " " = false.

Fixpoint all_chars (P : ascii -> Prop) (s : string) : Prop :=
  match s with
  | EmptyString => True
  | String c rest => P c /\ all_chars P rest
  end.

(** No underscore anywhere in the string. *)
Fixpoint noUnderscore (s : string) : bool :=
  match s with
  | EmptyString => true
  | String c rest => negb (Ascii.eqb c "_") && noUnderscore rest
  end.

(** *** Ancestors of a visited node (specification side) *)

(** [ancestorChain nodeMap childrenMap root above id]: the calls of
    [collectInterestingNodes] that start at [root] reach [id] through the
    nodes [above], listed from the root down to the parent of [id]. *)
Inductive ancestorChain (nodeMap : gmap string AXNode) (childrenMap : list (string * list string))
    (root : string) : list AXNode -> string -> Prop :=
| chain_root : ancestorChain nodeMap childrenMap root [] root
| chain_child (above : list AXNode) (parent child : string) (node : AXNode) :
    ancestorChain nodeMap childrenMap root above parent ->
    nodeMap !! parent = Some node ->
    child ∈ childrenOf childrenMap parent ->
    ancestorChain nodeMap childrenMap root (above ++ [node])%list child.

(** Some node of the chain has a role of the Control-roles set. *)
Definition hasControl (above : list AXNode) : bool :=
  existsb (fun a => has_role CONTROL_ROLES (roleOf a)) above.

(** Every chain of ancestors through which [id] is reached holds a node with
    a Control role.  In a tree there is one chain, and this says that [id]
    has an ancestor with a Control role. *)
Definition belowControl (nodeMap : gmap string AXNode) (childrenMap : list (string * list string))
    (root id : string) : Prop :=
  forall above, ancestorChain nodeMap childrenMap root above id -> hasControl above = true.

(** The child edges form a tree below [root]: no node is listed as a child
    by two nodes of the map, and [root] by none. *)
Definition isTree (nodeMap : gmap string AXNode) (childrenMap : list (string * list string))
    (root : string) : Prop :=
  (forall p p' c, is_Some (nodeMap !! p) -> is_Some (nodeMap !! p') ->
                  c ∈ childrenOf childrenMap p -> c ∈ childrenOf childrenMap p' -> p = p')
  /\ (forall p, is_Some (nodeMap !! p) -> root ∉ childrenOf childrenMap p).

(** The tests of [isInterestingNode] that come before the one on
    [insideControl], for a node that is not focusable. *)
Definition interestingByItself (node : AXNode) : bool :=
  negb (isIgnored node)
  && (has_role LANDMARK_ROLES (roleOf node)
      || has_role CONTROL_ROLES (roleOf node)
      || truthy (getNodeProperty node "editable")
      || truthy (getNodeProperty node "modal")
      || (truthy (getNodeProperty node "live")
          && negb (is_str (getNodeProperty node "live") "off"))
      || (is_str (roleOf node) "heading" && truthy (getNodeProperty node "name"))).

(** Why an id is in the set [collectInterestingNodes] builds: the node was
    reached through some chain of ancestors and the test answered true with
    the flag of that chain, or [markAncestorsInteresting] added it as the
    parent of an id of the set. *)
Definition justified (nodeMap : gmap string AXNode) (childrenMap : list (string * list string))
    (root : string) (ids : gset string) : Prop :=
  forall id, id ∈ ids ->
    (exists above node,
        ancestorChain nodeMap childrenMap root above id /\ nodeMap !! id = Some node
        /\ isInterestingNode node nodeMap childrenMap (hasControl above) = true)
    \/ (exists c, c ∈ ids /\ getParent childrenMap c = Some id).

(** The keys of [childrenMap] not yet in the set: the measure of [markLoop]. *)
Definition keysNotIn (childrenMap : list (string * list string)) (ids : gset string) : list string :=
  List.filter (fun k => negb (bool_decide (k ∈ ids))) (fst <$> childrenMap).

(** *** Sample trees *)

Definition strValue (s : string) : AXValue := {| ax_type := "string"; ax_value := JStr s |}.

Definition sampleNode (id role : string) (name : option string) (children : option (list string))
    (backend : option Z) : AXNode :=
  {| nodeId := id; ignored := false; role := Some (strValue role);
     name := strValue <$> name; description := None; value := None;
     properties := None; childIds := children; backendDOMNodeId := backend |}.

Definition headingInLink : list AXNode :=
  [ sampleNode "1" "RootWebArea" (Some "Page") (Some ["2"]) (Some 1);
    sampleNode "2" "link" (Some "News") (Some ["3"]) (Some 6804);
    sampleNode "3" "heading" (Some "Title") None None ].

(** A text inside a link, and a container without a name that sits inside
    a link and holds a button. *)
Definition textInLink : list AXNode :=
  [ sampleNode "1" "RootWebArea" (Some "Page") (Some ["2"]) (Some 1);
    sampleNode "2" "link" (Some "News") (Some ["3"]) (Some 6804);
    sampleNode "3" "StaticText" (Some "News") None None ].

Definition containerInLink : list AXNode :=
  [ sampleNode "1" "RootWebArea" (Some "Page") (Some ["2"]) (Some 1);
    sampleNode "2" "link" (Some "News") (Some ["3"]) (Some 6804);
    sampleNode "3" "generic" None (Some ["4"]) None;
    sampleNode "4" "button" (Some "Close") None (Some 6805) ].

(** A raw accessibility id with an underscore in it, on a node without a
    [backendDOMNodeId]. *)
Definition underscoreId : list AXNode :=
  [ sampleNode "1" "RootWebArea" (Some "Page") (Some ["7_9"]) (Some 1);
    sampleNode "7_9" "link" (Some "News") None None ].

(** *** Facts about strings and loops *)

Lemma append_cons (c : ascii) (s t : string) : String c s ++ t = String c (s ++ t).
Proof. reflexivity. Qed.

Lemma append_nil (t : string) : "" ++ t = t.
Proof. reflexivity. Qed.

Ltac str_simpl := repeat (rewrite append_cons || rewrite append_nil); simpl.

Lemma append_assoc (a b c : string) : (a ++ b) ++ c = a ++ (b ++ c).
Proof. induction a as [|x a IH]; str_simpl; [reflexivity | now rewrite IH]. Qed.


Lemma string_of_uint_digits (d : Decimal.uint) :
  all_chars digit_char (NilEmpty.string_of_uint d).
Proof. induction d; simpl; repeat split; auto. Qed.

Lemma string_of_int_digits (i : Decimal.int) :
  all_chars digit_char (NilEmpty.string_of_int i).
Proof. destruct i; simpl; [|split; [split; reflexivity|]]; apply string_of_uint_digits. Qed.

Lemma splitAtChar_underscore (s rest : string) :
  all_chars digit_char s -> splitAtChar "_" (s ++ String "_" rest) = Some (s, rest).
Proof.
  induction s as [|c s IH]; str_simpl; [reflexivity|].
  intros [[Hu _] Hs]. rewrite Hu, (IH Hs). reflexivity.
Qed.

Lemma splitAtChar_space (s rest : string) :
  all_chars digit_char s -> splitAtChar " " (s ++ String " " rest) = Some (s, rest).
Proof.
  induction s as [|c s IH]; str_simpl; [reflexivity|].
  intros [[_ Hsp] Hs]. rewrite Hsp, (IH Hs). reflexivity.
Qed.

Lemma leadingSpaces_indent (d : nat) (rest : string) :
  leadingSpaces (repeat_string "  " d ++ String "u" rest) = (2 * d)%nat.
Proof. induction d as [|d IH]; simpl repeat_string; str_simpl; [reflexivity | rewrite IH; lia]. Qed.

Lemma dropSpaces_indent (d : nat) (rest : string) :
  dropSpaces (repeat_string "  " d ++ String "u" rest) = String "u" rest.
Proof. induction d as [|d IH]; simpl repeat_string; str_simpl; [reflexivity | exact IH]. Qed.

Lemma substring_all (s : string) : String.substring 0 (String.length s) s = s.
Proof. induction s as [|c s IH]; simpl; [reflexivity | now rewrite IH]. Qed.

Lemma stripPrefix_uid (rest : string) : stripPrefix "uid=" ("uid=" ++ rest) = Some rest.
Proof.
  unfold stripPrefix. str_simpl. rewrite Nat.sub_0_r.
  destruct rest; simpl; [reflexivity|]. now rewrite substring_all.
Qed.

Lemma string_of_nat_nonempty (n : nat) : string_of_nat n <> "".
Proof.
  unfold string_of_nat. intros H.
  assert (Hu : NilEmpty.uint_of_string (NilEmpty.string_of_uint (Nat.to_uint n)) = Some (Nat.to_uint n))
    by apply NilEmpty.usu.
  rewrite H in Hu. simpl in Hu. injection Hu as Hu.
  assert (Hn : Nat.of_uint (Nat.to_uint n) = n) by apply DecimalNat.Unsigned.of_to.
  destruct n as [|n]; [discriminate Hu|].
  rewrite <- Hu in Hn. discriminate Hn.
Qed.

Lemma string_of_Z_nonempty (z : Z) : string_of_Z z <> "".
Proof.
  unfold string_of_Z. intros H.
  assert (Hi := NilEmpty.isi (Z.to_int z)). rewrite H in Hi. simpl in Hi.
  injection Hi as Hi.
  assert (Hz := DecimalZ.of_to z). rewrite <- Hi in Hz. simpl in Hz. subst z.
  discriminate Hi.
Qed.

Lemma eqb_nonempty (s : string) : s <> "" -> String.eqb s "" = false.
Proof. intros H. now apply String.eqb_neq. Qed.

Lemma parseUid_backend_line (depth : nat) (b : Z) (rest : string) :
  parseUid (repeat_string "  " depth ++ "uid=" ++ (string_of_nat depth ++ "_" ++ string_of_Z b) ++ " " ++ rest)
  = Some (depth, b).
Proof.
  unfold parseUid.
  rewrite !append_assoc. rewrite (append_cons "u"), dropSpaces_indent.
  change (String "u" ("id=" ++ ?x)) with ("uid=" ++ x).
  rewrite stripPrefix_uid.
  rewrite (append_cons "_"), append_nil.
  rewrite splitAtChar_underscore by apply string_of_uint_digits.
  rewrite (append_cons " "), append_nil.
  rewrite splitAtChar_space by apply string_of_int_digits.
  rewrite (eqb_nonempty _ (string_of_nat_nonempty depth)).
  rewrite (eqb_nonempty _ (string_of_Z_nonempty b)). simpl orb. cbv iota.
  unfold string_of_nat, string_of_Z.
  rewrite NilEmpty.usu, NilEmpty.isi.
  now rewrite DecimalNat.Unsigned.of_to, DecimalZ.of_to.
Qed.

Lemma forEach_None {S A : Type} (body : S -> A -> option S) (xs : list A) :
  forEach body xs None = None.
Proof. induction xs as [|x xs IH]; [reflexivity | exact IH]. Qed.

Lemma forEach_cons {S A : Type} (body : S -> A -> option S) (x : A) (xs : list A) (s : S) :
  forEach body (x :: xs) (Some s) = forEach body xs (body s x).
Proof. reflexivity. Qed.

Lemma forEach_invariant {S A : Type} (P : S -> Prop) (body : S -> A -> option S) (xs : list A) :
  (forall s x s', x ∈ xs -> P s -> body s x = Some s' -> P s') ->
  forall s s', P s -> forEach body xs (Some s) = Some s' -> P s'.
Proof.
  induction xs as [|x xs IH]; intros Hstep s s' Hs Hrun.
  - injection Hrun as <-. exact Hs.
  - rewrite forEach_cons in Hrun.
    destruct (body s x) as [s1|] eqn:Hb; [|rewrite forEach_None in Hrun; discriminate].
    eapply IH; [| |exact Hrun].
    + intros t y t' Hy. apply Hstep. now right.
    + eapply Hstep; [left | exact Hs | exact Hb].
Qed.

Section Traversal.
Variable nodeMap : gmap string AXNode.
Variable childrenMap : list (string * list string).
Variable root : string.


Lemma buildCompressedTree_lines (fuel : nat) :
  forall (id : string) (d : nat) (lines0 lines : list string),
    atDepth nodeMap childrenMap root id d ->
    buildCompressedTree fuel id d nodeMap childrenMap lines0 = Some lines ->
    forall line, line ∈ lines -> line ∈ lines0 \/ exists node d', emittedAt nodeMap childrenMap root line node d'.
Proof.
  induction fuel as [|fuel IH]; intros id d lines0 lines Hat Hrun; [discriminate|].
  simpl in Hrun.
  destruct (nodeMap !! id) as [node|] eqn:Hnode.
  2:{ injection Hrun as <-. intros line Hl. now left. }
  revert Hrun.
  apply (forEach_invariant
           (fun ls => forall line, line ∈ ls ->
                        line ∈ lines0 \/ exists node d', emittedAt nodeMap childrenMap root line node d')).
  - intros ls c ls' Hc Hls Hbody line Hl.
    destruct (IH c (S d) ls ls') with (line := line) as [Hin|Hem]; auto.
    eapply atDepth_child; eauto.
  - intros line Hl.
    destruct (formatNodeLine node d) as [l|] eqn:Hf; [|now left].
    destruct (String.eqb l ""); [now left|].
    apply elem_of_app in Hl as [Hl|Hl]; [now left|].
    apply list_elem_of_singleton in Hl as ->.
    right. exists node, d, id. auto.
Qed.

End Traversal.


Lemma uint_of_string_space (s t : string) :
  NilEmpty.uint_of_string (s ++ String " " t) = None.
Proof.
  induction s as [|c s IH]; str_simpl.
  - now destruct (NilEmpty.uint_of_string t).
  - now rewrite IH.
Qed.

Lemma splitAtChar_noUnderscore (s t ds rest : string) :
  noUnderscore s = true ->
  splitAtChar "_" (s ++ String " " t) = Some (ds, rest) ->
  exists t', ds = s ++ String " " t'.
Proof.
  revert ds rest. induction s as [|c s IH]; intros ds rest; str_simpl.
  - intros _. destruct (splitAtChar "_" t) as [[b a]|]; [|discriminate].
    intros [= <- _]. now exists b.
  - intros [Hc Hs]%andb_prop.
    apply negb_true_iff in Hc. rewrite Hc.
    destruct (splitAtChar "_" (s ++ String " " t)) as [[b a]|] eqn:Hsplit; [|discriminate].
    intros [= <- _]. destruct (IH b a Hs eq_refl) as [t' ->]. now exists t'.
Qed.

Lemma parseUid_raw_line (depth : nat) (id rest : string) :
  noUnderscore id = true ->
  parseUid (repeat_string "  " depth ++ "uid=" ++ id ++ " " ++ rest) = None.
Proof.
  intros Hid. unfold parseUid.
  rewrite (append_cons "u"), dropSpaces_indent.
  change (String "u" ("id=" ++ ?x)) with ("uid=" ++ x).
  rewrite stripPrefix_uid, (append_cons " "), append_nil.
  destruct (splitAtChar "_" (id ++ String " " rest)) as [[ds rest']|] eqn:Hsplit; [|reflexivity].
  destruct (splitAtChar_noUnderscore _ _ _ _ Hid Hsplit) as [t' ->].
  rewrite uint_of_string_space.
  now destruct (_ || _).
Qed.

Lemma formatNodeLine_shape (node : AXNode) (depth : nat) (line : string) :
  formatNodeLine node depth = Some line ->
  line = repeat_string "  " depth ++ "uid=" ++ uidOf node depth ++ " "
           ++ toString (roleOf node) ++ lineTail node.
Proof.
  unfold formatNodeLine. destruct (isIgnored node); [discriminate|].
  intros [= <-]. reflexivity.
Qed.

Lemma formatNodeLine_indent (node : AXNode) (depth : nat) (line : string) :
  formatNodeLine node depth = Some line -> leadingSpaces line = (2 * depth)%nat.
Proof.
  intros ->%formatNodeLine_shape. rewrite (append_cons "u"). apply leadingSpaces_indent.
Qed.

Lemma formatNodeLine_parse_backend (node : AXNode) (depth : nat) (line : string) (b : Z) :
  formatNodeLine node depth = Some line ->
  backendDOMNodeId node = Some b -> b <> 0 ->
  parseUid line = Some (depth, b).
Proof.
  intros ->%formatNodeLine_shape Hb Hnz. unfold uidOf. rewrite Hb.
  apply Z.eqb_neq in Hnz. rewrite Hnz. apply parseUid_backend_line.
Qed.

Lemma formatNodeLine_parse_only_backend (node : AXNode) (depth : nat) (line : string)
    (D : nat) (B : Z) :
  formatNodeLine node depth = Some line ->
  noUnderscore (nodeId node) = true ->
  parseUid line = Some (D, B) ->
  D = depth /\ backendDOMNodeId node = Some B /\ B <> 0.
Proof.
  intros Hf Hid Hp.
  destruct (backendDOMNodeId node) as [b|] eqn:Hb.
  - destruct (Z.eq_dec b 0) as [->|Hnz].
    + apply formatNodeLine_shape in Hf. unfold uidOf in Hf. rewrite Hb in Hf. simpl in Hf.
      subst line. rewrite parseUid_raw_line in Hp by assumption. discriminate.
    + rewrite (formatNodeLine_parse_backend _ _ _ _ Hf Hb Hnz) in Hp.
      injection Hp as <- <-. auto.
  - apply formatNodeLine_shape in Hf. unfold uidOf in Hf. rewrite Hb in Hf.
    subst line. rewrite parseUid_raw_line in Hp by assumption. discriminate.
Qed.

(** C5, as amended.  Every line of the compressed rendering of a snapshot
    (filtered or not) is the line of a node the traversal meets at some
    depth; its indent is two spaces per unit of that depth; when the node has
    a non-zero [backendDOMNodeId] [b], reading [uid=D_B] back from the line
    gives exactly [(depth, b)]; and a line of a node whose raw id holds no
    underscore reads as [uid=D_B] only in that case. *)
Theorem compressed_line_uid_roundtrip (fuel1 fuel2 : nat) (interestingOnly : bool)
    (nodes filtered : list AXNode) (lines : list string) (line : string) :
  snapshotNodes fuel1 interestingOnly nodes = Some filtered ->
  compressedLines fuel2 filtered = Some lines ->
  line ∈ lines ->
  exists (first node : AXNode) (depth : nat),
    head filtered = Some first
    /\ emittedAt (buildNodeMap filtered) (buildChildrenMap filtered) (nodeId first) line node depth
    /\ leadingSpaces line = (2 * depth)%nat
    /\ (forall b, backendDOMNodeId node = Some b -> b <> 0 -> parseUid line = Some (depth, b))
    /\ (forall D B, noUnderscore (nodeId node) = true -> parseUid line = Some (D, B) ->
                    D = depth /\ backendDOMNodeId node = Some B /\ B <> 0).
Proof.
  intros _ Hlines Hin. unfold compressedLines in Hlines.
  destruct filtered as [|first rest]; [injection Hlines as <-; inversion Hin|].
  destruct (String.eqb (nodeId first) ""); [injection Hlines as <-; inversion Hin|].
  destruct (buildCompressedTree_lines _ _ (nodeId first) fuel2 _ _ _ _
              (atDepth_root _ _ _) Hlines line Hin) as [Hnil|(node & d & Hem)];
    [inversion Hnil|].
  exists first, node, d. split; [reflexivity|]. split; [exact Hem|].
  destruct Hem as (id & _ & _ & Hf).
  split; [eapply formatNodeLine_indent; eauto|]. split.
  - intros b. eapply formatNodeLine_parse_backend; eauto.
  - intros D B. eapply formatNodeLine_parse_only_backend; eauto.
Qed.

Lemma compressed_line_uid_roundtrip_witness :
  let line := "  uid=1_6804 link " ++ dq ++ "News" ++ dq in
  exists (first node : AXNode) (depth : nat),
    head headingInLink = Some first
    /\ emittedAt (buildNodeMap headingInLink) (buildChildrenMap headingInLink)
         (nodeId first) line node depth
    /\ leadingSpaces line = (2 * depth)%nat
    /\ (forall b, backendDOMNodeId node = Some b -> b <> 0 -> parseUid line = Some (depth, b))
    /\ (forall D B, noUnderscore (nodeId node) = true -> parseUid line = Some (D, B) ->
                    D = depth /\ backendDOMNodeId node = Some B /\ B <> 0).
Proof.
  apply (compressed_line_uid_roundtrip 3 3 true headingInLink headingInLink
           [ "uid=0_1 RootWebArea " ++ dq ++ "Page" ++ dq;
             "  uid=1_6804 link " ++ dq ++ "News" ++ dq;
             "    uid=3 heading " ++ dq ++ "Title" ++ dq ]).
  - vm_compute. reflexivity.
  - vm_compute. reflexivity.
  - apply list_elem_of_further, list_elem_of_here.
Defined.

(** C5 as stated fails for a node without a [backendDOMNodeId] whose raw
    accessibility id has the form of a uid: the link with id [7_9], met at
    depth 1, is rendered as [uid=7_9] behind an indent of two spaces, and the
    line reads back as the pair (7, 9). *)
Lemma raw_id_reads_as_uid :
  let line := "  uid=7_9 link " ++ dq ++ "News" ++ dq in
  snapshotNodes 3 true underscoreId = Some underscoreId
  /\ compressedLines 3 underscoreId
     = Some [ "uid=0_1 RootWebArea " ++ dq ++ "Page" ++ dq; line ]
  /\ (exists node : AXNode,
        emittedAt (buildNodeMap underscoreId) (buildChildrenMap underscoreId) "1" line node 1
        /\ backendDOMNodeId node = None)
  /\ leadingSpaces line = 2%nat
  /\ parseUid line = Some (7%nat, 9).
Proof.
  cbv zeta.
  split; [vm_compute; reflexivity|].
  split; [vm_compute; reflexivity|].
  split.
  - exists (sampleNode "7_9" "link" (Some "News") None None). split; [|reflexivity].
    exists "7_9". split; [|split; [vm_compute; reflexivity | vm_compute; reflexivity]].
    apply (atDepth_child _ _ "1" "1" "7_9" 0).
    + apply atDepth_root.
    + eexists. vm_compute. reflexivity.
    + vm_compute. apply list_elem_of_here.
  - split; vm_compute; reflexivity.
Qed.

(** C10.  A rendered node whose [backendDOMNodeId] is absent, or is 0 (the
    test is by truthiness), carries its raw accessibility [nodeId] as uid,
    with no depth in front; a node with a non-zero [backendDOMNodeId] [b], and
    only such a node, carries [<depth>_<b>]. *)
Theorem formatNodeLine_uid_form (node : AXNode) (depth : nat) (line : string) :
  formatNodeLine node depth = Some line ->
  let rest := " " ++ toString (roleOf node) ++ lineTail node in
  match backendDOMNodeId node with
  | Some b =>
      if b =? 0
      then line = repeat_string "  " depth ++ "uid=" ++ nodeId node ++ rest
      else line = repeat_string "  " depth ++ "uid="
                    ++ (string_of_nat depth ++ "_" ++ string_of_Z b) ++ rest
  | None => line = repeat_string "  " depth ++ "uid=" ++ nodeId node ++ rest
  end.
Proof.
  intros ->%formatNodeLine_shape. unfold uidOf.
  destruct (backendDOMNodeId node) as [b|]; [destruct (b =? 0)|]; reflexivity.
Qed.

Lemma formatNodeLine_uid_form_witness :
  let node := sampleNode "2" "link" (Some "News") (Some ["3"]) (Some 6804) in
  "  uid=1_6804 link " ++ dq ++ "News" ++ dq
  = repeat_string "  " 1 ++ "uid=" ++ (string_of_nat 1 ++ "_" ++ string_of_Z 6804)
      ++ " " ++ toString (roleOf node) ++ lineTail node.
Proof.
  exact (formatNodeLine_uid_form
           (sampleNode "2" "link" (Some "News") (Some ["3"]) (Some 6804)) 1 _ eq_refl).
Defined.

(** The same on the other branch: no backend id, and backend id 0. *)
Example formatNodeLine_raw_uid :
  formatNodeLine (sampleNode "3" "heading" (Some "Title") None None) 2
  = Some ("    uid=3 heading " ++ dq ++ "Title" ++ dq)
  /\ formatNodeLine (sampleNode "3" "heading" (Some "Title") None (Some 0)) 2
     = Some ("    uid=3 heading " ++ dq ++ "Title" ++ dq).
Proof. split; reflexivity. Qed.

(** For a node that is not focusable, tested with [insideControl] set, the
    test answers what the tests before the one on [insideControl] answer. *)
Lemma isInterestingNode_inside_control (node : AXNode) (nodeMap : gmap string AXNode)
    (childrenMap : list (string * list string)) :
  truthy (getNodeProperty node "focusable") = false ->
  isInterestingNode node nodeMap childrenMap true = interestingByItself node.
Proof.
  intros Hf. unfold isInterestingNode, interestingByItself, isIgnored. rewrite Hf.
  destruct (is_str (roleOf node) "Ignored" || ignored node); [reflexivity|].
  destruct (has_role LANDMARK_ROLES (roleOf node)); [reflexivity|].
  destruct (has_role CONTROL_ROLES (roleOf node)); [reflexivity|].
  destruct (truthy (getNodeProperty node "editable")); [reflexivity|].
  destruct (truthy (getNodeProperty node "modal")); [reflexivity|].
  destruct (truthy (getNodeProperty node "live") && _); [reflexivity|].
  destruct (is_str (roleOf node) "heading" && _); reflexivity.
Qed.

Lemma truthy_id_inv (q : option string) (p : string) : truthy_id q = Some p -> q = Some p.
Proof.
  destruct q as [s|]; cbn; [|discriminate].
  destruct (String.eqb s ""); [discriminate | now intros [= ->]].
Qed.

Lemma hasControl_snoc (above : list AXNode) (node : AXNode) :
  hasControl (above ++ [node]) = hasControl above || has_role CONTROL_ROLES (roleOf node).
Proof. unfold hasControl. rewrite existsb_app. cbn. now rewrite orb_false_r. Qed.

Section Justified.
Variable nodeMap : gmap string AXNode.
Variable childrenMap : list (string * list string).
Variable root : string.

Lemma justified_grows (ids : gset string) (x : string) :
  justified nodeMap childrenMap root ids ->
  ((exists above node,
       ancestorChain nodeMap childrenMap root above x /\ nodeMap !! x = Some node
       /\ isInterestingNode node nodeMap childrenMap (hasControl above) = true)
   \/ (exists c, c ∈ {[x]} ∪ ids /\ getParent childrenMap c = Some x)) ->
  justified nodeMap childrenMap root ({[x]} ∪ ids).
Proof.
  intros Hj Hx id [->%elem_of_singleton|Hid]%elem_of_union; [exact Hx|].
  destruct (Hj id Hid) as [Htested|(c & Hc & Hpar)]; [now left|].
  right. exists c. split; [apply elem_of_union; now right | exact Hpar].
Qed.

Lemma markLoop_justified (fuel : nat) :
  forall (q : option string) (ids ids' : gset string),
    justified nodeMap childrenMap root ids ->
    (forall p, q = Some p -> exists c, c ∈ ids /\ getParent childrenMap c = Some p) ->
    markLoop fuel childrenMap q ids = Some ids' ->
    justified nodeMap childrenMap root ids'.
Proof.
  induction fuel as [|fuel IH]; intros q ids ids' Hj Hq; cbn.
  - destruct (truthy_id q) as [p|]; [|now intros [= <-]].
    destruct (decide (p ∈ ids)); [now intros [= <-] | discriminate].
  - destruct (truthy_id q) as [p|] eqn:Hp; [|now intros [= <-]].
    destruct (decide (p ∈ ids)); [now intros [= <-]|].
    apply truthy_id_inv in Hp. destruct (Hq p Hp) as (c & Hc & Hpar).
    apply IH.
    + apply justified_grows; [exact Hj|]. right. exists c.
      split; [apply elem_of_union; now right | exact Hpar].
    + intros p' Hp'. exists p. split; [|exact Hp'].
      apply elem_of_union. left. now apply elem_of_singleton.
Qed.

Lemma collectInterestingNodes_justified (fuel : nat) :
  forall (id : option string) (above : list AXNode) (ids ids' : gset string),
    justified nodeMap childrenMap root ids ->
    (forall i, id = Some i -> ancestorChain nodeMap childrenMap root above i) ->
    collectInterestingNodes fuel id nodeMap childrenMap ids (hasControl above) = Some ids' ->
    justified nodeMap childrenMap root ids'.
Proof.
  induction fuel as [|fuel IH]; intros id above ids ids' Hj Hchain;
    cbn [collectInterestingNodes]; [discriminate|].
  destruct (truthy_id id) as [i|] eqn:Hi; [|now intros [= <-]].
  apply truthy_id_inv in Hi. specialize (Hchain i Hi).
  destruct (nodeMap !! i) as [node|] eqn:Hnode; [|now intros [= <-]].
  destruct (if isInterestingNode node nodeMap childrenMap (hasControl above)
            then markAncestorsInteresting childrenMap i ({[i]} ∪ ids)
            else Some ids) as [ids1|] eqn:Hmark.
  2:{ rewrite forEach_None. discriminate. }
  assert (Hj1 : justified nodeMap childrenMap root ids1).
  { destruct (isInterestingNode node nodeMap childrenMap (hasControl above)) eqn:Htest;
      [|injection Hmark as <-; exact Hj].
    unfold markAncestorsInteresting in Hmark.
    eapply markLoop_justified; [| |exact Hmark].
    - apply justified_grows; [exact Hj|]. left. exists above, node. auto.
    - intros p Hp. exists i. split; [|exact Hp].
      apply elem_of_union. left. now apply elem_of_singleton. }
  apply (forEach_invariant (justified nodeMap childrenMap root)); [|exact Hj1].
  intros s c s' Hc Hs Hbody. rewrite <- hasControl_snoc in Hbody.
  eapply IH; [exact Hs| |exact Hbody].
  intros c' [= <-]. now apply (chain_child _ _ _ above i c node).
Qed.

End Justified.

(** In a tree a node has one chain of ancestors. *)
Lemma ancestorChain_unique (nodeMap : gmap string AXNode)
    (childrenMap : list (string * list string)) (root : string) :
  isTree nodeMap childrenMap root ->
  forall above id, ancestorChain nodeMap childrenMap root above id ->
  forall above', ancestorChain nodeMap childrenMap root above' id -> above = above'.
Proof.
  intros [Hparent Hroot] above id Hchain.
  induction Hchain as [|above parent child node Hchain IH Hnode Hchild]; intros above' Hchain'.
  - inversion Hchain' as [|above0 parent0 child0 node0 _ Hnode0 Hchild0]; [reflexivity|].
    subst. elim (Hroot parent0); eauto.
  - inversion Hchain' as [Hnil Hid|above0 parent0 child0 node0 Hchain0 Hnode0 Hchild0].
    + subst. elim (Hroot parent); eauto.
    + subst. assert (parent = parent0) as <- by (eapply Hparent; eauto).
      rewrite Hnode in Hnode0. injection Hnode0 as <-.
      now rewrite (IH above0 Hchain0).
Qed.

(** So in a tree a node with an ancestor that has a Control role is below a
    control in the sense of [belowControl]. *)
Lemma belowControl_in_tree (nodeMap : gmap string AXNode)
    (childrenMap : list (string * list string)) (root id : string) (above : list AXNode) :
  isTree nodeMap childrenMap root ->
  ancestorChain nodeMap childrenMap root above id ->
  hasControl above = true ->
  belowControl nodeMap childrenMap root id.
Proof.
  intros Htree Hchain Hcontrol above' Hchain'.
  now rewrite <- (ancestorChain_unique _ _ _ Htree above id Hchain above' Hchain').
Qed.

(** C4, as amended.  Let the filtering pass return the set [ids] for a node
    list, and let [node] be a node of the node map that is not focusable and
    that is reached only below a node with a Control role: every chain of
    ancestors from the first node of the list down to it holds a node whose
    role is in the Control-roles set (in a tree, by [belowControl_in_tree]:
    the node has an ancestor with a Control role).  The pass hands
    [insideControl || isControl] down to the children, so the node is tested
    with [insideControl] set, and it is not in [ids] unless it is not ignored
    and its role is a landmark or a control role, or it is editable, modal,
    live (other than off) or a heading with a non-empty name, or
    [markAncestorsInteresting] added it as the parent of an id of the set. *)
Theorem control_descendant_not_interesting (fuel : nat) (nodes : list AXNode)
    (first node : AXNode) (ids : gset string) :
  head nodes = Some first ->
  interestingIdsOf fuel nodes = Some ids ->
  buildNodeMap nodes !! nodeId node = Some node ->
  truthy (getNodeProperty node "focusable") = false ->
  belowControl (buildNodeMap nodes) (buildChildrenMap nodes) (nodeId first) (nodeId node) ->
  interestingByItself node = false ->
  (forall c, c ∈ ids -> getParent (buildChildrenMap nodes) c <> Some (nodeId node)) ->
  nodeId node ∉ ids.
Proof.
  intros Hfirst Hrun Hnode Hfocus Hbelow Hitself Hparent Hin.
  unfold interestingIdsOf in Hrun. rewrite Hfirst in Hrun. cbn [fmap option_fmap option_map] in Hrun.
  assert (Hj : justified (buildNodeMap nodes) (buildChildrenMap nodes) (nodeId first) ids).
  { apply (collectInterestingNodes_justified _ _ (nodeId first) fuel
             (Some (nodeId first)) [] ∅ ids); [| |exact Hrun].
    - intros id Hid. apply elem_of_empty in Hid as [].
    - intros i [= <-]. apply chain_root. }
  destruct (Hj _ Hin) as [(above & node' & Hchain & Hnode' & Htest)|(c & Hc & Hpar)];
    [|exact (Hparent c Hc Hpar)].
  rewrite Hnode in Hnode'. injection Hnode' as <-.
  rewrite (Hbelow above Hchain) in Htest.
  rewrite (isInterestingNode_inside_control node _ _ Hfocus) in Htest. congruence.
Qed.

Lemma textInLink_below_control :
  belowControl (buildNodeMap textInLink) (buildChildrenMap textInLink) "1" "3".
Proof.
  intros above Hchain. inversion Hchain as [|above' parent child node _ Hnode Hchild]. subst.
  rewrite hasControl_snoc.
  destruct (String.eqb_spec parent "2") as [->|Hne].
  - vm_compute in Hnode. injection Hnode as <-. apply orb_true_r.
  - exfalso. unfold childrenOf in Hchild. vm_compute buildChildrenMap in Hchild.
    cbn [omap_get] in Hchild.
    destruct (String.eqb_spec "1" parent) as [<-|H1].
    + cbn in Hchild. apply list_elem_of_singleton in Hchild. discriminate Hchild.
    + destruct (String.eqb_spec "2" parent) as [<-|H2]; [now elim Hne|].
      cbn in Hchild. inversion Hchild.
Qed.

Lemma control_descendant_not_interesting_witness :
  let text := sampleNode "3" "StaticText" (Some "News") None None in
  interestingIdsOf 3 textInLink = Some {["1"; "2"]}
  /\ isInterestingNode text (buildNodeMap textInLink) (buildChildrenMap textInLink) false = true
  /\ "3" ∉ ({["1"; "2"]} : gset string).
Proof.
  cbv zeta. split; [vm_compute; reflexivity|]. split; [vm_compute; reflexivity|].
  apply (control_descendant_not_interesting 3 textInLink
           (sampleNode "1" "RootWebArea" (Some "Page") (Some ["2"]) (Some 1))
           (sampleNode "3" "StaticText" (Some "News") None None)
           {["1"; "2"]} eq_refl eq_refl eq_refl eq_refl textInLink_below_control eq_refl).
  intros c [Hc|Hc]%elem_of_union; apply elem_of_singleton in Hc; subst c;
    vm_compute; discriminate.
Defined.

(** C4 as stated fails: a named heading inside a link is not focusable, has
    an ancestor with a Control role, has neither a landmark nor a control
    role, and is classified interesting all the same. *)
Lemma heading_inside_link_kept :
  exists (parent node : AXNode) (ids : gset string),
    parent ∈ headingInLink /\ node ∈ headingInLink
    /\ has_role CONTROL_ROLES (roleOf parent) = true
    /\ childIds parent = Some [nodeId node]
    /\ truthy (getNodeProperty node "focusable") = false
    /\ has_role LANDMARK_ROLES (roleOf node) = false
    /\ has_role CONTROL_ROLES (roleOf node) = false
    /\ isInterestingNode node (buildNodeMap headingInLink) (buildChildrenMap headingInLink) true = true
    /\ interestingIdsOf 3 headingInLink = Some ids
    /\ nodeId node ∈ ids.
Proof.
  exists (sampleNode "2" "link" (Some "News") (Some ["3"]) (Some 6804)),
         (sampleNode "3" "heading" (Some "Title") None None),
         ({["1"; "2"; "3"]}).
  split; [unfold headingInLink; set_solver|].
  split; [unfold headingInLink; set_solver|].
  do 6 (split; [reflexivity|]).
  split; [vm_compute; reflexivity|].
  set_solver.
Qed.

(** The part of [markAncestorsInteresting]: a container without a name is
    not focusable, sits inside a link and is not interesting by itself, and
    is in the set all the same, as the parent of the button it holds. *)
Example container_inside_link_kept :
  let container := sampleNode "3" "generic" None (Some ["4"]) None in
  interestingIdsOf 4 containerInLink = Some {["1"; "2"; "3"; "4"]}
  /\ truthy (getNodeProperty container "focusable") = false
  /\ interestingByItself container = false
  /\ isInterestingNode container (buildNodeMap containerInLink)
       (buildChildrenMap containerInLink) true = false
  /\ getParent (buildChildrenMap containerInLink) "4" = Some "3".
Proof.
  cbv zeta. split; [vm_compute; reflexivity|]. repeat split.
Qed.

Lemma forEach_total {S A : Type} (body : S -> A -> option S) (xs : list A) :
  (forall s x, x ∈ xs -> is_Some (body s x)) ->
  forall s, is_Some (forEach body xs (Some s)).
Proof.
  induction xs as [|x xs IH]; intros Hbody s; [now exists s|].
  rewrite forEach_cons.
  destruct (Hbody s x) as [s1 ->]; [left|].
  apply IH. intros t y Hy. apply Hbody. now right.
Qed.

(** On a graph whose edges go down a rank (a tree, a forest, any acyclic
    graph), enough fuel makes the rendering return. *)
Lemma buildCompressedTree_total (nodeMap : gmap string AXNode)
    (childrenMap : list (string * list string)) (rank : string -> nat) :
  (forall p c, is_Some (nodeMap !! p) -> c ∈ childrenOf childrenMap p -> (rank c < rank p)%nat) ->
  forall (fuel : nat) (id : string) (d : nat) (lines0 : list string),
    (rank id < fuel)%nat ->
    is_Some (buildCompressedTree fuel id d nodeMap childrenMap lines0).
Proof.
  intros Hrank. induction fuel as [|fuel IH]; intros id d lines0 Hlt; [lia|].
  simpl. destruct (nodeMap !! id) as [node|] eqn:Hnode; [|eauto].
  apply forEach_total. intros ls c Hc. apply IH.
  specialize (Hrank id c (ltac:(eauto)) Hc). lia.
Qed.


Lemma getParent_key (childrenMap : list (string * list string)) (id p : string) :
  getParent childrenMap id = Some p -> p ∈ (fst <$> childrenMap).
Proof.
  unfold getParent. destruct (List.find _ childrenMap) as [[k cs]|] eqn:Hfind; [|discriminate].
  intros [= <-]. apply find_some in Hfind as [Hin _].
  apply list_elem_of_In in Hin. apply (list_elem_of_fmap_2 fst) in Hin. exact Hin.
Qed.

Lemma keysNotIn_add (keys : list string) (p : string) (ids : gset string) :
  p ∈ keys -> p ∉ ids ->
  (length (List.filter (fun k => negb (bool_decide (k ∈ ({[p]} ∪ ids)))) keys)
   < length (List.filter (fun k => negb (bool_decide (k ∈ ids))) keys))%nat.
Proof.
  intros Hin Hni.
  assert (Hmono : forall x, x ∈ ids -> x ∈ {[p]} ∪ ids)
    by (intros x Hx; apply elem_of_union; now right).
  assert (Hother : forall x, x <> p -> x ∉ ids -> x ∉ {[p]} ∪ ids).
  { intros x Hxp Hx [Hs|Hi]%elem_of_union; [|contradiction].
    apply elem_of_singleton in Hs. contradiction. }
  assert (Hle : forall l : list string,
             (length (List.filter (fun k => negb (bool_decide (k ∈ ({[p]} ∪ ids)))) l)
              <= length (List.filter (fun k => negb (bool_decide (k ∈ ids))) l))%nat).
  { induction l as [|x l IHl]; simpl; [lia|].
    destruct (bool_decide (x ∈ ids)) eqn:Hx.
    - apply bool_decide_eq_true in Hx.
      rewrite (bool_decide_eq_true_2 _ (Hmono x Hx)). simpl. exact IHl.
    - destruct (bool_decide (x ∈ {[p]} ∪ ids)); simpl; lia. }
  induction keys as [|k keys IH]; [inversion Hin|].
  simpl. destruct (decide (k = p)) as [->|Hne].
  - rewrite (bool_decide_eq_true_2 (p ∈ {[p]} ∪ ids))
      by (apply elem_of_union; left; now apply elem_of_singleton).
    rewrite (bool_decide_eq_false_2 _ Hni). simpl.
    specialize (Hle keys). lia.
  - assert (Hin' : p ∈ keys) by (inversion Hin; subst; [congruence | assumption]).
    specialize (IH Hin').
    destruct (bool_decide (k ∈ ids)) eqn:Hk.
    + apply bool_decide_eq_true in Hk.
      rewrite (bool_decide_eq_true_2 _ (Hmono k Hk)). simpl. exact IH.
    + apply bool_decide_eq_false in Hk.
      rewrite (bool_decide_eq_false_2 _ (Hother k Hne Hk)). simpl. lia.
Qed.

Lemma markLoop_total (childrenMap : list (string * list string)) :
  forall (fuel : nat) (parentId : option string) (ids : gset string),
    (forall p, parentId = Some p -> p ∈ (fst <$> childrenMap)) ->
    (length (keysNotIn childrenMap ids) <= fuel)%nat ->
    is_Some (markLoop fuel childrenMap parentId ids).
Proof.
  induction fuel as [|fuel IH]; intros parentId ids Hkey Hfuel.
  - simpl. destruct (truthy_id parentId) as [p|] eqn:Hp; [|eauto].
    destruct (decide (p ∈ ids)) as [|Hni]; [eauto|].
    assert (Hpk : p ∈ (fst <$> childrenMap)).
    { apply Hkey. destruct parentId as [q|]; [|discriminate]. simpl in Hp.
      destruct (String.eqb q ""); [discriminate|]. congruence. }
    pose proof (keysNotIn_add _ p ids Hpk Hni) as Hlt. unfold keysNotIn in Hfuel. lia.
  - simpl. destruct (truthy_id parentId) as [p|] eqn:Hp; [|eauto].
    destruct (decide (p ∈ ids)) as [|Hni]; [eauto|].
    assert (Hpk : p ∈ (fst <$> childrenMap)).
    { apply Hkey. destruct parentId as [q|]; [|discriminate]. simpl in Hp.
      destruct (String.eqb q ""); [discriminate|]. congruence. }
    apply IH.
    + intros q. apply getParent_key.
    + pose proof (keysNotIn_add _ p ids Hpk Hni) as Hlt. unfold keysNotIn in *. lia.
Qed.

Lemma markAncestorsInteresting_total (childrenMap : list (string * list string))
    (nodeId : string) (ids : gset string) :
  is_Some (markAncestorsInteresting childrenMap nodeId ids).
Proof.
  unfold markAncestorsInteresting. apply markLoop_total.
  - intros p. apply getParent_key.
  - unfold keysNotIn.
    etransitivity; [apply filter_length_le|]. rewrite length_fmap. lia.
Qed.

Lemma collectInterestingNodes_total (nodeMap : gmap string AXNode)
    (childrenMap : list (string * list string)) (rank : string -> nat) :
  (forall p c, is_Some (nodeMap !! p) -> c ∈ childrenOf childrenMap p -> (rank c < rank p)%nat) ->
  forall (fuel : nat) (id : string) (ids : gset string) (insideControl : bool),
    (rank id < fuel)%nat ->
    is_Some (collectInterestingNodes fuel (Some id) nodeMap childrenMap ids insideControl).
Proof.
  intros Hrank. induction fuel as [|fuel IH]; intros id ids ic Hlt; [lia|].
  simpl. destruct (String.eqb id ""); [eauto|].
  destruct (nodeMap !! id) as [node|] eqn:Hnode; [|eauto].
  assert (Hmarked : is_Some (if isInterestingNode node nodeMap childrenMap ic
                             then markAncestorsInteresting childrenMap id ({[id]} ∪ ids)
                             else Some ids)).
  { destruct (isInterestingNode _ _ _ _); [apply markAncestorsInteresting_total | eauto]. }
  destruct Hmarked as [ids1 ->].
  apply forEach_total. intros s c Hc. apply IH.
  specialize (Hrank id c (ltac:(eauto)) Hc). lia.
Qed.

End A11y.

(** ** Input key mapper *)

Module Keys.

Record KeyModifiers : Type := { alt : bool; ctrl : bool; meta : bool; shift : bool }.

(** [getModifierFlags(modifiers)] *)
Definition getModifierFlags (modifiers : KeyModifiers) : Z :=
  let flags := 0 in
  let flags := if alt modifiers then Z.lor flags 1 else flags in
  let flags := if ctrl modifiers then Z.lor flags 2 else flags in
  let flags := if meta modifiers then Z.lor flags 4 else flags in
  let flags := if shift modifiers then Z.lor flags 8 else flags in
  flags.

Definition KEY_CODE_MAP : list (string * Z) :=
  [ ("Backspace", 8); ("Tab", 9); ("Enter", 13); ("Shift", 16); ("Control", 17);
    ("Alt", 18); ("Escape", 27); ("Space", 32); ("ArrowLeft", 37); ("ArrowUp", 38);
    ("ArrowRight", 39); ("ArrowDown", 40); ("Delete", 46);
    ("F1", 112); ("F2", 113); ("F3", 114); ("F4", 115); ("F5", 116); ("F6", 117);
    ("F7", 118); ("F8", 119); ("F9", 120); ("F10", 121); ("F11", 122); ("F12", 123) ].

Fixpoint lookupKey (key : string) (table : list (string * Z)) : option Z :=
  match table with
  | [] => None
  | (k, v) :: rest => if String.eqb k key then Some v else lookupKey key rest
  end.

Definition charCode (c : ascii) : Z := Z.of_N (N_of_ascii c).

(** [getKeyCode(key, code)].  Keys are strings of ASCII characters here, one
    character being one UTF-16 unit, and the table is read for its own
    entries only: the names that a JavaScript object inherits
    ([constructor], [toString] and the like) are outside the domain. *)
Definition getKeyCode (key code : string) : Z :=
  match lookupKey key KEY_CODE_MAP with
  | Some v => v
  | None =>
      match key with
      | String c EmptyString =>
          let n := charCode c in
          if (charCode "a" <=? n) && (n <=? charCode "z") then n - 32
          else if (charCode "A" <=? n) && (n <=? charCode "Z") then n
          else if (charCode "0" <=? n) && (n <=? charCode "9") then n
          else n
      | _ => 0
      end
  end.

End Keys.

(** ** The CDP transport, as the session sees it *)

Module Cdp.
Import Js.

(** A JavaScript number: an IEEE 754 binary64 value, [nan] included. *)
Definition JsNumber : Type := float.

(** Parameters of [Input.dispatchKeyEvent]. *)
Record KeyEvent : Type := {
  ke_type : string;
  ke_key : string;
  ke_code : string;
  ke_text : option string;
  ke_modifiers : Z;
  ke_windowsVirtualKeyCode : option Z;
  ke_nativeVirtualKeyCode : option Z
}.

(** Parameters of [Input.dispatchMouseEvent]. *)
Record MouseEvent : Type := {
  me_type : string;
  me_x : JsNumber;
  me_y : JsNumber;
  me_button : string;
  me_clickCount : Z
}.

(** A target descriptor of [Target.getTargets]. *)
Record TargetInfo : Type := {
  ti_targetId : string;
  ti_type : string;
  ti_url : string;
  ti_title : string
}.

(** The CDP methods the modelled operations invoke, with their parameters;
    [Connect] opens the transport and [Close] is [browserClient.close()]. *)
Inductive Command : Type :=
| Connect (target : string)
| Close
| Target_setDiscoverTargets (discover : bool)
| Target_getTargets
| Target_attachToTarget (targetId : string) (flatten : bool)
| Target_detachFromTarget (sessionId : option string)
| Target_createTarget (url : string)
| Page_enable
| Page_getFrameTree
| Page_startScreencast
| Page_stopScreencast
| Runtime_enable
| Runtime_evaluate (expression : string) (returnByValue : bool)
| Emulation_setDeviceMetricsOverride
| Input_dispatchKeyEvent (event : KeyEvent)
| Input_dispatchMouseEvent (event : MouseEvent)
| DOM_enable
| DOM_getBoxModel (backendNodeId : Z).

(** One message handed to a transport: which connection, the page session it
    is addressed to (none for browser-level methods) and the method. *)
Record Call : Type := {
  c_transport : nat;
  c_session : option string;
  c_cmd : Command
}.

(** [model] of a [DOM.getBoxModel] result. *)
Record BoxModel : Type := { content : option (list JsNumber) }.

(** What a successful reply carries. *)
Inductive Payload : Type :=
| P_empty
| P_sessionId (sessionId : string)
| P_targetId (targetId : string)
| P_targetInfos (targetInfos : list TargetInfo)
| P_frameTree (url : string)
| P_evaluate (value : JsVal)
| P_boxModel (model : option BoxModel).

Inductive Reply : Type :=
| Ok (payload : Payload)
| Err (message : string).

(** The browser end of the transports: the reply to a call, given every call
    made before it. *)
Definition Browser : Type := list Call -> Call -> Reply.

Inductive ClientType : Type := VIEWER | API.

(** A client object; [cid] is its identity as an object. *)
Record Client : Type := { cid : nat; socketId : string; ctype : ClientType }.

(** The callbacks a session invokes on a client, by event name;
    [browser_error_undefined] is [onError(undefined)]. *)
Inductive ClientEvent : Type :=
| browser_connected (url : string) (targetId : option string)
| browser_pageList (pages : list TargetInfo) (activeTargetId : option string)
| browser_error (message : string)
| browser_error_undefined.

(** Everything observable outside the sessions: the calls made on the
    transports, in order, the callbacks invoked on clients, in order, and how
    many transports were opened. *)
Record World : Type := {
  calls : list Call;
  deliveries : list (Client * ClientEvent);
  opened : nat
}.

Definition emptyWorld : World := {| calls := []; deliveries := []; opened := 0 |}.

Definition logCall (c : Call) (w : World) : World :=
  {| calls := calls w ++ [c]; deliveries := deliveries w; opened := opened w |}.

Definition logDeliveries (ds : list (Client * ClientEvent)) (w : World) : World :=
  {| calls := calls w; deliveries := deliveries w ++ ds; opened := opened w |}.

Definition bumpOpened (w : World) : World :=
  {| calls := calls w; deliveries := deliveries w; opened := S (opened w) |}.

(** What a [catch] clause receives: an [Error] object with its message, or
    the bare boolean [true].  The promise interface of chrome-remote-interface
    ([client.Target.getTargets()], [CDP(...)]) rejects with an [Error] that
    carries the browser's message; its callback interface, which
    [sendToSession] wraps, calls back with [true] as first argument when the
    browser answers a command with an error, and [sendToSession] rejects
    with that value. *)
Inductive Thrown : Type :=
| JsError (message : string)
| JsTrue.

(** [(error as Error).message] inside a template literal. *)
Definition messageText (e : Thrown) : string :=
  match e with
  | JsError message => message
  | JsTrue => "undefined"
  end.

(** [onError((error as Error).message)] *)
Definition errorEvent (e : Thrown) : ClientEvent :=
  match e with
  | JsError message => browser_error message
  | JsTrue => browser_error_undefined
  end.

(** *** Computations that may throw

    An [async] method run to completion: every awaited call is answered
    before the next statement runs.  A thrown error keeps the state reached
    so far. *)
Inductive Outcome (A : Type) : Type :=
| Return (a : A)
| Throw (error : Thrown).
Arguments Return {A} a.
Arguments Throw {A} error.

Definition M (St A : Type) : Type := St -> Outcome A * St.

Definition ret {St A : Type} (a : A) : M St A := fun st => (Return a, st).

Definition throw {St A : Type} (error : Thrown) : M St A := fun st => (Throw error, st).

Definition bind {St A B : Type} (m : M St A) (k : A -> M St B) : M St B :=
  fun st =>
    match m st with
    | (Return a, st') => k a st'
    | (Throw e, st') => (Throw e, st')
    end.

(** [try { m } catch (error) { handler(error) }] *)
Definition try_catch {St A : Type} (m : M St A) (handler : Thrown -> M St A) : M St A :=
  fun st =>
    match m st with
    | (Return a, st') => (Return a, st')
    | (Throw e, st') => handler e st'
    end.

(** An [async] call as the caller sees it when the call gives control back
    at its [await]: what the call does up to there is done (its command has
    been handed to the transport), and the outcome its promise will settle
    with, known to the model from the browser's reply, comes back as a value. *)
Definition promised {St A : Type} (m : M St A) : M St (Outcome A) :=
  fun st => (Return (fst (m st)), snd (m st)).

Definition gets {St A : Type} (f : St -> A) : M St A := fun st => (Return (f st), st).

Definition modify {St : Type} (f : St -> St) : M St unit := fun st => (Return tt, f st).

Definition when {St : Type} (c : bool) (m : M St unit) : M St unit :=
  if c then m else ret tt.

(** *** Reasoning about computations *)

(** [triple P m Q E]: started in a state satisfying [P], [m] ends in a state
    satisfying [Q a] when it returns [a] and [E] when it throws. *)
Definition triple {St A : Type} (P : St -> Prop) (m : M St A)
    (Q : A -> St -> Prop) (E : St -> Prop) : Prop :=
  forall st, P st ->
    match m st with
    | (Return a, st') => Q a st'
    | (Throw _, st') => E st'
    end.

Section Triples.
Context {St : Type}.
Implicit Types (P E : St -> Prop).

Lemma triple_ret {A : Type} (a : A) (Q : A -> St -> Prop) E :
  triple (Q a) (ret a) Q E.
Proof. intros st H. exact H. Qed.

Lemma triple_throw {A : Type} (e : Thrown) (Q : A -> St -> Prop) E :
  triple E (throw e) Q E.
Proof. intros st H. exact H. Qed.

Lemma triple_bind {A B : Type} P (m : M St A) (k : A -> M St B)
    (Q1 : A -> St -> Prop) (Q : B -> St -> Prop) E :
  triple P m Q1 E -> (forall a, triple (Q1 a) (k a) Q E) -> triple P (bind m k) Q E.
Proof.
  intros Hm Hk st HP. specialize (Hm st HP). unfold bind.
  destruct (m st) as [[a|e] st']; [apply Hk; exact Hm | exact Hm].
Qed.

Lemma triple_try_catch {A : Type} P (m : M St A) (handler : Thrown -> M St A)
    (Q : A -> St -> Prop) E1 E :
  triple P m Q E1 -> (forall e, triple E1 (handler e) Q E) -> triple P (try_catch m handler) Q E.
Proof.
  intros Hm Hh st HP. specialize (Hm st HP). unfold try_catch.
  destruct (m st) as [[a|e] st']; [exact Hm | apply Hh; exact Hm].
Qed.

Lemma triple_weaken {A : Type} P P' (m : M St A) (Q Q' : A -> St -> Prop) E E' :
  triple P' m Q' E' ->
  (forall st, P st -> P' st) -> (forall a st, Q' a st -> Q a st) -> (forall st, E' st -> E st) ->
  triple P m Q E.
Proof.
  intros Hm HP HQ HE st Hst. specialize (Hm st (HP st Hst)).
  destruct (m st) as [[a|e] st']; auto.
Qed.

Lemma triple_promised {A : Type} P (m : M St A) (Q : A -> St -> Prop) (R : St -> Prop) E :
  triple P m Q R -> (forall a st, Q a st -> R st) -> triple P (promised m) (fun _ => R) E.
Proof.
  intros Hm HQ st HP. specialize (Hm st HP). unfold promised. simpl.
  destruct (m st) as [[a|e] st']; simpl; eauto.
Qed.

Lemma triple_gets {A : Type} P (f : St -> A) E :
  triple P (gets f) (fun a st => P st /\ a = f st) E.
Proof. intros st HP. simpl. auto. Qed.

Lemma triple_modify P (f : St -> St) E :
  triple (fun st => P (f st)) (modify f) (fun _ => P) E.
Proof. intros st HP. exact HP. Qed.

Lemma triple_when P (c : bool) (m : M St unit) (Q : St -> Prop) E :
  (c = true -> triple P m (fun _ => Q) E) -> (c = false -> forall st, P st -> Q st) ->
  triple P (when c m) (fun _ => Q) E.
Proof.
  intros Ht Hf. unfold when. destruct c; [now apply Ht|].
  intros st HP. simpl. now apply Hf.
Qed.

Lemma triple_pre {A : Type} P (m : M St A) (Q : A -> St -> Prop) E :
  (forall st, P st -> triple (fun st' => st' = st) m Q E) -> triple P m Q E.
Proof. intros H st HP. exact (H st HP st eq_refl). Qed.

End Triples.


Lemma bind_run {St A B : Type} (m : M St A) (k : A -> M St B) (st st' : St) (a : A) :
  m st = (Return a, st') -> bind m k st = k a st'.
Proof. intros H. unfold bind. now rewrite H. Qed.

Lemma bind_assoc {St A B C : Type} (m : M St A) (k1 : A -> M St B) (k2 : B -> M St C)
    (st : St) :
  bind (bind m k1) k2 st = bind m (fun a => bind (k1 a) k2) st.
Proof. unfold bind. destruct (m st) as [[a|e] st']; reflexivity. Qed.


End Cdp.

(** ** Browser session *)

Module BrowserSession.
Import Js Keys Cdp.

(** The rest of an [async] call of the session that nobody awaits
    ([tryStartScreencast()] in [addClient], [tryStopScreencast()] in
    [removeClient]): the call has handed its command to the transport and is
    suspended at [await this.send(...)] until the outcome arrives. *)
Inductive Suspended : Type :=
| StartScreencastSent (outcome : Outcome Payload)
| StopScreencastSent (outcome : Outcome Payload).

(** The fields of the class, and [suspended]: the un-awaited calls of this
    object that the event loop still holds, oldest first. *)
Record Session : Type := {
  browserClient : option nat;
  sessionId : option string;
  targetId : option string;
  currentUrl : string;
  token : string;
  viewerClients : list Client;
  apiClients : list Client;
  screencastStarted : bool;
  pressedModifiers : gset string;
  suspended : list Suspended
}.

(** [new BrowserSession()] *)
Definition newSession : Session :=
  {| browserClient := None; sessionId := None; targetId := None; currentUrl := "";
     token := ""; viewerClients := []; apiClients := []; screencastStarted := false;
     pressedModifiers := ∅; suspended := [] |}.

Definition set_browserClient (v : option nat) (s : Session) : Session :=
  {| browserClient := v; sessionId := sessionId s; targetId := targetId s;
     currentUrl := currentUrl s; token := token s; viewerClients := viewerClients s;
     apiClients := apiClients s; screencastStarted := screencastStarted s;
     pressedModifiers := pressedModifiers s; suspended := suspended s |}.

Definition set_sessionId (v : option string) (s : Session) : Session :=
  {| browserClient := browserClient s; sessionId := v; targetId := targetId s;
     currentUrl := currentUrl s; token := token s; viewerClients := viewerClients s;
     apiClients := apiClients s; screencastStarted := screencastStarted s;
     pressedModifiers := pressedModifiers s; suspended := suspended s |}.

Definition set_targetId (v : option string) (s : Session) : Session :=
  {| browserClient := browserClient s; sessionId := sessionId s; targetId := v;
     currentUrl := currentUrl s; token := token s; viewerClients := viewerClients s;
     apiClients := apiClients s; screencastStarted := screencastStarted s;
     pressedModifiers := pressedModifiers s; suspended := suspended s |}.

Definition set_currentUrl (v : string) (s : Session) : Session :=
  {| browserClient := browserClient s; sessionId := sessionId s; targetId := targetId s;
     currentUrl := v; token := token s; viewerClients := viewerClients s;
     apiClients := apiClients s; screencastStarted := screencastStarted s;
     pressedModifiers := pressedModifiers s; suspended := suspended s |}.

Definition set_token (v : string) (s : Session) : Session :=
  {| browserClient := browserClient s; sessionId := sessionId s; targetId := targetId s;
     currentUrl := currentUrl s; token := v; viewerClients := viewerClients s;
     apiClients := apiClients s; screencastStarted := screencastStarted s;
     pressedModifiers := pressedModifiers s; suspended := suspended s |}.

Definition set_viewerClients (v : list Client) (s : Session) : Session :=
  {| browserClient := browserClient s; sessionId := sessionId s; targetId := targetId s;
     currentUrl := currentUrl s; token := token s; viewerClients := v;
     apiClients := apiClients s; screencastStarted := screencastStarted s;
     pressedModifiers := pressedModifiers s; suspended := suspended s |}.

Definition set_apiClients (v : list Client) (s : Session) : Session :=
  {| browserClient := browserClient s; sessionId := sessionId s; targetId := targetId s;
     currentUrl := currentUrl s; token := token s; viewerClients := viewerClients s;
     apiClients := v; screencastStarted := screencastStarted s;
     pressedModifiers := pressedModifiers s; suspended := suspended s |}.

Definition set_screencastStarted (v : bool) (s : Session) : Session :=
  {| browserClient := browserClient s; sessionId := sessionId s; targetId := targetId s;
     currentUrl := currentUrl s; token := token s; viewerClients := viewerClients s;
     apiClients := apiClients s; screencastStarted := v;
     pressedModifiers := pressedModifiers s; suspended := suspended s |}.

Definition set_pressedModifiers (v : gset string) (s : Session) : Session :=
  {| browserClient := browserClient s; sessionId := sessionId s; targetId := targetId s;
     currentUrl := currentUrl s; token := token s; viewerClients := viewerClients s;
     apiClients := apiClients s; screencastStarted := screencastStarted s;
     pressedModifiers := v; suspended := suspended s |}.

Definition set_suspended (v : list Suspended) (s : Session) : Session :=
  {| browserClient := browserClient s; sessionId := sessionId s; targetId := targetId s;
     currentUrl := currentUrl s; token := token s; viewerClients := viewerClients s;
     apiClients := apiClients s; screencastStarted := screencastStarted s;
     pressedModifiers := pressedModifiers s; suspended := v |}.

#[global] Instance ClientType_eq_dec : EqDecision ClientType.
Proof. solve_decision. Defined.

#[global] Instance Client_eq_dec : EqDecision Client.
Proof. solve_decision. Defined.

(** [set.add(client)] and [set.delete(client)] on a [Set] kept in insertion
    order. *)
Definition setAdd (c : Client) (l : list Client) : list Client :=
  if bool_decide (c ∈ l) then l else l ++ [c].

Definition setDelete (c : Client) (l : list Client) : list Client :=
  List.filter (fun x => negb (bool_decide (x = c))) l.

(** A string or null used as a condition. *)
Definition isSet (v : option string) : bool :=
  match v with
  | Some s => negb (String.eqb s "")
  | None => false
  end.

(** The state a method of the session runs in. *)
Definition St : Type := (Session * World)%type.

Definition getSession : M St Session := gets fst.

Definition update (f : Session -> Session) : M St unit :=
  modify (fun st => (f (fst st), snd st)).

Notation "'let*' x ':=' m 'in' k" := (bind m (fun x => k))
  (at level 10, x name, m at level 100, k at level 200, only parsing).
Notation "'do' m 'then' k" := (bind m (fun _ => k))
  (at level 10, m at level 100, k at level 200, only parsing).

(** A client callback: a viewer forwards the event on its socket, an API
    client ignores it. *)
Definition notify (c : Client) (ev : ClientEvent) : M St unit :=
  modify (fun st =>
    match ctype c with
    | VIEWER => (fst st, logDeliveries [(c, ev)] (snd st))
    | API => st
    end).

Fixpoint notifyAll (cs : list Client) (ev : ClientEvent) : M St unit :=
  match cs with
  | [] => ret tt
  | c :: rest => do notify c ev then notifyAll rest ev
  end.

(** [emitToViewers(event, data)] *)
Definition emitToViewers (ev : ClientEvent) : M St unit :=
  let* s := getSession in notifyAll (viewerClients s) ev.

Section WithBrowser.
Variable browser : Browser.

(** One message on transport [t] through the promise interface
    ([browserClient.Target.attachToTarget(...)] and the like): it is
    appended to the calls, and the browser's reply decides between a result
    and a rejection with an [Error] of the browser's message. *)
Definition callOn (t : nat) (sid : option string) (cmd : Command) : M St Payload :=
  fun st =>
    let c := {| c_transport := t; c_session := sid; c_cmd := cmd |} in
    let st' := (fst st, logCall c (snd st)) in
    match browser (calls (snd st)) c with
    | Ok p => (Return p, st')
    | Err e => (Throw (JsError e), st')
    end.

(** [sendToSession(client, method, params, sessionId)]: the same message
    through the callback interface; an error reply rejects with [true]. *)
Definition sendToSession (t : nat) (sid : option string) (cmd : Command) : M St Payload :=
  fun st =>
    let c := {| c_transport := t; c_session := sid; c_cmd := cmd |} in
    let st' := (fst st, logCall c (snd st)) in
    match browser (calls (snd st)) c with
    | Ok p => (Return p, st')
    | Err _ => (Throw JsTrue, st')
    end.

(** [send(method, params)] *)
Definition send (cmd : Command) : M St Payload :=
  let* s := getSession in
  match browserClient s with
  | Some t => if isSet (sessionId s) then sendToSession t (sessionId s) cmd
              else throw (JsError "Browser not connected")
  | None => throw (JsError "Browser not connected")
  end.

(** *** Screencast on demand *)

(** [startScreencast()] *)
Definition startScreencast : M St unit :=
  let* s := getSession in
  if negb (isSet (sessionId s)) || screencastStarted s then ret tt
  else
    try_catch
      (do send Page_startScreencast then
       update (set_screencastStarted true))
      (fun e => emitToViewers (browser_error ("Screencast error: " ++ messageText e))).

(** [stopScreencast()] *)
Definition stopScreencast : M St unit :=
  let* s := getSession in
  if negb (isSet (sessionId s)) || negb (screencastStarted s) then ret tt
  else
    try_catch
      (do send Page_stopScreencast then
       update (set_screencastStarted false))
      (fun _ => ret tt).

(** [tryStartScreencast()] *)
Definition tryStartScreencast : M St unit :=
  let* s := getSession in
  if screencastStarted s || (length (viewerClients s) =? 0)%nat then ret tt
  else startScreencast.

(** [tryStopScreencast()] *)
Definition tryStopScreencast : M St unit :=
  let* s := getSession in
  if negb (screencastStarted s) || (0 <? length (viewerClients s))%nat then ret tt
  else stopScreencast.

(** *** Calls that are not awaited

    [addClient] and [removeClient] are synchronous: they call
    [tryStartScreencast()] and [tryStopScreencast()] and return without
    awaiting the promise.  Such a call runs up to its first [await] that has
    to wait, which is [await this.send(...)]: the guards are tested and the
    command is handed to the transport.  What comes after the [await] (the
    assignment to [screencastStarted], or the [catch]) runs when the outcome
    arrives, after the caller has returned. *)

(** [startScreencast()] up to [await this.send('Page.startScreencast')];
    [None] when a guard returns before that. *)
Definition startScreencast_begin : M St (option Suspended) :=
  let* s := getSession in
  if negb (isSet (sessionId s)) || screencastStarted s then ret None
  else
    let* outcome := promised (send Page_startScreencast) in
    ret (Some (StartScreencastSent outcome)).

(** [stopScreencast()] up to [await this.send('Page.stopScreencast')]. *)
Definition stopScreencast_begin : M St (option Suspended) :=
  let* s := getSession in
  if negb (isSet (sessionId s)) || negb (screencastStarted s) then ret None
  else
    let* outcome := promised (send Page_stopScreencast) in
    ret (Some (StopScreencastSent outcome)).

(** [tryStartScreencast()] up to the same point; after its own
    [await this.startScreencast()] it has nothing left to do. *)
Definition tryStartScreencast_begin : M St (option Suspended) :=
  let* s := getSession in
  if screencastStarted s || (length (viewerClients s) =? 0)%nat then ret None
  else startScreencast_begin.

Definition tryStopScreencast_begin : M St (option Suspended) :=
  let* s := getSession in
  if negb (screencastStarted s) || (0 <? length (viewerClients s))%nat then ret None
  else stopScreencast_begin.

(** What a suspended call does once the outcome has arrived: the statements
    after [await this.send(...)] in [startScreencast] and [stopScreencast]. *)
Definition resume (x : Suspended) : M St unit :=
  match x with
  | StartScreencastSent (Return _) => update (set_screencastStarted true)
  | StartScreencastSent (Throw e) =>
      emitToViewers (browser_error ("Screencast error: " ++ messageText e))
  | StopScreencastSent (Return _) => update (set_screencastStarted false)
  | StopScreencastSent (Throw _) => ret tt
  end.

(** A call whose promise is dropped: it runs up to its [await], and what is
    left of it joins the suspended calls of the session. *)
Definition unawaited (begin : M St (option Suspended)) : M St unit :=
  let* rest := begin in
  match rest with
  | Some x => update (fun s => set_suspended (suspended s ++ [x]) s)
  | None => ret tt
  end.

(** The outcome awaited by the [i]-th suspended call arrives: the call
    resumes.  Nothing happens when there is no such call. *)
Definition settle (i : nat) : M St unit :=
  let* s := getSession in
  match suspended s !! i with
  | Some x => do update (set_suspended (delete i (suspended s))) then resume x
  | None => ret tt
  end.

Fixpoint resumeAll (xs : list Suspended) : M St unit :=
  match xs with
  | [] => ret tt
  | x :: rest => do resume x then resumeAll rest
  end.

(** Every outstanding outcome arrives, in the order the commands were
    sent. *)
Definition settleAll : M St unit :=
  let* s := getSession in
  do update (set_suspended []) then
  resumeAll (suspended s).

(** [getClientCount()] *)
Definition getClientCount (s : Session) : nat :=
  (length (viewerClients s) + length (apiClients s))%nat.

(** [addClient(client)]; the promise of [tryStartScreencast] is not awaited. *)
Definition addClient (client : Client) : M St unit :=
  match ctype client with
  | VIEWER =>
      do update (fun s => set_viewerClients (setAdd client (viewerClients s)) s) then
      unawaited tryStartScreencast_begin
  | API =>
      update (fun s => set_apiClients (setAdd client (apiClients s)) s)
  end.

(** [removeClient(client)]; the promise of [tryStopScreencast] is not
    awaited. *)
Definition removeClient (client : Client) : M St bool :=
  do (match ctype client with
      | VIEWER =>
          do update (fun s => set_viewerClients (setDelete client (viewerClients s)) s) then
          let* s := getSession in
          when (length (viewerClients s) =? 0)%nat (unawaited tryStopScreencast_begin)
      | API =>
          update (fun s => set_apiClients (setDelete client (apiClients s)) s)
      end) then
  let* s := getSession in
  ret (0 <? getClientCount s)%nat.

(** *** Attaching to a page *)

Definition payload_sessionId (p : Payload) : option string :=
  match p with P_sessionId sid => Some sid | _ => None end.

Definition payload_targetId (p : Payload) : option string :=
  match p with P_targetId tid => Some tid | _ => None end.

(** [connectToPage(targetId)] *)
Definition connectToPage (target : string) : M St unit :=
  let* s := getSession in
  match browserClient s with
  | None => throw (JsError "Browser client not connected")
  | Some t =>
      let* attached := callOn t None (Target_attachToTarget target true) in
      do update (set_sessionId (payload_sessionId attached)) then
      do update (set_targetId (Some target)) then
      do send Page_enable then
      do send Runtime_enable then
      let* tree := send Page_getFrameTree in
      do (match tree with
          | P_frameTree url => update (set_currentUrl url)
          | _ => throw (JsError "Cannot read properties of undefined (reading 'frame')")
          end) then
      do send Emulation_setDeviceMetricsOverride then
      let* s := getSession in
      when (0 <? length (viewerClients s))%nat startScreencast
  end.

(** *** Active-page election *)

Definition isPage (t : TargetInfo) : bool := String.eqb (ti_type t) "page".

Definition isNonBlankPage (t : TargetInfo) : bool :=
  isPage t && negb (String.eqb (ti_url t) "about:blank").

(** The body of the [try] block of [findActiveTarget] for one page: attach,
    enable [Runtime], evaluate [document.visibilityState], detach; the value
    of the evaluation when all four calls succeed. *)
Definition probe (t : nat) (page : TargetInfo) : M St JsVal :=
  let* attached := callOn t None (Target_attachToTarget (ti_targetId page) true) in
  let sid := payload_sessionId attached in
  do sendToSession t sid Runtime_enable then
  let* result := sendToSession t sid (Runtime_evaluate "document.visibilityState" true) in
  do callOn t None (Target_detachFromTarget sid) then
  match result with
  | P_evaluate v => ret v
  | _ => throw (JsError "Cannot read properties of undefined (reading 'value')")
  end.

(** The [for (const page of pages)] loop: the first page whose probe returns
    ["visible"]; a probe that throws is logged and skipped. *)
Fixpoint firstVisible (t : nat) (pages : list TargetInfo) : M St (option string) :=
  match pages with
  | [] => ret None
  | page :: rest =>
      let* seen := try_catch (let* v := probe t page in ret (strict_eq v (JStr "visible")))
                             (fun _ => ret false) in
      if seen : bool then ret (Some (ti_targetId page)) else firstVisible t rest
  end.

(** [findActiveTarget()]; [None] is [null]. *)
Definition findActiveTarget : M St (option string) :=
  let* s := getSession in
  match browserClient s with
  | None => ret None
  | Some t =>
      let* targets := callOn t None Target_getTargets in
      match targets with
      | P_targetInfos targetInfos =>
          let pages := List.filter isNonBlankPage targetInfos in
          let* found := firstVisible t pages in
          match found with
          | Some target => ret (Some target)
          | None =>
              match pages with
              | first :: _ => ret (Some (ti_targetId first))
              | [] =>
                  let allPages := List.filter isPage targetInfos in
                  match allPages with
                  | first :: _ => ret (Some (ti_targetId first))
                  | [] => ret None
                  end
              end
          end
      | _ => throw (JsError "Cannot read properties of undefined (reading 'filter')")
      end
  end.

(** *** Attach protocol and teardown *)

(** [emitPageList()] *)
Definition emitPageList : M St unit :=
  let* s := getSession in
  match browserClient s with
  | None => ret tt
  | Some t =>
      try_catch
        (let* targets := callOn t None Target_getTargets in
         match targets with
         | P_targetInfos targetInfos =>
             let pages := List.filter isPage targetInfos in
             let* s := getSession in
             emitToViewers (browser_pageList pages (targetId s))
         | _ => throw (JsError "Cannot read properties of undefined (reading 'filter')")
         end)
        (fun _ => ret tt)
  end.

(** The address [CDP] is asked to open for a token. *)
Definition endpoint (host port tok : string) : string :=
  "ws://" ++ host ++ ":" ++ port ++ "/browser?token=" ++ tok.

Variable END_POINT_HOST : string.
Variable END_POINT_PORT : string.

(** [CDP({ local: true, target })]: a new transport, numbered in the order
    of opening. *)
Definition openTransport (target : string) : M St nat :=
  fun st =>
    let t := opened (snd st) in
    let c := {| c_transport := t; c_session := None; c_cmd := Connect target |} in
    let st' := (fst st, bumpOpened (logCall c (snd st))) in
    match browser (calls (snd st)) c with
    | Ok _ => (Return t, st')
    | Err e => (Throw (JsError e), st')
    end.

(** [connectToBrowser(token)].  The four listeners it installs run only when
    the browser sends an event and are not part of this model. *)
Definition connectToBrowser (tok : string) : M St unit :=
  try_catch
    (do update (set_token tok) then
     let* t := openTransport (endpoint END_POINT_HOST END_POINT_PORT tok) in
     do update (set_browserClient (Some t)) then
     do callOn t None (Target_setDiscoverTargets true) then
     let* activeTargetId := findActiveTarget in
     do (if isSet activeTargetId
         then connectToPage (default "" activeTargetId)
         else
           let* created := callOn t None (Target_createTarget "about:blank") in
           connectToPage (default "" (payload_targetId created))) then
     let* s := getSession in
     do emitToViewers (browser_connected (currentUrl s) (targetId s)) then
     emitPageList)
    (fun e => emitToViewers (errorEvent e)).

(** [disconnect()] *)
Definition disconnect : M St unit :=
  let* s := getSession in
  do (match browserClient s with
      | Some t =>
          if isSet (sessionId s) then
            do try_catch
                 (do send Page_stopScreencast then
                  do callOn t None (Target_detachFromTarget (sessionId s)) then
                  ret tt)
                 (fun _ => ret tt) then
            update (set_sessionId None)
          else ret tt
      | None => ret tt
      end) then
  let* s := getSession in
  do (match browserClient s with
      | Some t =>
          do try_catch (do callOn t None Close then ret tt) (fun _ => ret tt) then
          update (set_browserClient None)
      | None => ret tt
      end) then
  do update (set_targetId None) then
  do update (set_token "") then
  do update (set_screencastStarted false) then
  do update (set_viewerClients []) then
  update (set_apiClients []).

(** *** Teardown, one [await] at a time

    [disconnect()] gives control back at each of its three [await]s, and
    another handler may run before it goes on.  [Teardown] says which
    command a suspended [disconnect()] waits for, with its outcome. *)

Inductive Teardown : Type :=
| StopAwaited (outcome : Outcome Payload)
| DetachAwaited (outcome : Outcome Payload)
| CloseAwaited (outcome : Outcome Payload).

(** The five assignments at the end of [disconnect()]. *)
Definition disconnect_reset : M St unit :=
  do update (set_targetId None) then
  do update (set_token "") then
  do update (set_screencastStarted false) then
  do update (set_viewerClients []) then
  update (set_apiClients []).

(** [disconnect()] from [if (this.browserClient)] on: up to the [await] of
    [close()], or to the end when there is no transport. *)
Definition disconnect_close : M St (option Teardown) :=
  let* s := getSession in
  match browserClient s with
  | Some t =>
      let* outcome := promised (callOn t None Close) in
      ret (Some (CloseAwaited outcome))
  | None => do disconnect_reset then ret None
  end.

(** [disconnect()] up to its first [await]. *)
Definition disconnect_begin : M St (option Teardown) :=
  let* s := getSession in
  match browserClient s with
  | Some t =>
      if isSet (sessionId s) then
        let* outcome := promised (send Page_stopScreencast) in
        ret (Some (StopAwaited outcome))
      else disconnect_close
  | None => disconnect_close
  end.

(** [disconnect()] from the [await] it was suspended at up to the next one;
    the fields are read again, as they are by then.  With the transport gone
    in the meantime, [this.browserClient.Target] throws inside the [try]. *)
Definition disconnect_resume (x : Teardown) : M St (option Teardown) :=
  match x with
  | StopAwaited (Return _) =>
      let* s := getSession in
      match browserClient s with
      | Some t =>
          let* outcome := promised (callOn t None (Target_detachFromTarget (sessionId s))) in
          ret (Some (DetachAwaited outcome))
      | None => do update (set_sessionId None) then disconnect_close
      end
  | StopAwaited (Throw _) => do update (set_sessionId None) then disconnect_close
  | DetachAwaited _ => do update (set_sessionId None) then disconnect_close
  | CloseAwaited _ =>
      do update (set_browserClient None) then
      do disconnect_reset then
      ret None
  end.

(** A suspended [disconnect()] resumed at once each time, to its end. *)
Fixpoint disconnect_finish (fuel : nat) (x : option Teardown) : M St unit :=
  match x, fuel with
  | Some x, S fuel' => let* y := disconnect_resume x in disconnect_finish fuel' y
  | _, _ => ret tt
  end.

(** *** Keyboard input *)

(** [BrowserSession.MODIFIER_KEYS]: code and key code per modifier key. *)
Definition MODIFIER_KEYS (key : string) : string * Z :=
  if String.eqb key "Control" then ("ControlLeft", 17)
  else if String.eqb key "Alt" then ("AltLeft", 18)
  else ("ShiftLeft", 16).

(** [dispatchModifierKey(type, key, modifiers)] *)
Definition dispatchModifierKey (type key : string) (modifiers : Z) : M St unit :=
  let config := MODIFIER_KEYS key in
  do send (Input_dispatchKeyEvent
             {| ke_type := type; ke_key := key; ke_code := fst config; ke_text := None;
                ke_modifiers := modifiers;
                ke_windowsVirtualKeyCode := Some (snd config);
                ke_nativeVirtualKeyCode := Some (snd config) |}) then
  ret tt.

(** The flag encoding of a pressed-modifier set. *)
Definition flagsOfPressed (pressed : gset string) : Z :=
  getModifierFlags
    {| ctrl := bool_decide ("Control" ∈ pressed);
       alt := bool_decide ("Alt" ∈ pressed);
       meta := false;
       shift := bool_decide ("Shift" ∈ pressed) |}.

(** [getCurrentModifierFlags(getModifierFlags)] *)
Definition getCurrentModifierFlags : M St Z :=
  let* s := getSession in ret (flagsOfPressed (pressedModifiers s)).

Definition hasPressed (key : string) : M St bool :=
  let* s := getSession in ret (bool_decide (key ∈ pressedModifiers s)).

Definition addPressed (key : string) : M St unit :=
  update (fun s => set_pressedModifiers ({[key]} ∪ pressedModifiers s) s).

Definition deletePressed (key : string) : M St unit :=
  update (fun s => set_pressedModifiers (pressedModifiers s ∖ {[key]}) s).

(** [key.length === 1] *)
Definition hasLengthOne (key : string) : bool :=
  match key with
  | String _ EmptyString => true
  | _ => false
  end.

(** [keyDown(key, code, modifiers)] *)
Definition keyDown (key code : string) (modifiers : KeyModifiers) : M St unit :=
  let* s := getSession in
  if negb (isSet (sessionId s)) then ret tt
  else
    try_catch
      (let* hasControl := hasPressed "Control" in
       do when ((ctrl modifiers || meta modifiers) && negb hasControl)
            (do dispatchModifierKey "keyDown" "Control" 0 then
             addPressed "Control") then
       let* hasAlt := hasPressed "Alt" in
       do when (alt modifiers && negb hasAlt)
            (let* flags := getCurrentModifierFlags in
             do dispatchModifierKey "keyDown" "Alt" flags then
             addPressed "Alt") then
       let* hasShift := hasPressed "Shift" in
       do when (shift modifiers && negb hasShift)
            (let* flags := getCurrentModifierFlags in
             do dispatchModifierKey "keyDown" "Shift" flags then
             addPressed "Shift") then
       let modifierFlags := getModifierFlags modifiers in
       do send (Input_dispatchKeyEvent
                  {| ke_type := "keyDown"; ke_key := key; ke_code := code; ke_text := None;
                     ke_modifiers := modifierFlags;
                     ke_windowsVirtualKeyCode := Some (getKeyCode key code);
                     ke_nativeVirtualKeyCode := Some (getKeyCode key code) |}) then
       if hasLengthOne key then
         do send (Input_dispatchKeyEvent
                    {| ke_type := "char"; ke_key := key; ke_code := code;
                       ke_text := Some key; ke_modifiers := modifierFlags;
                       ke_windowsVirtualKeyCode := None;
                       ke_nativeVirtualKeyCode := None |}) then
         ret tt
       else ret tt)
      (fun _ => ret tt).

(** [keyUp(key, code, modifiers)] *)
Definition keyUp (key code : string) (modifiers : KeyModifiers) : M St unit :=
  let* s := getSession in
  if negb (isSet (sessionId s)) then ret tt
  else
    try_catch
      (let modifierFlags := getModifierFlags modifiers in
       do send (Input_dispatchKeyEvent
                  {| ke_type := "keyUp"; ke_key := key; ke_code := code; ke_text := None;
                     ke_modifiers := modifierFlags;
                     ke_windowsVirtualKeyCode := Some (getKeyCode key code);
                     ke_nativeVirtualKeyCode := Some (getKeyCode key code) |}) then
       let* hasShift := hasPressed "Shift" in
       do when (negb (shift modifiers) && hasShift)
            (do deletePressed "Shift" then
             let* flags := getCurrentModifierFlags in
             dispatchModifierKey "keyUp" "Shift" flags) then
       let* hasAlt := hasPressed "Alt" in
       do when (negb (alt modifiers) && hasAlt)
            (do deletePressed "Alt" then
             let* flags := getCurrentModifierFlags in
             dispatchModifierKey "keyUp" "Alt" flags) then
       let* hasControl := hasPressed "Control" in
       when (negb (ctrl modifiers || meta modifiers) && hasControl)
         (do deletePressed "Control" then
          dispatchModifierKey "keyUp" "Control" 0))
      (fun _ => ret tt).

(** *** Click by backend node id *)

(** [content[i]] as an operand of [+]: a missing entry is [undefined], which
    turns the sum into [NaN]. *)
Definition entry (content : list JsNumber) (i : nat) : JsNumber :=
  match nth_error content i with
  | Some x => x
  | None => nan
  end.

(** [(content[i] + content[i+2] + content[i+4] + content[i+6]) / 4], in
    binary64 arithmetic, the sums taken from left to right. *)
Definition center (content : list JsNumber) (i : nat) : JsNumber :=
  ((entry content i + entry content (i + 2) + entry content (i + 4)
    + entry content (i + 6)) / 4)%float.

Definition mouseButton (type : string) (x y : JsNumber) : Command :=
  Input_dispatchMouseEvent
    {| me_type := type; me_x := x; me_y := y; me_button := "left"; me_clickCount := 1 |}.

Definition noBoxModel (backendNodeId : Z) : string :=
  "Element with backendNodeId " ++ string_of_Z backendNodeId
    ++ " not found or has no box model".

(** [click(backendNodeId)]: the [catch] logs and rethrows. *)
Definition click (backendNodeId : Z) : M St unit :=
  let* s := getSession in
  if negb (isSet (sessionId s)) then ret tt
  else
    try_catch
      (do send DOM_enable then
       let* boxModel := send (DOM_getBoxModel backendNodeId) in
       match boxModel with
       | P_boxModel (Some {| content := Some content |}) =>
           let centerX := center content 0 in
           let centerY := center content 1 in
           do send (mouseButton "mousePressed" centerX centerY) then
           do send (mouseButton "mouseReleased" centerX centerY) then
           ret tt
       | _ => throw (JsError (noBoxModel backendNodeId))
       end)
      (fun e => throw e).

End WithBrowser.

(** *** Vocabulary of the properties *)

(** [m] keeps the property [P] of the session, whether it returns or
    throws. *)
Definition preserves {A : Type} (P : Session -> Prop) (m : M St A) : Prop :=
  triple (fun st => P (fst st)) m (fun _ st => P (fst st)) (fun st => P (fst st)).

Definition connected (s : Session) : Prop :=
  is_Some (browserClient s) /\ isSet (sessionId s) = true.


Definition modifierEvent (type key : string) (modifiers : Z) : KeyEvent :=
  {| ke_type := type; ke_key := key; ke_code := fst (MODIFIER_KEYS key); ke_text := None;
     ke_modifiers := modifiers;
     ke_windowsVirtualKeyCode := Some (snd (MODIFIER_KEYS key));
     ke_nativeVirtualKeyCode := Some (snd (MODIFIER_KEYS key)) |}.

Definition requested (m : KeyModifiers) : gset string :=
  (if ctrl m || meta m then {["Control"]} else ∅)
  ∪ (if alt m then {["Alt"]} else ∅)
  ∪ (if shift m then {["Shift"]} else ∅).





Definition primaryEvent (type key code : string) (m : KeyModifiers) : KeyEvent :=
  {| ke_type := type; ke_key := key; ke_code := code; ke_text := None;
     ke_modifiers := getModifierFlags m;
     ke_windowsVirtualKeyCode := Some (getKeyCode key code);
     ke_nativeVirtualKeyCode := Some (getKeyCode key code) |}.




Inductive Op : Type :=
| OpAddClient (client : Client)
| OpRemoveClient (client : Client)
| OpConnectToPage (target : string).

Definition runOp (browser : Browser) (op : Op) (st : St) : St :=
  match op with
  | OpAddClient c => snd (addClient browser c st)
  | OpRemoveClient c => snd (removeClient browser c st)
  | OpConnectToPage target => snd (connectToPage browser target st)
  end.

(** The operations one after the other, where the outcome of every command
    that an operation sent without awaiting it arrives before the next
    operation starts. *)
Definition runOps (browser : Browser) (ops : list Op) (st : St) : St :=
  foldl (fun st op => snd (settleAll (runOp browser op st))) st ops.

Definition stopCall (s : Session) : Call :=
  {| c_transport := default 0%nat (browserClient s); c_session := sessionId s;
     c_cmd := Page_stopScreencast |}.

(** The invariant of the screencast: with [vs] the viewers, a running
    screencast has a viewer and a connected session. *)
Definition castInvS (vs : list Client) (s : Session) : Prop :=
  viewerClients s = vs /\ (screencastStarted s = true -> vs <> [] /\ connected s).

Definition runningImpliesViewer (s : Session) : Prop :=
  screencastStarted s = true -> viewerClients s <> [] /\ connected s.

(** The invariant at the points where no outcome of an un-awaited command is
    outstanding. *)
Definition settledInv (s : Session) : Prop :=
  runningImpliesViewer s /\ suspended s = [].


(** The value a computation returned, if it returned. *)
Definition valueOf {A : Type} (o : Outcome A) : option A :=
  match o with
  | Return a => Some a
  | Throw _ => None
  end.

(** A probe counts as visible when it completed and its value is the string
    ["visible"]. *)
Definition isVisible (verdict : option JsVal) : bool :=
  match verdict with
  | Some v => strict_eq v (JStr "visible")
  | None => false
  end.

(** The state in which the loop of [findActiveTarget] starts the probe that
    follows those of [pages]: the probes have run one after the other, each
    from the state the one before it left, whether it returned or threw. *)
Fixpoint afterProbes (browser : Browser) (t : nat) (pages : list TargetInfo) (st : St) : St :=
  match pages with
  | [] => st
  | page :: rest => afterProbes browser t rest (snd (probe browser t page st))
  end.

(** Whether the probe of the [i]-th page of [pages], run after the probes of
    the pages before it, completes with the value ["visible"]. *)
Definition seenVisible (browser : Browser) (t : nat) (pages : list TargetInfo) (st : St)
    (i : nat) : bool :=
  match pages !! i with
  | Some page =>
      isVisible (valueOf (fst (probe browser t page (afterProbes browser t (take i pages) st))))
  | None => false
  end.

(** The fallback of the specification: the first non-blank page; failing
    that the first page; failing that nothing. *)
Definition fallbackTarget (targetInfos : list TargetInfo) : option string :=
  match List.filter isNonBlankPage targetInfos with
  | page :: _ => Some (ti_targetId page)
  | [] =>
      match List.filter isPage targetInfos with
      | page :: _ => Some (ti_targetId page)
      | [] => None
      end
  end.

Definition browserCall (t : nat) (cmd : Command) : Call :=
  {| c_transport := t; c_session := None; c_cmd := cmd |}.

Definition sessionCall (s : Session) (cmd : Command) : Call :=
  {| c_transport := default 0%nat (browserClient s); c_session := sessionId s; c_cmd := cmd |}.

(** [boxModel.model.content] of a reply, when all three are there. *)
Definition boxContent (reply : Payload) : option (list JsNumber) :=
  match reply with
  | P_boxModel (Some m) => content m
  | _ => None
  end.


(** *** Sample browsers and sessions *)

(** A browser that answers every call: an attach with a session id made
    from the target id, the frame tree with the blank page, and every
    evaluation with ["visible"]. *)
Definition sampleBrowser : Browser :=
  fun _ c =>
    match c_cmd c with
    | Target_attachToTarget target _ => Ok (P_sessionId ("S-" ++ target))
    | Target_createTarget _ => Ok (P_targetId "P0")
    | Target_getTargets => Ok (P_targetInfos [])
    | Page_getFrameTree => Ok (P_frameTree "about:blank")
    | Runtime_evaluate _ _ => Ok (P_evaluate (JStr "visible"))
    | _ => Ok P_empty
    end.

(** The same browser, except that it rejects [Page.stopScreencast]. *)
Definition rejectStop : Browser :=
  fun h c =>
    match c_cmd c with
    | Page_stopScreencast => Err "Target closed"
    | _ => sampleBrowser h c
    end.


Definition viewer1 : Client := {| cid := 1; socketId := "socket-1"; ctype := VIEWER |}.

(** A session with an open transport and an attached page. *)
Definition attachedSession : Session :=
  set_sessionId (Some "S-P1") (set_browserClient (Some 0%nat) newSession).

Definition heldCtrlShift : Session :=
  set_pressedModifiers {["Control"; "Shift"]} attachedSession.

Definition shiftHeld : KeyModifiers :=
  {| alt := false; ctrl := false; meta := false; shift := true |}.

Definition ctrlHeld : KeyModifiers :=
  {| alt := false; ctrl := true; meta := false; shift := false |}.

Definition page (id url : string) : TargetInfo :=
  {| ti_targetId := id; ti_type := "page"; ti_url := url; ti_title := "" |}.

Definition threePages : list TargetInfo :=
  [ page "P1" "about:blank"; page "P2" "https://example.com"; page "P3" "https://foo.com" ].

(** Every page reports ["visible"], but detaching from the probe session of
    P2 is rejected. *)
Definition detachFails : Browser :=
  fun _ c =>
    match c_cmd c with
    | Target_getTargets => Ok (P_targetInfos threePages)
    | Target_attachToTarget target _ => Ok (P_sessionId ("S-" ++ target))
    | Runtime_evaluate _ _ => Ok (P_evaluate (JStr "visible"))
    | Target_detachFromTarget (Some sid) =>
        if String.eqb sid "S-P2" then Err "No session with given id" else Ok P_empty
    | _ => Ok P_empty
    end.


(** Every page reports ["visible"]. *)
Definition visibleBrowser : Browser :=
  fun h c =>
    match c_cmd c with
    | Target_getTargets => Ok (P_targetInfos threePages)
    | _ => sampleBrowser h c
    end.

(** P2 reports ["hidden"], every other page ["visible"]. *)
Definition hiddenP2 : Browser :=
  fun h c =>
    match c_cmd c, c_session c with
    | Target_getTargets, _ => Ok (P_targetInfos threePages)
    | Runtime_evaluate _ _, Some sid =>
        if String.eqb sid "S-P2" then Ok (P_evaluate (JStr "hidden"))
        else Ok (P_evaluate (JStr "visible"))
    | _, _ => sampleBrowser h c
    end.

(** No page reports ["visible"]. *)
Definition allHidden : Browser :=
  fun h c =>
    match c_cmd c with
    | Target_getTargets => Ok (P_targetInfos threePages)
    | Runtime_evaluate _ _ => Ok (P_evaluate (JStr "hidden"))
    | _ => sampleBrowser h c
    end.

(** Only the blank page exists. *)
Definition onlyBlank : Browser :=
  fun h c =>
    match c_cmd c with
    | Target_getTargets => Ok (P_targetInfos [page "P1" "about:blank"])
    | _ => sampleBrowser h c
    end.

(** A browser whose box models have an empty [content] array. *)
Definition emptyQuad : Browser :=
  fun h c =>
    match c_cmd c with
    | DOM_getBoxModel _ => Ok (P_boxModel (Some {| content := Some [] |}))
    | _ => sampleBrowser h c
    end.

(** A browser whose box models have all eight coordinates at the largest
    finite number. *)
Definition farQuad : Browser :=
  fun h c =>
    match c_cmd c with
    | DOM_getBoxModel _ =>
        Ok (P_boxModel (Some {| content := Some (List.repeat 0x1.fffffffffffffp+1023%float 8) |}))
    | _ => sampleBrowser h c
    end.

Definition quadBrowser : Browser :=
  fun h c =>
    match c_cmd c with
    | DOM_getBoxModel _ =>
        Ok (P_boxModel (Some {| content := Some [10; 20; 110; 20; 110; 60; 10; 60]%float |}))
    | _ => sampleBrowser h c
    end.


(** *** Facts *)

(** The two interfaces differ only in the value a rejection carries. *)
Lemma triple_sendToSession (browser : Browser) (P : St -> Prop) (t : nat) (sid : option string)
    (cmd : Command) (Q : Payload -> St -> Prop) (E : St -> Prop) :
  triple P (callOn browser t sid cmd) Q E -> triple P (sendToSession browser t sid cmd) Q E.
Proof.
  intros H st HP. specialize (H st HP). unfold callOn, sendToSession in *.
  destruct (browser _ _); exact H.
Qed.

Lemma hasPressed_run (key : string) (st : St) :
  hasPressed key st = (Return (bool_decide (key ∈ pressedModifiers (fst st))), st).
Proof. reflexivity. Qed.

Lemma getSession_run (st : St) : getSession st = (Return (fst st), st).
Proof. reflexivity. Qed.

Lemma update_run (f : Session -> Session) (st : St) :
  update f st = (Return tt, (f (fst st), snd st)).
Proof. reflexivity. Qed.

Lemma notifyAll_session (cs : list Client) (ev : ClientEvent) (st : St) :
  fst (notifyAll cs ev st) = Return tt /\ fst (snd (notifyAll cs ev st)) = fst st
  /\ calls (snd (snd (notifyAll cs ev st))) = calls (snd st).
Proof.
  revert st. induction cs as [|c cs IH]; intros st; [auto|].
  simpl. unfold bind, notify, modify.
  destruct (IH (match ctype c with
                | VIEWER => (fst st, logDeliveries [(c, ev)] (snd st))
                | API => st
                end)) as (H1 & H2 & H3).
  destruct (notifyAll cs ev _) as [[[]|e] st'] eqn:Hn; simpl in *; [|discriminate].
  split; [reflexivity|]. destruct (ctype c); simpl in *; split; congruence.
Qed.

Lemma emitToViewers_session (ev : ClientEvent) (st : St) :
  fst (emitToViewers ev st) = Return tt /\ fst (snd (emitToViewers ev st)) = fst st
  /\ calls (snd (snd (emitToViewers ev st))) = calls (snd st).
Proof. unfold emitToViewers, bind, getSession, gets. simpl. apply notifyAll_session. Qed.

Lemma triple_emitToViewers {A : Type} (P : Session -> Prop) (ev : ClientEvent) (E : St -> Prop) :
  triple (fun st => P (fst st)) (emitToViewers ev) (fun _ st => P (fst st)) E.
Proof.
  intros st HP. destruct (emitToViewers_session ev st) as (H1 & H2 & _).
  destruct (emitToViewers ev st) as [[[]|e] st']; simpl in *; [congruence | discriminate].
Qed.

Lemma viewerClients_setAdd_nonempty (c : Client) (l : list Client) : setAdd c l <> [].
Proof.
  unfold setAdd. destruct (bool_decide (c ∈ l)) eqn:Hc.
  - apply bool_decide_eq_true in Hc. intros ->. inversion Hc.
  - destruct l; discriminate.
Qed.


(** *** Properties of the session that a method keeps *)

Section Preserves.
Variable browser : Browser.
Variable P : Session -> Prop.

Lemma preserves_ret {A : Type} (a : A) : preserves P (@ret St A a).
Proof. intros st H. exact H. Qed.

Lemma preserves_throw {A : Type} (e : Thrown) : preserves P (@throw St A e).
Proof. intros st H. exact H. Qed.

Lemma preserves_bind {A B : Type} (m : M St A) (k : A -> M St B) :
  preserves P m -> (forall a, preserves P (k a)) -> preserves P (bind m k).
Proof. intros Hm Hk. eapply triple_bind; [exact Hm | exact Hk]. Qed.

Lemma preserves_try_catch {A : Type} (m : M St A) (handler : Thrown -> M St A) :
  preserves P m -> (forall e, preserves P (handler e)) -> preserves P (try_catch m handler).
Proof. intros Hm Hh. eapply triple_try_catch; [exact Hm | exact Hh]. Qed.

Lemma preserves_promised {A : Type} (m : M St A) : preserves P m -> preserves P (promised m).
Proof. intros Hm. eapply triple_promised; [exact Hm | auto]. Qed.

Lemma preserves_when (c : bool) (m : M St unit) : preserves P m -> preserves P (when c m).
Proof. intros Hm. destruct c; [exact Hm | apply preserves_ret]. Qed.

Lemma preserves_getSession {A : Type} (k : Session -> M St A) :
  (forall s, P s -> preserves P (k s)) -> preserves P (bind getSession k).
Proof.
  intros Hk st H. rewrite (bind_run _ _ _ _ _ (getSession_run st)). now apply Hk.
Qed.

Lemma preserves_update (f : Session -> Session) :
  (forall s, P s -> P (f s)) -> preserves P (update f).
Proof. intros Hf st H. cbn. now apply Hf. Qed.

Lemma preserves_callOn (t : nat) (sid : option string) (cmd : Command) :
  preserves P (callOn browser t sid cmd).
Proof. intros st H. unfold callOn. destruct (browser _ _); exact H. Qed.

Lemma preserves_openTransport (target : string) : preserves P (openTransport browser target).
Proof. intros st H. unfold openTransport. destruct (browser _ _); exact H. Qed.

Lemma preserves_send (cmd : Command) : preserves P (send browser cmd).
Proof.
  unfold send. apply preserves_getSession. intros s _.
  destruct (browserClient s); [|apply preserves_throw].
  destruct (isSet (sessionId s)); [|apply preserves_throw].
  apply triple_sendToSession, preserves_callOn.
Qed.

Lemma preserves_emitToViewers (ev : ClientEvent) : preserves P (emitToViewers ev).
Proof.
  intros st H. destruct (emitToViewers_session ev st) as (H1 & H2 & _).
  destruct (emitToViewers ev st) as [[[]|e] st']; cbn in *; [congruence | discriminate].
Qed.

Lemma preserves_hasPressed {A : Type} (key : string) (k : bool -> M St A) :
  (forall b, preserves P (k b)) -> preserves P (bind (hasPressed key) k).
Proof. intros Hk st H. rewrite (bind_run _ _ _ _ _ (hasPressed_run key st)). now apply Hk. Qed.

Lemma preserves_flags {A : Type} (k : Z -> M St A) :
  (forall z, preserves P (k z)) -> preserves P (bind getCurrentModifierFlags k).
Proof.
  intros Hk st H. unfold getCurrentModifierFlags.
  rewrite (bind_run _ _ (st) st (flagsOfPressed (pressedModifiers (fst st)))) by reflexivity.
  now apply Hk.
Qed.

Lemma preserves_unawaited (begin : M St (option Suspended)) :
  (forall s x, P s -> P (set_suspended (suspended s ++ [x]) s)) ->
  preserves P begin -> preserves P (unawaited begin).
Proof.
  intros Hf Hm. unfold unawaited. apply preserves_bind; [exact Hm|].
  intros [x|]; [apply preserves_update; intros s; apply Hf | apply preserves_ret].
Qed.

Lemma preserves_resume (x : Suspended) :
  (forall s b, P s -> P (set_screencastStarted b s)) -> preserves P (resume x).
Proof.
  intros Hf. destruct x as [[p|e]|[p|e]]; cbn [resume];
    first [ apply preserves_update; intros s; apply Hf
          | apply preserves_emitToViewers | apply preserves_ret ].
Qed.

Lemma preserves_resumeAll (xs : list Suspended) :
  (forall s b, P s -> P (set_screencastStarted b s)) -> preserves P (resumeAll xs).
Proof.
  intros Hf. induction xs as [|x xs IH]; cbn [resumeAll]; [apply preserves_ret|].
  apply preserves_bind; [now apply preserves_resume | intros _; exact IH].
Qed.

Lemma preserves_settle (i : nat) :
  (forall s b, P s -> P (set_screencastStarted b s)) ->
  (forall s l, P s -> P (set_suspended l s)) ->
  preserves P (settle i).
Proof.
  intros Hf Hg. unfold settle. apply preserves_getSession. intros s _.
  destruct (suspended s !! i); [|apply preserves_ret].
  apply preserves_bind; [apply preserves_update; intros x; apply Hg|].
  intros _. now apply preserves_resume.
Qed.

Lemma preserves_settleAll :
  (forall s b, P s -> P (set_screencastStarted b s)) ->
  (forall s l, P s -> P (set_suspended l s)) ->
  preserves P settleAll.
Proof.
  intros Hf Hg. unfold settleAll. apply preserves_getSession. intros s _.
  apply preserves_bind; [apply preserves_update; intros x; apply Hg|].
  intros _. now apply preserves_resumeAll.
Qed.

End Preserves.

(** One step of a preservation proof, chosen by the shape of the
    computation. *)
Ltac preserves_step :=
  lazymatch goal with
  | |- preserves _ (ret _) => apply preserves_ret
  | |- preserves _ (throw _) => apply preserves_throw
  | |- preserves _ (emitToViewers _) => apply preserves_emitToViewers
  | |- preserves _ (send _ _) => apply preserves_send
  | |- preserves _ (callOn _ _ _ _) => apply preserves_callOn
  | |- preserves _ (sendToSession _ _ _ _) => apply triple_sendToSession, preserves_callOn
  | |- preserves _ (openTransport _ _) => apply preserves_openTransport
  | |- preserves _ (promised _) => apply preserves_promised
  | |- preserves _ (when _ _) => apply preserves_when
  | |- preserves _ (try_catch _ _) =>
      apply preserves_try_catch; [|let e := fresh "e" in intros e]
  | |- preserves _ (bind getSession _) =>
      apply preserves_getSession; let s := fresh "s" in let Hs := fresh "Hs" in intros s Hs
  | |- preserves _ (bind (hasPressed _) _) =>
      apply preserves_hasPressed; let b := fresh "b" in intros b
  | |- preserves _ (bind getCurrentModifierFlags _) =>
      apply preserves_flags; let z := fresh "z" in intros z
  | |- preserves _ (bind _ _) => apply preserves_bind; [|let a := fresh "a" in intros a]
  | |- preserves _ (dispatchModifierKey _ _ _ _) => unfold dispatchModifierKey
  | |- preserves _ (addPressed _) => unfold addPressed
  | |- preserves _ (deletePressed _) => unfold deletePressed
  end.

Ltac preserves_cases :=
  match goal with
  | |- preserves _ (match ?x with _ => _ end) => destruct x eqn:?
  end.

(** Updates are left to the caller: what they need depends on [P]. *)
Ltac preserves_auto := repeat first [preserves_step | preserves_cases].

Section KeysAccepted.
Variable browser : Browser.
Hypothesis keys_accepted :
  forall (h : list Call) (t : nat) (sid : option string) (ev : KeyEvent),
    exists p, browser h {| c_transport := t; c_session := sid;
                           c_cmd := Input_dispatchKeyEvent ev |} = Ok p.




















End KeysAccepted.


Lemma attachedSession_connected : connected attachedSession.
Proof. split; [exists 0%nat; reflexivity | reflexivity]. Qed.



(** C2 fails on the code.  With Control and Shift pressed, [keyUp] of a key
    whose modifiers still have [shift] set releases Control only: the
    synthetic release carries [modifiers = 0], although the pressed set after
    that release is [{Shift}], whose encoding is 8. *)
Theorem keyUp_control_release_flags :
  let st := snd (keyUp sampleBrowser "a" "KeyA" shiftHeld (heldCtrlShift, emptyWorld)) in
  c_cmd <$> calls (snd st)
  = [ Input_dispatchKeyEvent (primaryEvent "keyUp" "a" "KeyA" shiftHeld);
      Input_dispatchKeyEvent (modifierEvent "keyUp" "Control" 0) ]
  /\ pressedModifiers (fst st) = {["Shift"]}
  /\ flagsOfPressed (pressedModifiers (fst st)) = 8.
Proof. vm_compute. repeat split. Qed.

(** The releases of Shift and Alt, by contrast, carry the encoding of the
    set as it stands after the release. *)
Example keyUp_shift_release_flags :
  let st := snd (keyUp sampleBrowser "a" "KeyA" ctrlHeld (heldCtrlShift, emptyWorld)) in
  c_cmd <$> calls (snd st)
  = [ Input_dispatchKeyEvent (primaryEvent "keyUp" "a" "KeyA" ctrlHeld);
      Input_dispatchKeyEvent (modifierEvent "keyUp" "Shift" 2) ]
  /\ pressedModifiers (fst st) = {["Control"]}
  /\ flagsOfPressed (pressedModifiers (fst st)) = 2.
Proof. vm_compute. repeat split. Qed.

Section Screencast.
Variable browser : Browser.

Lemma triple_callOn (P : Session -> Prop) (t : nat) (sid : option string) (cmd : Command) :
  triple (fun st => P (fst st)) (callOn browser t sid cmd)
    (fun p st => P (fst st)
                 /\ exists h, browser h {| c_transport := t; c_session := sid; c_cmd := cmd |} = Ok p)
    (fun st => P (fst st)).
Proof.
  intros st HP. unfold callOn.
  destruct (browser (calls (snd st)) _) as [p|e] eqn:Hb; simpl; eauto.
Qed.

Lemma triple_send (P : Session -> Prop) (cmd : Command) :
  triple (fun st => P (fst st)) (send browser cmd)
    (fun p st => P (fst st) /\ connected (fst st))
    (fun st => P (fst st)).
Proof.
  intros [s w] HP. unfold send, bind, getSession, gets. simpl in *.
  destruct (browserClient s) as [t|] eqn:Ht; [|exact HP].
  destruct (isSet (sessionId s)) eqn:Hs; [|exact HP].
  unfold sendToSession. simpl.
  destruct (browser (calls w) _) as [p|e]; simpl; [|exact HP].
  split; [exact HP|]. split; [rewrite Ht; eauto | exact Hs].
Qed.

Lemma startScreencast_keeps (vs : list Client) :
  vs <> [] ->
  triple (fun st => castInvS vs (fst st)) (startScreencast browser)
    (fun _ st => castInvS vs (fst st)) (fun st => castInvS vs (fst st)).
Proof.
  intros Hvs. unfold startScreencast.
  eapply triple_bind; [apply triple_gets|]. intros s. cbv beta.
  destruct (negb (isSet (sessionId s)) || screencastStarted s).
  { intros st [H _]. exact H. }
  eapply triple_try_catch with (E1 := fun st => castInvS vs (fst st)).
  - eapply triple_bind.
    + eapply triple_weaken; [apply (triple_send (castInvS vs)) | | |]; cbv beta.
      * intros st [H _]. exact H.
      * intros p st H. exact H.
      * intros st H. exact H.
    + intros p [s1 w1] [[Hv Hi] Hc]. simpl in *. split; [exact Hv|]. intros _. auto.
  - intros e. apply (triple_emitToViewers (A := unit) (castInvS vs)).
Qed.

Hypothesis stop_acknowledged :
  forall (h : list Call) (t : nat) (sid : option string),
    exists p, browser h {| c_transport := t; c_session := sid; c_cmd := Page_stopScreencast |} = Ok p.

Hypothesis attach_well_formed :
  forall (h : list Call) (t : nat) (target : string) (flatten : bool) (p : Payload),
    browser h {| c_transport := t; c_session := None;
                 c_cmd := Target_attachToTarget target flatten |} = Ok p ->
    exists sid, p = P_sessionId sid /\ sid <> "".

(** What [stopScreencast] does from a state with the screencast running on a
    connected session. *)
Lemma stopScreencast_run (s : Session) (w : World) :
  screencastStarted s = true -> connected s ->
  stopScreencast browser (s, w)
  = (Return tt, (set_screencastStarted false s, logCall (stopCall s) w)).
Proof.
  intros Hst [[t Ht] Hsid]. unfold stopScreencast, bind, getSession, gets. simpl.
  rewrite Hsid, Hst. simpl. unfold try_catch, bind, send, bind, getSession, gets. simpl.
  rewrite Ht, Hsid. unfold sendToSession, stopCall. simpl. rewrite Ht. simpl.
  destruct (stop_acknowledged (calls w) t (sessionId s)) as [p ->]. reflexivity.
Qed.

Lemma stopScreencast_idle (s : Session) (w : World) :
  screencastStarted s = false -> stopScreencast browser (s, w) = (Return tt, (s, w)).
Proof.
  intros Hst. unfold stopScreencast, bind, getSession, gets. simpl.
  rewrite Hst. now rewrite orb_true_r.
Qed.

Ltac same_state :=
  cbv beta;
  first [ let a := fresh in let st := fresh in let H := fresh in intros a st H; exact H
        | let st := fresh in let H := fresh in intros st H; exact H ].

Lemma triple_update (P : Session -> Prop) (f : Session -> Session) (E : St -> Prop) :
  triple (fun st => P (f (fst st))) (update f) (fun _ st => P (fst st)) E.
Proof. intros st H. exact H. Qed.

Lemma connectToPage_keeps (vs : list Client) (target : string) :
  triple (fun st => castInvS vs (fst st)) (connectToPage browser target)
    (fun _ st => castInvS vs (fst st)) (fun st => castInvS vs (fst st)).
Proof.
  unfold connectToPage.
  eapply triple_bind; [apply triple_gets|]. intros s. cbv beta.
  destruct (browserClient s) as [t|] eqn:Ht.
  2:{ intros st [H _]. exact H. }
  eapply triple_bind.
  { eapply triple_weaken;
      [apply (triple_callOn (fun s' => castInvS vs s' /\ browserClient s' = Some t)) | | |].
    - intros st [H ->]. auto.
    - same_state.
    - cbv beta. intros st [H _]. exact H. }
  intros attached. cbv beta.
  eapply triple_bind.
  { eapply triple_weaken;
      [apply (triple_update (fun s' => castInvS vs s' /\ connected s')) | | |].
    - intros [s1 w1] [[[Hv Hi] Hb] [h Hreply]]. simpl in *.
      apply attach_well_formed in Hreply as (sid & -> & Hsid). simpl.
      assert (Hc : connected (set_sessionId (Some sid) s1)).
      { split; simpl; [rewrite Hb; eauto|]. now apply negb_true_iff, String.eqb_neq. }
      split; [|exact Hc]. split; [exact Hv|]. intros Hs. split; [|exact Hc]. now apply Hi.
    - same_state.
    - cbv beta. intros st H. exact H. }
  intros ?. cbv beta.
  assert (Hsend : forall cmd,
             triple (fun st => castInvS vs (fst st) /\ connected (fst st)) (send browser cmd)
               (fun _ st => castInvS vs (fst st) /\ connected (fst st))
               (fun st => castInvS vs (fst st))).
  { intros cmd. eapply triple_weaken;
      [apply (triple_send (fun s' => castInvS vs s' /\ connected s')) | | |]; cbv beta.
    - auto.
    - intros p st [H _]. exact H.
    - intros st [H _]. exact H. }
  eapply triple_bind.
  { eapply triple_weaken;
      [apply (triple_update (fun s' => castInvS vs s' /\ connected s')) | | |].
    - intros [s1 w1] H. exact H.
    - same_state.
    - cbv beta. intros st H. exact H. }
  intros ?. eapply triple_bind; [apply Hsend|]. intros ?.
  eapply triple_bind; [apply Hsend|]. intros ?.
  eapply triple_bind; [apply Hsend|]. intros tree.
  eapply triple_bind.
  { instantiate (1 := fun _ st => castInvS vs (fst st) /\ connected (fst st)).
    destruct tree; try (intros st [H _]; exact H).
    intros [s1 w1] H. exact H. }
  intros ?. eapply triple_bind; [apply Hsend|]. intros ?.
  eapply triple_bind; [apply triple_gets|]. intros s2. cbv beta.
  apply triple_when.
  - intros Hlen. apply triple_pre. intros st [[[Hv Hi] Hc] ->].
    assert (Hvs : vs <> []).
    { intros ->. rewrite Hv in Hlen. discriminate. }
    eapply triple_weaken; [apply (startScreencast_keeps vs Hvs) | | |]; cbv beta.
    + intros st' ->. split; assumption.
    + same_state.
    + intros st' H. exact H.
  - intros _ st [[H _] _]. exact H.
Qed.

(** *** The calls that are not awaited, once their outcome has arrived *)

(** [startScreencast] is its beginning followed by its rest. *)
Lemma startScreencast_split (st : St) :
  startScreencast browser st
  = bind (startScreencast_begin browser)
      (fun rest => match rest with Some x => resume x | None => ret tt end) st.
Proof.
  unfold startScreencast, startScreencast_begin.
  rewrite bind_assoc, !(bind_run _ _ _ _ _ (getSession_run st)).
  destruct (negb _ || _); [reflexivity|].
  unfold try_catch, bind, promised.
  destruct (send browser Page_startScreencast st) as [[p|e] st']; reflexivity.
Qed.

Lemma stopScreencast_split (st : St) :
  stopScreencast browser st
  = bind (stopScreencast_begin browser)
      (fun rest => match rest with Some x => resume x | None => ret tt end) st.
Proof.
  unfold stopScreencast, stopScreencast_begin.
  rewrite bind_assoc, !(bind_run _ _ _ _ _ (getSession_run st)).
  destruct (negb _ || _); [reflexivity|].
  unfold try_catch, bind, promised.
  destruct (send browser Page_stopScreencast st) as [[p|e] st']; reflexivity.
Qed.

Lemma tryStartScreencast_split (st : St) :
  tryStartScreencast browser st
  = bind (tryStartScreencast_begin browser)
      (fun rest => match rest with Some x => resume x | None => ret tt end) st.
Proof.
  unfold tryStartScreencast, tryStartScreencast_begin.
  rewrite bind_assoc, !(bind_run _ _ _ _ _ (getSession_run st)).
  destruct (_ || _); [reflexivity | apply startScreencast_split].
Qed.

Lemma tryStopScreencast_split (st : St) :
  tryStopScreencast browser st
  = bind (tryStopScreencast_begin browser)
      (fun rest => match rest with Some x => resume x | None => ret tt end) st.
Proof.
  unfold tryStopScreencast, tryStopScreencast_begin.
  rewrite bind_assoc, !(bind_run _ _ _ _ _ (getSession_run st)).
  destruct (_ || _); [reflexivity | apply stopScreencast_split].
Qed.

Lemma set_suspended_same (s : Session) : set_suspended (suspended s) s = s.
Proof. now destruct s. Qed.

Lemma settleAll_idle (st : St) : suspended (fst st) = [] -> settleAll st = (Return tt, st).
Proof.
  destruct st as [s w]. cbn [fst]. intros Hs. unfold settleAll.
  rewrite (bind_run _ _ _ _ _ (getSession_run (s, w))). cbn [fst]. rewrite Hs.
  unfold bind, update, modify. cbn. rewrite <- Hs at 1. now rewrite set_suspended_same.
Qed.

Lemma settleAll_quiescent (st : St) : suspended (fst (snd (settleAll st))) = [].
Proof.
  unfold settleAll. rewrite (bind_run _ _ _ _ _ (getSession_run st)).
  rewrite (bind_run _ _ _ _ _ (update_run _ st)).
  pose proof (preserves_resumeAll (fun s => suspended s = []) (suspended (fst st))
                (fun s b H => H) (set_suspended [] (fst st), snd st) eq_refl) as H.
  destruct (resumeAll _ _) as [[a|e] st']; exact H.
Qed.

(** With nothing else outstanding, an un-awaited call followed by the
    arrival of its outcome does what the awaited call does. *)
Lemma unawaited_settled (begin : M St (option Suspended)) (st : St) :
  suspended (fst st) = [] ->
  preserves (fun s => suspended s = []) begin ->
  snd (settleAll (snd (unawaited begin st)))
  = snd (bind begin (fun rest => match rest with Some x => resume x | None => ret tt end) st).
Proof.
  intros Hs Hb. specialize (Hb st Hs). unfold unawaited, bind.
  destruct (begin st) as [[[x|]|e] [s1 w1]]; cbn [fst snd] in *.
  - unfold settleAll, update, modify, bind, getSession, gets, ret. cbn [fst snd].
    rewrite Hb. cbn [app suspended set_suspended resumeAll].
    change (set_suspended [] (set_suspended [x] s1)) with (set_suspended [] s1).
    rewrite <- Hb at 1. rewrite set_suspended_same. unfold bind, ret.
    destruct (resume x (s1, w1)) as [[[]|e] st']; reflexivity.
  - now rewrite settleAll_idle.
  - now rewrite settleAll_idle.
Qed.

Lemma begin_keeps_suspended (l : list Suspended) :
  preserves (fun s => suspended s = l) (tryStartScreencast_begin browser)
  /\ preserves (fun s => suspended s = l) (tryStopScreencast_begin browser).
Proof.
  split; unfold tryStartScreencast_begin, tryStopScreencast_begin, startScreencast_begin,
    stopScreencast_begin; preserves_auto.
Qed.

Lemma tryStartScreencast_settled (st : St) :
  suspended (fst st) = [] ->
  snd (settleAll (snd (unawaited (tryStartScreencast_begin browser) st)))
  = snd (tryStartScreencast browser st).
Proof.
  intros Hs. rewrite tryStartScreencast_split.
  apply unawaited_settled; [exact Hs | apply begin_keeps_suspended].
Qed.

Lemma tryStopScreencast_settled (st : St) :
  suspended (fst st) = [] ->
  snd (settleAll (snd (unawaited (tryStopScreencast_begin browser) st)))
  = snd (tryStopScreencast browser st).
Proof.
  intros Hs. rewrite tryStopScreencast_split.
  apply unawaited_settled; [exact Hs | apply begin_keeps_suspended].
Qed.

Lemma tryStartScreencast_keeps (vs : list Client) (st : St) :
  vs <> [] -> castInvS vs (fst st) ->
  castInvS vs (fst (snd (tryStartScreencast browser st))).
Proof.
  intros Hvs Hinv.
  assert (H : triple (fun st' => castInvS vs (fst st')) (tryStartScreencast browser)
                (fun _ st' => castInvS vs (fst st')) (fun st' => castInvS vs (fst st'))).
  { unfold tryStartScreencast.
    eapply triple_bind; [apply triple_gets|]. intros s. cbv beta.
    destruct (_ || _).
    - intros st' [H _]. exact H.
    - eapply triple_weaken; [apply (startScreencast_keeps vs Hvs) | | |]; cbv beta.
      + intros st' [H _]. exact H.
      + same_state.
      + intros st' H. exact H. }
  specialize (H st Hinv). destruct (tryStartScreencast browser st) as [[a|e] st']; exact H.
Qed.

Lemma addClient_keeps (c : Client) (st : St) :
  settledInv (fst st) ->
  settledInv (fst (snd (settleAll (snd (addClient browser c st))))).
Proof.
  intros [Hinv Hs]. split; [|apply settleAll_quiescent].
  unfold addClient. destruct (ctype c).
  - rewrite (bind_run _ _ _ _ _ (update_run _ st)).
    rewrite tryStartScreencast_settled by exact Hs.
    set (vs := setAdd c (viewerClients (fst st))).
    assert (Hvs : vs <> []) by apply viewerClients_setAdd_nonempty.
    destruct (tryStartScreencast_keeps vs
                (set_viewerClients vs (fst st), snd st) Hvs) as [Hv Hi].
    { split; [reflexivity|]. intros Hst. split; [exact Hvs|]. now apply Hinv. }
    unfold runningImpliesViewer. rewrite Hv. exact Hi.
  - rewrite settleAll_idle by exact Hs. destruct st as [s w]. exact Hinv.
Qed.

Lemma tryStopScreencast_run (s : Session) (w : World) :
  viewerClients s = [] -> (screencastStarted s = true -> connected s) ->
  tryStopScreencast browser (s, w)
  = (Return tt,
     if screencastStarted s
     then (set_screencastStarted false s, logCall (stopCall s) w)
     else (s, w)).
Proof.
  intros Hv Hc. unfold tryStopScreencast.
  rewrite (bind_run _ _ _ _ _ (getSession_run (s, w))). cbn [fst].
  rewrite Hv. cbn [length Nat.ltb Nat.leb]. rewrite orb_false_r.
  destruct (screencastStarted s) eqn:Hst; cbn [negb]; [|reflexivity].
  apply stopScreencast_run; auto.
Qed.

(** What [tryStopScreencast()] has done when its caller gets control back,
    on a session without viewers: the command is on its way and the flag is
    untouched. *)
Lemma tryStopScreencast_begin_run (s : Session) (w : World) :
  viewerClients s = [] -> (screencastStarted s = true -> connected s) ->
  exists p,
    tryStopScreencast_begin browser (s, w)
    = if screencastStarted s
      then (Return (Some (StopScreencastSent (Return p))), (s, logCall (stopCall s) w))
      else (Return None, (s, w)).
Proof.
  intros Hv Hc. unfold tryStopScreencast_begin.
  rewrite (bind_run _ _ _ _ _ (getSession_run (s, w))). cbn [fst].
  rewrite Hv. cbn [length Nat.ltb Nat.leb]. rewrite orb_false_r.
  destruct (screencastStarted s) eqn:Hst; cbn [negb]; [|now exists P_empty].
  destruct (Hc eq_refl) as [[t Ht] Hsid]. unfold stopScreencast_begin.
  rewrite (bind_run _ _ _ _ _ (getSession_run (s, w))). cbn [fst].
  rewrite Hsid, Hst. cbn [negb orb].
  unfold bind, promised, send, bind, getSession, gets. cbn [fst snd].
  rewrite Ht, Hsid. unfold sendToSession, stopCall. cbn [fst snd]. rewrite Ht. cbn [default].
  destruct (stop_acknowledged (calls w) t (sessionId s)) as [p ->]. now exists p.
Qed.

(** [removeClient] of the last viewer, when it returns. *)
Lemma removeClient_last_viewer (c : Client) (s : Session) (w : World) :
  ctype c = VIEWER -> setDelete c (viewerClients s) = [] -> runningImpliesViewer s ->
  exists p,
    removeClient browser c (s, w)
    = (Return (0 <? length (apiClients s))%nat,
       if screencastStarted s
       then (set_suspended (suspended s ++ [StopScreencastSent (Return p)])
               (set_viewerClients [] s),
             logCall (stopCall s) w)
       else (set_viewerClients [] s, w)).
Proof.
  intros Hty Hdel Hinv. unfold removeClient. rewrite Hty.
  destruct (tryStopScreencast_begin_run (set_viewerClients [] s) w eq_refl
              (fun H => proj2 (Hinv H))) as [p Hbegin].
  exists p.
  assert (Hinner :
    bind (update (fun s0 => set_viewerClients (setDelete c (viewerClients s0)) s0))
      (fun _ => bind getSession (fun s0 =>
         when (length (viewerClients s0) =? 0)%nat
           (unawaited (tryStopScreencast_begin browser))))
      (s, w)
    = (Return tt,
       if screencastStarted s
       then (set_suspended (suspended s ++ [StopScreencastSent (Return p)])
               (set_viewerClients [] s),
             logCall (stopCall s) w)
       else (set_viewerClients [] s, w))).
  { rewrite (bind_run _ _ _ _ _ (update_run _ (s, w))). cbn [fst snd]. rewrite Hdel.
    rewrite (bind_run _ _ _ _ _ (getSession_run _)).
    cbn [fst viewerClients set_viewerClients length Nat.eqb when].
    unfold unawaited, bind. rewrite Hbegin.
    cbn [screencastStarted set_viewerClients].
    destruct (screencastStarted s); reflexivity. }
  rewrite (bind_run _ _ _ _ _ Hinner).
  rewrite (bind_run _ _ _ _ _ (getSession_run _)).
  destruct (screencastStarted s); reflexivity.
Qed.

Lemma removeClient_keeps (c : Client) (st : St) :
  settledInv (fst st) ->
  settledInv (fst (snd (settleAll (snd (removeClient browser c st))))).
Proof.
  destruct st as [s w]. cbn [fst]. intros [Hinv Hs]. split; [|apply settleAll_quiescent].
  destruct (ctype c) eqn:Hty.
  - destruct (setDelete c (viewerClients s)) as [|v vs] eqn:Hdel.
    + destruct (removeClient_last_viewer c s w Hty Hdel Hinv) as [p ->]. cbn [snd].
      rewrite Hs. destruct (screencastStarted s) eqn:Hst.
      * unfold settleAll, bind, getSession, gets, update, modify, ret. cbn.
        intros H. discriminate H.
      * rewrite settleAll_idle by exact Hs. intros H. cbn in H. congruence.
    + unfold removeClient. rewrite Hty.
      unfold bind, update, modify, getSession, gets, when. cbn [fst snd].
      rewrite Hdel. cbn [viewerClients set_viewerClients length Nat.eqb ret fst snd].
      rewrite settleAll_idle by exact Hs.
      intros H. split; [discriminate|]. now apply Hinv.
  - unfold removeClient. rewrite Hty.
    unfold bind, update, modify, getSession, gets, ret. cbn [fst snd].
    rewrite settleAll_idle by exact Hs. exact Hinv.
Qed.

Lemma connectToPage_keeps_suspended (l : list Suspended) (target : string) :
  preserves (fun s => suspended s = l) (connectToPage browser target).
Proof.
  unfold connectToPage, startScreencast.
  repeat first [ preserves_step | preserves_cases
               | apply preserves_update; let H := fresh in intros ? H; exact H ].
Qed.

Lemma connectToPage_keeps_running (target : string) (st : St) :
  settledInv (fst st) ->
  settledInv (fst (snd (settleAll (snd (connectToPage browser target st))))).
Proof.
  intros [Hinv Hs].
  pose proof (connectToPage_keeps (viewerClients (fst st)) target st) as H.
  pose proof (connectToPage_keeps_suspended [] target st Hs) as Hs'.
  assert (Hpre : castInvS (viewerClients (fst st)) (fst st)) by (split; [reflexivity | exact Hinv]).
  specialize (H Hpre).
  destruct (connectToPage browser target st) as [[a|e] st']; cbn [fst snd] in *;
    rewrite settleAll_idle by exact Hs'; cbn [fst snd]; (split; [|exact Hs']);
    destruct H as [Hv Hi]; unfold runningImpliesViewer; rewrite Hv; exact Hi.
Qed.

Lemma runOps_keeps (ops : list Op) (st : St) :
  settledInv (fst st) -> settledInv (fst (runOps browser ops st)).
Proof.
  revert st. induction ops as [|op ops IH]; intros st Hinv; [exact Hinv|].
  cbn. apply IH. destruct op; cbn [runOp].
  - apply addClient_keeps. exact Hinv.
  - apply removeClient_keeps. exact Hinv.
  - apply connectToPage_keeps_running. exact Hinv.
Qed.

(** C1, as amended.  With a browser that acknowledges [Page.stopScreencast]
    and answers an attach with a non-empty session id, in every state reached
    by addClient, removeClient and connectToPage operations that do not
    overlap (connectToPage completes before the next operation starts), where
    the outcome of every command that an operation sent without awaiting it
    arrives before the next operation starts, a running screencast has a
    viewer.  When a removeClient that removes the last viewer returns,
    [Page.stopScreencast] has been sent if, and only if, the screencast was
    running, and [screencastStarted] is unchanged: it is still set if the
    screencast was running.  It is cleared once the outcome of the command
    has arrived. *)
Theorem screencast_follows_viewers (transport : option nat) (w0 : World) (ops : list Op) :
  let st := runOps browser ops (set_browserClient transport newSession, w0) in
  (screencastStarted (fst st) = true -> viewerClients (fst st) <> [])
  /\ forall c : Client,
       ctype c = VIEWER -> setDelete c (viewerClients (fst st)) = [] ->
       let returned := snd (removeClient browser c st) in
       let arrived := snd (settleAll returned) in
       viewerClients (fst returned) = []
       /\ screencastStarted (fst returned) = screencastStarted (fst st)
       /\ calls (snd returned)
          = (calls (snd st)
             ++ (if screencastStarted (fst st) then [stopCall (fst st)] else []))%list
       /\ viewerClients (fst arrived) = []
       /\ screencastStarted (fst arrived) = false
       /\ calls (snd arrived) = calls (snd returned).
Proof.
  cbv zeta.
  assert (Hinv : settledInv
                   (fst (runOps browser ops (set_browserClient transport newSession, w0)))).
  { apply runOps_keeps. split; [intros H; discriminate H | reflexivity]. }
  destruct Hinv as [Hinv Hs].
  split; [intros H; now apply Hinv|].
  intros c Hty Hdel.
  destruct (runOps browser ops _) as [s w]. cbn [fst snd] in *.
  destruct (removeClient_last_viewer c s w Hty Hdel Hinv) as [p ->]. cbn [snd].
  rewrite Hs. destruct (screencastStarted s) eqn:Hst.
  - unfold settleAll, bind, getSession, gets, update, modify, ret. cbn.
    repeat split; auto.
  - rewrite settleAll_idle by exact Hs. cbn. rewrite app_nil_r. repeat split; auto.
Qed.
End Screencast.

Lemma sampleBrowser_acknowledges_stop :
  forall (h : list Call) (t : nat) (sid : option string),
    exists p, sampleBrowser h {| c_transport := t; c_session := sid;
                                 c_cmd := Page_stopScreencast |} = Ok p.
Proof. intros h t sid. exists P_empty. reflexivity. Qed.

Lemma sampleBrowser_attach_well_formed :
  forall (h : list Call) (t : nat) (target : string) (flatten : bool) (p : Payload),
    sampleBrowser h {| c_transport := t; c_session := None;
                       c_cmd := Target_attachToTarget target flatten |} = Ok p ->
    exists sid, p = P_sessionId sid /\ sid <> "".
Proof.
  intros h t target flatten p [= <-]. exists ("S-" ++ target). split; [reflexivity|].
  discriminate.
Qed.

Lemma screencast_follows_viewers_witness :
  let st := runOps sampleBrowser [OpAddClient viewer1; OpConnectToPage "P1"]
              (set_browserClient (Some 0%nat) newSession, emptyWorld) in
  (screencastStarted (fst st) = true -> viewerClients (fst st) <> [])
  /\ forall c : Client,
       ctype c = VIEWER -> setDelete c (viewerClients (fst st)) = [] ->
       let returned := snd (removeClient sampleBrowser c st) in
       let arrived := snd (settleAll returned) in
       viewerClients (fst returned) = []
       /\ screencastStarted (fst returned) = screencastStarted (fst st)
       /\ calls (snd returned)
          = (calls (snd st)
             ++ (if screencastStarted (fst st) then [stopCall (fst st)] else []))%list
       /\ viewerClients (fst arrived) = []
       /\ screencastStarted (fst arrived) = false
       /\ calls (snd arrived) = calls (snd returned).
Proof.
  exact (screencast_follows_viewers sampleBrowser sampleBrowser_acknowledges_stop
           sampleBrowser_attach_well_formed (Some 0%nat) emptyWorld
           [OpAddClient viewer1; OpConnectToPage "P1"]).
Defined.

(** C1 as stated fails.  When the [removeClient] that removes the last
    viewer of a running screencast returns, [Page.stopScreencast] has been
    sent but [screencastStarted] is still set, with no viewer left: the flag
    is cleared by the rest of the un-awaited [tryStopScreencast()], which
    runs when the outcome arrives, and not at all when the browser rejects
    the command.  Removing the last viewer of a session whose screencast is
    not running sends nothing.  And a viewer that is removed before the
    outcome of the [Page.startScreencast] sent for it has arrived leaves the
    screencast running without a viewer for good: nothing is outstanding
    any more. *)
Lemma screencast_claim_fails :
  (let st := runOps sampleBrowser [OpAddClient viewer1; OpConnectToPage "P1"]
               (set_browserClient (Some 0%nat) newSession, emptyWorld) in
   let returned := snd (removeClient sampleBrowser viewer1 st) in
   viewerClients (fst returned) = [] /\ screencastStarted (fst returned) = true
   /\ last (calls (snd returned))
      = Some {| c_transport := 0; c_session := Some "S-P1"; c_cmd := Page_stopScreencast |})
  /\ (let st := runOps rejectStop [OpAddClient viewer1; OpConnectToPage "P1"]
                  (set_browserClient (Some 0%nat) newSession, emptyWorld) in
      let arrived := snd (settleAll (snd (removeClient rejectStop viewer1 st))) in
      viewerClients (fst arrived) = [] /\ screencastStarted (fst arrived) = true
      /\ suspended (fst arrived) = [])
  /\ (let st := runOps sampleBrowser [OpAddClient viewer1; OpRemoveClient viewer1]
                  (set_browserClient (Some 0%nat) newSession, emptyWorld) in
      viewerClients (fst st) = [] /\ calls (snd st) = [])
  /\ (let st := runOps sampleBrowser [OpConnectToPage "P1"]
                  (set_browserClient (Some 0%nat) newSession, emptyWorld) in
      let added := snd (addClient sampleBrowser viewer1 st) in
      let removed := snd (removeClient sampleBrowser viewer1 added) in
      let arrived := snd (settleAll removed) in
      viewerClients (fst arrived) = [] /\ screencastStarted (fst arrived) = true
      /\ suspended (fst arrived) = []
      /\ Page_stopScreencast ∉ (c_cmd <$> calls (snd arrived))).
Proof.
  vm_compute. repeat split; try reflexivity.
  intros H. repeat (apply elem_of_cons in H as [H|H]; [discriminate H|]). inversion H.
Qed.

Section Election.
Variable browser : Browser.
Variable t : nat.

(** One round of the loop: the probe runs, and its state is kept whether it
    returned or threw. *)
Lemma firstVisible_cons (page : TargetInfo) (rest : list TargetInfo) (st : St) :
  firstVisible browser t (page :: rest) st
  = if isVisible (valueOf (fst (probe browser t page st)))
    then (Return (Some (ti_targetId page)), snd (probe browser t page st))
    else firstVisible browser t rest (snd (probe browser t page st)).
Proof.
  cbn [firstVisible]. unfold bind at 1, try_catch, bind at 1.
  destruct (probe browser t page st) as [[v|e] st']; cbn [fst snd valueOf isVisible ret].
  - destruct (strict_eq v (JStr "visible")); reflexivity.
  - reflexivity.
Qed.

Lemma seenVisible_head (page : TargetInfo) (rest : list TargetInfo) (st : St) :
  seenVisible browser t (page :: rest) st 0 = isVisible (valueOf (fst (probe browser t page st))).
Proof. reflexivity. Qed.

Lemma seenVisible_tail (page : TargetInfo) (rest : list TargetInfo) (st : St) (i : nat) :
  seenVisible browser t (page :: rest) st (S i)
  = seenVisible browser t rest (snd (probe browser t page st)) i.
Proof. reflexivity. Qed.

Lemma firstVisible_first (pages : list TargetInfo) :
  forall (st : St) (i : nat) (page : TargetInfo),
    pages !! i = Some page ->
    seenVisible browser t pages st i = true ->
    (forall j, (j < i)%nat -> seenVisible browser t pages st j = false) ->
    fst (firstVisible browser t pages st) = Return (Some (ti_targetId page)).
Proof.
  induction pages as [|first rest IH]; intros st i page Hi Hseen Hearlier; [discriminate|].
  rewrite firstVisible_cons. destruct i as [|i].
  - injection Hi as ->. rewrite seenVisible_head in Hseen. rewrite Hseen. reflexivity.
  - pose proof (Hearlier 0%nat (Nat.lt_0_succ i)) as H0. rewrite seenVisible_head in H0.
    rewrite H0. apply (IH _ i); [exact Hi | rewrite <- seenVisible_tail; exact Hseen |].
    intros j Hj. rewrite <- seenVisible_tail. apply Hearlier. lia.
Qed.

Lemma firstVisible_none (pages : list TargetInfo) :
  forall st : St,
    (forall i, seenVisible browser t pages st i = false) ->
    fst (firstVisible browser t pages st) = Return None.
Proof.
  induction pages as [|first rest IH]; intros st Hnone; [reflexivity|].
  rewrite firstVisible_cons. pose proof (Hnone 0%nat) as H0. rewrite seenVisible_head in H0.
  rewrite H0. apply IH. intros i. rewrite <- seenVisible_tail. apply Hnone.
Qed.

(** C6, as amended.  On a session with a transport whose [Target.getTargets]
    call is answered with a target list, the probes of the non-blank pages
    (attach, enable Runtime, evaluate [document.visibilityState], detach) run
    in list order, each after the ones before it.  If the probe of a page
    completes with the value ["visible"] and no earlier probe did,
    [findActiveTarget] returns that page; if no probe completes with
    ["visible"], it returns the first non-blank page; failing that the first
    page; failing that [null]. *)
Theorem findActiveTarget_elects (s : Session) (w : World) (targetInfos : list TargetInfo) :
  browserClient s = Some t ->
  browser (calls w) (browserCall t Target_getTargets) = Ok (P_targetInfos targetInfos) ->
  let pages := List.filter isNonBlankPage targetInfos in
  let st := (s, logCall (browserCall t Target_getTargets) w) in
  (forall (i : nat) (page : TargetInfo),
      pages !! i = Some page ->
      seenVisible browser t pages st i = true ->
      (forall j, (j < i)%nat -> seenVisible browser t pages st j = false) ->
      fst (findActiveTarget browser (s, w)) = Return (Some (ti_targetId page)))
  /\ ((forall i, seenVisible browser t pages st i = false) ->
      fst (findActiveTarget browser (s, w)) = Return (fallbackTarget targetInfos)).
Proof.
  intros Ht Hreply pages st.
  assert (Hrun : fst (findActiveTarget browser (s, w))
                 = match fst (firstVisible browser t pages st) with
                   | Return (Some target) => Return (Some target)
                   | Return None => Return (fallbackTarget targetInfos)
                   | Throw e => Throw e
                   end).
  { unfold findActiveTarget.
    rewrite (bind_run _ _ _ _ _ (getSession_run (s, w))). cbn [fst]. rewrite Ht.
    unfold bind at 1, callOn. cbn [fst snd]. unfold browserCall in Hreply. rewrite Hreply.
    unfold bind at 1, fallbackTarget. fold pages. subst st. unfold browserCall.
    destruct (firstVisible browser t pages _) as [[[target|]|e] st']; cbn [fst];
      [reflexivity| |reflexivity].
    destruct pages as [|first rest]; [|reflexivity].
    destruct (List.filter isPage targetInfos); reflexivity. }
  split.
  - intros i page Hi Hseen Hearlier. rewrite Hrun.
    rewrite (firstVisible_first pages st i page Hi Hseen Hearlier). reflexivity.
  - intros Hnone. rewrite Hrun. rewrite (firstVisible_none pages st Hnone). reflexivity.
Qed.
End Election.

Lemma findActiveTarget_elects_witness :
  fst (findActiveTarget hiddenP2 (attachedSession, emptyWorld)) = Return (Some "P3")
  /\ fst (findActiveTarget allHidden (attachedSession, emptyWorld)) = Return (Some "P2").
Proof.
  split.
  - apply (proj1 (findActiveTarget_elects hiddenP2 0 attachedSession emptyWorld threePages
                    eq_refl eq_refl) 1%nat (page "P3" "https://foo.com")).
    + reflexivity.
    + vm_compute. reflexivity.
    + intros j Hj. assert (j = 0%nat) as -> by lia. vm_compute. reflexivity.
  - apply (proj2 (findActiveTarget_elects allHidden 0 attachedSession emptyWorld threePages
                    eq_refl eq_refl)).
    intros [|[|i]]; vm_compute; reflexivity.
Defined.

(** C6 as stated fails: the evaluation in the probe session of P2 yields
    ["visible"], P2 comes before P3, and the election returns P3, because the
    detach that follows the evaluation is rejected and the probe of P2 is
    given up. *)
Lemma visible_page_skipped :
  (forall h, detachFails h (browserCall 0 Target_getTargets) = Ok (P_targetInfos threePages))
  /\ (forall h, detachFails h {| c_transport := 0; c_session := Some "S-P2";
                                 c_cmd := Runtime_evaluate "document.visibilityState" true |}
                = Ok (P_evaluate (JStr "visible")))
  /\ fst (findActiveTarget detachFails (attachedSession, emptyWorld)) = Return (Some "P3")
  /\ c_cmd <$> calls (snd (snd (findActiveTarget detachFails (attachedSession, emptyWorld))))
     = [ Target_getTargets;
         Target_attachToTarget "P2" true; Runtime_enable;
         Runtime_evaluate "document.visibilityState" true;
         Target_detachFromTarget (Some "S-P2");
         Target_attachToTarget "P3" true; Runtime_enable;
         Runtime_evaluate "document.visibilityState" true;
         Target_detachFromTarget (Some "S-P3") ].
Proof. repeat split. Qed.

(** The scenario of the specification: P2 hidden and P3 visible elects P3;
    nothing visible elects the first non-blank page; the blank page alone is
    elected for want of another; and with no page at all the caller creates
    one. *)
Example election_scenarios :
  fst (findActiveTarget hiddenP2 (attachedSession, emptyWorld)) = Return (Some "P3")
  /\ fst (findActiveTarget allHidden (attachedSession, emptyWorld)) = Return (Some "P2")
  /\ fst (findActiveTarget onlyBlank (attachedSession, emptyWorld)) = Return (Some "P1")
  /\ fst (findActiveTarget sampleBrowser (attachedSession, emptyWorld)) = Return None
  /\ c_cmd <$> calls (snd (snd (connectToBrowser sampleBrowser "localhost" "9222" "T"
                                  (newSession, emptyWorld))))
     = [ Connect "ws://localhost:9222/browser?token=T"; Target_setDiscoverTargets true;
         Target_getTargets; Target_createTarget "about:blank";
         Target_attachToTarget "P0" true; Page_enable; Runtime_enable; Page_getFrameTree;
         Emulation_setDeviceMetricsOverride; Target_getTargets ].
Proof. repeat split. Qed.

Section Click.
Variable browser : Browser.

Lemma send_run (s : Session) (w : World) (cmd : Command) :
  connected s ->
  send browser cmd (s, w)
  = match browser (calls w) (sessionCall s cmd) with
    | Ok p => (Return p, (s, logCall (sessionCall s cmd) w))
    | Err _ => (Throw JsTrue, (s, logCall (sessionCall s cmd) w))
    end.
Proof.
  intros [[t Ht] Hsid]. unfold send.
  rewrite (bind_run _ _ _ _ _ (getSession_run (s, w))). cbn [fst].
  rewrite Ht, Hsid. unfold sendToSession, sessionCall. cbn [fst snd]. rewrite Ht. reflexivity.
Qed.

(** C7, as amended.  On a connected session whose [DOM.enable] and
    [DOM.getBoxModel] commands are answered without error: when the box model
    carries a content quad of 8 numbers and the press is answered without
    error, the calls are [DOM.enable], [DOM.getBoxModel], then [mousePressed]
    and [mouseReleased] with button left and click count 1 at
    [(x1 + x2 + x3 + x4) / 4], [(y1 + y2 + y3 + y4) / 4], computed in binary64
    arithmetic from left to right; the call returns when the release is
    answered without error and rejects with the bare [true] of the callback
    interface when it is answered with an error.  When the reply has no
    [model] or the model has no [content], the call fails with an [Error]
    whose message names the backend node id, and no mouse event is sent. *)
Theorem click_by_backend_node (s : Session) (w : World) (backendNodeId : Z)
    (enabled reply : Payload) :
  connected s ->
  let enable := sessionCall s DOM_enable in
  let getBox := sessionCall s (DOM_getBoxModel backendNodeId) in
  browser (calls w) enable = Ok enabled ->
  browser (calls w ++ [enable])%list getBox = Ok reply ->
  let result := click browser backendNodeId (s, w) in
  (forall x1 y1 x2 y2 x3 y3 x4 y4 pressed,
      boxContent reply = Some [x1; y1; x2; y2; x3; y3; x4; y4] ->
      let centerX := ((x1 + x2 + x3 + x4) / 4)%float in
      let centerY := ((y1 + y2 + y3 + y4) / 4)%float in
      let press := sessionCall s (mouseButton "mousePressed" centerX centerY) in
      let release := sessionCall s (mouseButton "mouseReleased" centerX centerY) in
      browser (calls w ++ [enable; getBox])%list press = Ok pressed ->
      calls (snd (snd result)) = (calls w ++ [enable; getBox; press; release])%list
      /\ fst result = match browser (calls w ++ [enable; getBox; press])%list release with
                      | Ok _ => Return tt
                      | Err _ => Throw JsTrue
                      end)
  /\ (boxContent reply = None ->
      fst result = Throw (JsError (noBoxModel backendNodeId))
      /\ calls (snd (snd result)) = (calls w ++ [enable; getBox])%list).
Proof.
  intros Hc enable getBox Henable Hbox result.
  pose proof Hc as [_ Hsid].
  assert (Henable' : send browser DOM_enable (s, w) = (Return enabled, (s, logCall enable w))).
  { rewrite (send_run s w DOM_enable Hc). fold enable. now rewrite Henable. }
  assert (Hbox' : send browser (DOM_getBoxModel backendNodeId) (s, logCall enable w)
                  = (Return reply, (s, logCall getBox (logCall enable w)))).
  { rewrite (send_run s _ _ Hc). fold getBox. cbn [calls logCall]. now rewrite Hbox. }
  subst result. unfold click.
  rewrite (bind_run _ _ _ _ _ (getSession_run (s, w))). cbn [fst]. rewrite Hsid. cbn [negb].
  unfold try_catch.
  rewrite (bind_run _ _ _ _ _ Henable'), (bind_run _ _ _ _ _ Hbox').
  split.
  - intros x1 y1 x2 y2 x3 y3 x4 y4 pressed Hcontent.
    set (centerX := ((x1 + x2 + x3 + x4) / 4)%float).
    set (centerY := ((y1 + y2 + y3 + y4) / 4)%float).
    set (press := sessionCall s (mouseButton "mousePressed" centerX centerY)).
    set (release := sessionCall s (mouseButton "mouseReleased" centerX centerY)).
    intros Hpress.
    destruct reply as [| | | | | |[[[quad|]]|]]; try discriminate Hcontent.
    cbn [boxContent content] in Hcontent. injection Hcontent as ->.
    change (center [x1; y1; x2; y2; x3; y3; x4; y4] 0) with centerX.
    change (center [x1; y1; x2; y2; x3; y3; x4; y4] 1) with centerY.
    assert (Hpress' : send browser (mouseButton "mousePressed" centerX centerY)
                        (s, logCall getBox (logCall enable w))
                      = (Return pressed, (s, logCall press (logCall getBox (logCall enable w))))).
    { rewrite (send_run s _ _ Hc). fold press. cbn [calls logCall].
      rewrite <- app_assoc. cbn [app]. now rewrite Hpress. }
    rewrite (bind_run _ _ _ _ _ Hpress').
    assert (Hrelease :
      bind (send browser (mouseButton "mouseReleased" centerX centerY)) (fun _ => ret tt)
        (s, logCall press (logCall getBox (logCall enable w)))
      = (match browser (calls w ++ [enable; getBox; press])%list release with
         | Ok _ => Return tt
         | Err _ => Throw JsTrue
         end, (s, logCall release (logCall press (logCall getBox (logCall enable w)))))).
    { unfold bind. rewrite (send_run s _ _ Hc). fold release.
      cbn [calls logCall]. rewrite <- !app_assoc. cbn [app].
      destruct (browser _ release); reflexivity. }
    rewrite Hrelease.
    destruct (browser _ release); cbn; rewrite <- !app_assoc; auto.
  - intros Hnone.
    destruct reply as [| | | | | |[[[quad|]]|]]; try discriminate Hnone;
      cbn [throw fst snd calls logCall]; rewrite <- ?app_assoc; auto.
Qed.
End Click.

Lemma click_by_backend_node_witness :
  let s := attachedSession in
  let enable := sessionCall s DOM_enable in
  let getBox := sessionCall s (DOM_getBoxModel 42) in
  let reply := P_boxModel (Some {| content := Some [10; 20; 110; 20; 110; 60; 10; 60]%float |}) in
  let result := click quadBrowser 42 (s, emptyWorld) in
  (forall x1 y1 x2 y2 x3 y3 x4 y4 pressed,
      boxContent reply = Some [x1; y1; x2; y2; x3; y3; x4; y4] ->
      let centerX := ((x1 + x2 + x3 + x4) / 4)%float in
      let centerY := ((y1 + y2 + y3 + y4) / 4)%float in
      let press := sessionCall s (mouseButton "mousePressed" centerX centerY) in
      let release := sessionCall s (mouseButton "mouseReleased" centerX centerY) in
      quadBrowser (calls emptyWorld ++ [enable; getBox])%list press = Ok pressed ->
      calls (snd (snd result)) = (calls emptyWorld ++ [enable; getBox; press; release])%list
      /\ fst result = match quadBrowser (calls emptyWorld ++ [enable; getBox; press])%list release with
                      | Ok _ => Return tt
                      | Err _ => Throw JsTrue
                      end)
  /\ (boxContent reply = None ->
      fst result = Throw (JsError (noBoxModel 42))
      /\ calls (snd (snd result)) = (calls emptyWorld ++ [enable; getBox])%list).
Proof.
  exact (click_by_backend_node quadBrowser attachedSession emptyWorld 42 P_empty _
           attachedSession_connected eq_refl eq_refl).
Defined.

(** C7 as stated fails on an empty [content]: an empty array is truthy, the
    guard does not throw, and the click is dispatched at [NaN].  And the
    point is the arithmetic mean only up to binary64 arithmetic: on four
    corners that all have the largest finite coordinate, whose mean is that
    coordinate, the sums overflow and the click is dispatched at
    [Infinity]. *)
Lemma empty_content_is_clicked :
  (let result := click emptyQuad 42 (attachedSession, emptyWorld) in
   fst result = Return tt
   /\ c_cmd <$> calls (snd (snd result))
      = [ DOM_enable; DOM_getBoxModel 42;
          mouseButton "mousePressed" nan nan; mouseButton "mouseReleased" nan nan ])
  /\ (let result := click farQuad 42 (attachedSession, emptyWorld) in
      fst result = Return tt
      /\ c_cmd <$> calls (snd (snd result))
         = [ DOM_enable; DOM_getBoxModel 42;
             mouseButton "mousePressed" infinity infinity;
             mouseButton "mouseReleased" infinity infinity ]).
Proof. vm_compute. repeat split. Qed.

(** The scenario of the specification: the quad [10,20, 110,20, 110,60,
    10,60] is clicked at (60, 40). *)
Example click_s5 :
  let result := click quadBrowser 42 (attachedSession, emptyWorld) in
  match c_cmd <$> calls (snd (snd result)) with
  | [DOM_enable; DOM_getBoxModel 42; Input_dispatchMouseEvent press; Input_dispatchMouseEvent release] =>
      me_type press = "mousePressed" /\ me_type release = "mouseReleased"
      /\ me_x press = 60%float /\ me_y press = 40%float
  | _ => False
  end.
Proof. vm_compute. repeat split. Qed.

(** The sums round as doubles do: on the corner abscissas nearest to 0.1,
    0.2, 0.3 and 0.4 the centre is exactly 0.25, the partial sums being the
    doubles nearest to 0.30000000000000004, 0.6000000000000001 and 1. *)
Example center_rounds_as_doubles :
  let x1 := 0x1.999999999999ap-4%float in
  let x2 := 0x1.999999999999ap-3%float in
  let x3 := 0x1.3333333333333p-2%float in
  let x4 := 0x1.999999999999ap-2%float in
  (x1 + x2)%float = 0x1.3333333333334p-2%float
  /\ (x1 + x2 + x3)%float = 0x1.3333333333334p-1%float
  /\ center [x1; 0; x2; 0; x3; 0; x4; 0]%float 0 = 0x1p-2%float.
Proof. vm_compute. repeat split. Qed.

(** A reply without a model fails with the message of the guard. *)
Example click_without_model :
  fst (click sampleBrowser 42 (attachedSession, emptyWorld))
  = Throw (JsError "Element with backendNodeId 42 not found or has no box model").
Proof. reflexivity. Qed.

(** Resumed at once at each [await], the pieces of [disconnect()] make up
    the whole method. *)
Lemma disconnect_split (browser : Browser) (st : St) :
  disconnect browser st
  = bind (disconnect_begin browser) (disconnect_finish browser 3) st.
Proof.
  destruct st as [s w].
  unfold disconnect, disconnect_begin, disconnect_close, disconnect_reset, send.
  rewrite !(bind_run _ _ _ _ _ (getSession_run (s, w))). cbn [fst].
  destruct (browserClient s) as [t|] eqn:Hbc; [destruct (isSet (sessionId s)) eqn:Hsid|];
    unfold sendToSession, callOn, promised, try_catch, bind, getSession, gets, update,
      modify, ret;
    repeat first
      [ progress cbn
      | rewrite Hbc
      | rewrite Hsid
      | progress unfold disconnect_close, disconnect_reset, callOn, promised, bind, getSession,
          gets, update, modify, ret
      | match goal with
        | |- context [match browser ?h ?c with _ => _ end] => destruct (browser h c)
        end ];
    reflexivity.
Qed.

End BrowserSession.

(** ** Session registry *)

Module SessionManager.
Import Js Cdp BrowserSession.

(** The three maps of the registry; [created] counts the client objects
    constructed so far and gives each its identity. *)
Record Manager : Type := {
  sessionsByToken : gmap string Session;
  clientsBySocketId : gmap string Client;
  socketTokenMap : gmap string string;
  created : nat
}.

Definition emptyManager : Manager :=
  {| sessionsByToken := ∅; clientsBySocketId := ∅; socketTokenMap := ∅; created := 0 |}.

Definition set_sessionsByToken (v : gmap string Session) (m : Manager) : Manager :=
  {| sessionsByToken := v; clientsBySocketId := clientsBySocketId m;
     socketTokenMap := socketTokenMap m; created := created m |}.

Definition set_clientsBySocketId (v : gmap string Client) (m : Manager) : Manager :=
  {| sessionsByToken := sessionsByToken m; clientsBySocketId := v;
     socketTokenMap := socketTokenMap m; created := created m |}.

Definition set_socketTokenMap (v : gmap string string) (m : Manager) : Manager :=
  {| sessionsByToken := sessionsByToken m; clientsBySocketId := clientsBySocketId m;
     socketTokenMap := v; created := created m |}.

Definition set_created (v : nat) (m : Manager) : Manager :=
  {| sessionsByToken := sessionsByToken m; clientsBySocketId := clientsBySocketId m;
     socketTokenMap := socketTokenMap m; created := v |}.

(** The state a method of the registry runs in. *)
Definition MSt : Type := (Manager * World)%type.

Definition getManager : M MSt Manager := gets fst.

Definition updateManager (f : Manager -> Manager) : M MSt unit :=
  modify (fun st => (f (fst st), snd st)).

Notation "'let*' x ':=' m 'in' k" := (bind m (fun x => k))
  (at level 10, x name, m at level 100, k at level 200, only parsing).
Notation "'do' m 'then' k" := (bind m (fun _ => k))
  (at level 10, m at level 100, k at level 200, only parsing).

(** A method called on the session object registered under [tok]: the
    object is mutated in place, whatever the outcome. *)
Definition onSession {A : Type} (tok : string) (m : M St A) : M MSt A :=
  fun st =>
    match sessionsByToken (fst st) !! tok with
    | Some sess =>
        let r := m (sess, snd st) in
        (fst r,
         (set_sessionsByToken (<[tok := fst (snd r)]> (sessionsByToken (fst st))) (fst st),
          snd (snd r)))
    | None => (Throw (JsError "Cannot read properties of undefined"), st)
    end.

(** A method called on a session object that is not registered yet; the
    object comes back with the result. *)
Definition onFresh {A : Type} (sess : Session) (m : M St A) : M MSt (A * Session) :=
  fun st =>
    let r := m (sess, snd st) in
    (match fst r with
     | Return a => Return (a, fst (snd r))
     | Throw e => Throw e
     end, (fst st, snd (snd r))).

(** A callback invoked on a client by the registry. *)
Definition notifyClient (c : Client) (ev : ClientEvent) : M MSt unit :=
  modify (fun st =>
    match ctype c with
    | VIEWER => (fst st, logDeliveries [(c, ev)] (snd st))
    | API => st
    end).

(** [createClient(socket, clientType)]: a new object. *)
Definition createClient (socket : string) (clientType : ClientType) : M MSt Client :=
  let* mgr := getManager in
  do updateManager (set_created (S (created mgr))) then
  ret {| cid := created mgr; socketId := socket; ctype := clientType |}.

Section WithBrowser.
Variable browser : Browser.
Variable END_POINT_HOST : string.
Variable END_POINT_PORT : string.

(** [removeClientFromSession(socket)]; a socket is known by its id. *)
Definition removeClientFromSession (socket : string) : M MSt unit :=
  let* mgr := getManager in
  let token := socketTokenMap mgr !! socket in
  let client := clientsBySocketId mgr !! socket in
  do (match token, client with
      | Some tok, Some c =>
          if isSet token then
            match sessionsByToken mgr !! tok with
            | Some _ =>
                let* hasOtherConnections := onSession tok (removeClient browser c) in
                when (negb hasOtherConnections)
                  (do onSession tok (disconnect browser) then
                   updateManager (fun m => set_sessionsByToken (delete tok (sessionsByToken m)) m))
            | None => ret tt
            end
          else ret tt
      | _, _ => ret tt
      end) then
  do updateManager (fun m => set_clientsBySocketId (delete socket (clientsBySocketId m)) m) then
  updateManager (fun m => set_socketTokenMap (delete socket (socketTokenMap m)) m).

(** [removeClientFromSession(socket)] up to the point where it first gives
    control back.  That is at [await session.disconnect()]: the result is
    then the token with what that call of [disconnect()] waits for ([None]
    when it ran to its end), and the three maps are as they were.  The result
    is [None] when the method ran to its end. *)
Definition removeClientFromSession_begin (socket : string)
    : M MSt (option (string * option Teardown)) :=
  let* mgr := getManager in
  let token := socketTokenMap mgr !! socket in
  let client := clientsBySocketId mgr !! socket in
  let forget : M MSt (option (string * option Teardown)) :=
    do updateManager (fun m => set_clientsBySocketId (delete socket (clientsBySocketId m)) m) then
    do updateManager (fun m => set_socketTokenMap (delete socket (socketTokenMap m)) m) then
    ret None in
  match token, client with
  | Some tok, Some c =>
      if isSet token then
        match sessionsByToken mgr !! tok with
        | Some _ =>
            let* hasOtherConnections := onSession tok (removeClient browser c) in
            if hasOtherConnections : bool then forget
            else
              let* waits := onSession tok (disconnect_begin browser) in
              ret (Some (tok, waits))
        | None => forget
        end
      else forget
  | _, _ => forget
  end.

(** [connectBrowser(socket, token, clientType)]; the result is [reused]. *)
Definition connectBrowser (socket tok : string) (clientType : ClientType) : M MSt bool :=
  let* mgr := getManager in
  do when (isSet (socketTokenMap mgr !! socket)) (removeClientFromSession socket) then
  let* client := createClient socket clientType in
  do updateManager (fun m => set_clientsBySocketId (<[socket := client]> (clientsBySocketId m)) m) then
  do updateManager (fun m => set_socketTokenMap (<[socket := tok]> (socketTokenMap m)) m) then
  let* mgr := getManager in
  match sessionsByToken mgr !! tok with
  | Some _ =>
      do onSession tok (addClient browser client) then
      do notifyClient client (browser_connected "" None) then
      ret true
  | None =>
      let* added := onFresh newSession (addClient browser client) in
      do updateManager (fun m => set_sessionsByToken (<[tok := snd added]> (sessionsByToken m)) m) then
      do onSession tok (connectToBrowser browser END_POINT_HOST END_POINT_PORT tok) then
      ret false
  end.

(** [disconnectBrowser(socket)] *)
Definition disconnectBrowser (socket : string) : M MSt unit :=
  removeClientFromSession socket.

(** [handleSocketDisconnect(socket)] *)
Definition handleSocketDisconnect (socket : string) : M MSt unit :=
  removeClientFromSession socket.

End WithBrowser.

(** *** Vocabulary of the properties *)

(** The attaches and detaches a registry goes through. *)
Inductive Request : Type :=
| Attach (socket tok : string) (clientType : ClientType)
| Detach (socket : string)
| Arrival (tok : string) (i : nat).

(** One event at the registry: a [browser:connect] or a [browser:disconnect]
    request whose handler runs to completion, or the arrival of the outcome
    that the [i]-th suspended call of the session of [tok] waits for. *)
Definition serve (browser : Browser) (host port : string) (r : Request) (st : MSt) : MSt :=
  match r with
  | Attach socket tok clientType => snd (connectBrowser browser host port socket tok clientType st)
  | Detach socket => snd (disconnectBrowser browser socket st)
  | Arrival tok i => snd (onSession tok (settle i) st)
  end.

(** The events one at a time: the handler of a request has completed when
    the next event happens, so that no two handlers overlap. *)
Definition serveAll (browser : Browser) (host port : string) (rs : list Request) (st : MSt) : MSt :=
  foldl (fun st r => serve browser host port r st) st rs.

(** How many times [close()] was invoked on transport [t]. *)
Definition isCloseOn (t : nat) (c : Call) : bool :=
  (c_transport c =? t)%nat && match c_cmd c with Close => true | _ => false end.

Definition closeCount (t : nat) (cs : list Call) : nat :=
  length (List.filter (isCloseOn t) cs).

(** [m] never throws. *)
Definition returns {St A : Type} (m : M St A) : Prop :=
  forall st, exists a, fst (m st) = Return a.

Definition connectCall (w : World) (host port tok : string) : Call :=
  {| c_transport := opened w; c_session := None; c_cmd := Connect (endpoint host port tok) |}.

(** A session as [connectBrowser] leaves it when the transport could not be
    opened: the client added, the token recorded, nothing else. *)
Definition unopenedSession (tok : string) (client : Client) : Session :=
  set_token tok
    (match ctype client with
     | VIEWER => set_viewerClients [client] newSession
     | API => set_apiClients [client] newSession
     end).

Definition errorDeliveries (e : string) (cs : list Client) : list (Client * ClientEvent) :=
  List.flat_map (fun c => match ctype c with
                          | VIEWER => [(c, browser_error e)]
                          | API => []
                          end) cs.

(** A call made on the transport [bc] that is not [close()]. *)
Definition ordinaryOn (bc : option nat) (c : Call) : Prop :=
  Some (c_transport c) = bc /\ c_cmd c <> Close.

(** [quiet bc n cs0 st]: since the calls were [cs0], the session has kept its
    transport [bc], no transport was opened ([n] in all) and every call made
    was an ordinary call on [bc]. *)
Definition quiet (bc : option nat) (n : nat) (cs0 : list Call) (st : St) : Prop :=
  browserClient (fst st) = bc /\ opened (snd st) = n
  /\ exists extra, calls (snd st) = (cs0 ++ extra)%list /\ Forall (ordinaryOn bc) extra.

Definition closeCall (t : nat) : Call :=
  {| c_transport := t; c_session := None; c_cmd := Close |}.

(** Every registered session that holds a transport holds an open one that
    was never closed, no two sessions share a transport, and every call was
    made on a transport that had been opened. *)
Definition registryOk (st : MSt) : Prop :=
  (forall tok sess t,
      sessionsByToken (fst st) !! tok = Some sess -> browserClient sess = Some t ->
      (t < opened (snd st))%nat /\ closeCount t (calls (snd st)) = 0%nat)
  /\ (forall tok1 tok2 s1 s2 t,
        sessionsByToken (fst st) !! tok1 = Some s1 ->
        sessionsByToken (fst st) !! tok2 = Some s2 ->
        browserClient s1 = Some t -> browserClient s2 = Some t -> tok1 = tok2)
  /\ Forall (fun c => (c_transport c < opened (snd st))%nat) (calls (snd st)).

(** *** Sample registries *)

(** A browser whose endpoint refuses the connection. *)
Definition refuseConnect : Browser :=
  fun _ c => match c_cmd c with
             | Connect _ => Err "connect ECONNREFUSED"
             | _ => Ok P_empty
             end.

(** One viewer attaches under the token T. *)
Definition oneViewer : list Request := [Attach "v" "T" VIEWER].

Definition soleViewer : Client := {| cid := 0; socketId := "v"; ctype := VIEWER |}.

(** The session [sampleBrowser] leaves registered once [oneViewer] is served. *)
Definition servedSession : Session :=
  {| browserClient := Some 0%nat; sessionId := Some "S-P0"; targetId := Some "P0";
     currentUrl := "about:blank"; token := "T"; viewerClients := [soleViewer];
     apiClients := []; screencastStarted := true; pressedModifiers := ∅; suspended := [] |}.

(** *** Facts: methods that never throw *)

Lemma returns_run {St A : Type} (m : M St A) (st : St) :
  returns m -> exists a st', m st = (Return a, st').
Proof.
  intros H. destruct (H st) as [a Ha]. destruct (m st) as [o st'] eqn:Hm.
  simpl in Ha. subst o. eauto.
Qed.

Lemma returns_ret {St A : Type} (a : A) : returns (@ret St A a).
Proof. intros st. now exists a. Qed.

Lemma returns_bind {St A B : Type} (m : M St A) (k : A -> M St B) :
  returns m -> (forall a, returns (k a)) -> returns (bind m k).
Proof.
  intros Hm Hk st. destruct (returns_run m st Hm) as (a & st' & Hrun).
  unfold bind. rewrite Hrun. apply Hk.
Qed.

Lemma returns_try_catch {St A : Type} (m : M St A) (handler : Thrown -> M St A) :
  (forall e, returns (handler e)) -> returns (try_catch m handler).
Proof.
  intros Hh st. unfold try_catch.
  destruct (m st) as [[a|e] st']; [now exists a | apply Hh].
Qed.

Lemma returns_promised {St A : Type} (m : M St A) : returns (promised m).
Proof. intros st. now exists (fst (m st)). Qed.

Lemma returns_gets {St A : Type} (f : St -> A) : returns (gets f).
Proof. intros st. now exists (f st). Qed.

Lemma returns_modify {St : Type} (f : St -> St) : returns (modify f).
Proof. intros st. now exists tt. Qed.

Lemma returns_when {St : Type} (c : bool) (m : M St unit) : returns m -> returns (when c m).
Proof. intros H. destruct c; [exact H | apply returns_ret]. Qed.

Lemma returns_emitToViewers (ev : ClientEvent) : returns (emitToViewers ev).
Proof. intros st. exists tt. apply emitToViewers_session. Qed.

Section Returns.
Variable browser : Browser.
Variables host port : string.

Lemma returns_unawaited (begin : M St (option Suspended)) :
  returns begin -> returns (unawaited begin).
Proof.
  intros Hb. unfold unawaited. apply returns_bind; [exact Hb|].
  intros [x|]; [apply returns_modify | apply returns_ret].
Qed.

Lemma returns_begin :
  returns (tryStartScreencast_begin browser) /\ returns (tryStopScreencast_begin browser).
Proof.
  split; unfold tryStartScreencast_begin, tryStopScreencast_begin, startScreencast_begin,
    stopScreencast_begin;
    (apply returns_bind; [apply returns_gets | intros s]);
    (destruct (_ || _); [apply returns_ret|]);
    (apply returns_bind; [apply returns_gets | intros s']);
    (destruct (_ || _); [apply returns_ret|]);
    (apply returns_bind; [apply returns_promised | intros o; apply returns_ret]).
Qed.

Lemma returns_addClient (c : Client) : returns (addClient browser c).
Proof.
  unfold addClient. destruct (ctype c).
  - apply returns_bind; [apply returns_modify | intros _].
    apply returns_unawaited, returns_begin.
  - apply returns_modify.
Qed.

Lemma returns_removeClient (c : Client) : returns (removeClient browser c).
Proof.
  unfold removeClient. apply returns_bind.
  - destruct (ctype c).
    + apply returns_bind; [apply returns_modify | intros _].
      apply returns_bind; [apply returns_gets | intros s].
      apply returns_when, returns_unawaited, returns_begin.
    + apply returns_modify.
  - intros _. apply returns_bind; [apply returns_gets | intros s; apply returns_ret].
Qed.

Lemma returns_disconnect : returns (disconnect browser).
Proof.
  unfold disconnect.
  apply returns_bind; [apply returns_gets | intros s].
  apply returns_bind.
  { destruct (browserClient s); [|apply returns_ret].
    destruct (isSet (sessionId s)); [|apply returns_ret].
    apply returns_bind; [|intros _; apply returns_modify].
    apply returns_try_catch. intros e. apply returns_ret. }
  intros _. apply returns_bind; [apply returns_gets | intros s'].
  apply returns_bind.
  { destruct (browserClient s'); [|apply returns_ret].
    apply returns_bind; [|intros _; apply returns_modify].
    apply returns_try_catch. intros e. apply returns_ret. }
  intros _. repeat (apply returns_bind; [apply returns_modify | intros _]).
  apply returns_modify.
Qed.

Lemma returns_connectToBrowser (tok : string) :
  returns (connectToBrowser browser host port tok).
Proof. apply returns_try_catch. intros e. apply returns_emitToViewers. Qed.

Lemma onSession_run {A : Type} (tok : string) (m : M St A) (mgr : Manager) (w : World)
    (sess : Session) :
  sessionsByToken mgr !! tok = Some sess ->
  onSession tok m (mgr, w)
  = (fst (m (sess, w)),
     (set_sessionsByToken (<[tok := fst (snd (m (sess, w)))]> (sessionsByToken mgr)) mgr,
      snd (snd (m (sess, w))))).
Proof. intros H. unfold onSession. cbn [fst snd]. now rewrite H. Qed.

(** What [removeClientFromSession] leaves: it returns, and it registers no
    session. *)
Lemma removeClientFromSession_run (socket : string) (mgr : Manager) (w : World) :
  exists mgr' w',
    removeClientFromSession browser socket (mgr, w) = (Return tt, (mgr', w'))
    /\ (forall tok, sessionsByToken mgr !! tok = None -> sessionsByToken mgr' !! tok = None)
    /\ created mgr' = created mgr
    /\ clientsBySocketId mgr' = delete socket (clientsBySocketId mgr)
    /\ socketTokenMap mgr' = delete socket (socketTokenMap mgr).
Proof.
  unfold removeClientFromSession.
  rewrite (bind_run _ _ _ _ _ (eq_refl : getManager (mgr, w) = (Return mgr, (mgr, w)))).
  assert (Hskip : forall (mgr1 : Manager) (w1 : World),
    (forall tok, sessionsByToken mgr !! tok = None -> sessionsByToken mgr1 !! tok = None) ->
    created mgr1 = created mgr -> clientsBySocketId mgr1 = clientsBySocketId mgr ->
    socketTokenMap mgr1 = socketTokenMap mgr ->
    forall body : M MSt unit, body (mgr, w) = (Return tt, (mgr1, w1)) ->
    exists mgr' w',
      bind body (fun _ =>
        bind (updateManager (fun m => set_clientsBySocketId (delete socket (clientsBySocketId m)) m))
          (fun _ => updateManager (fun m => set_socketTokenMap (delete socket (socketTokenMap m)) m)))
        (mgr, w) = (Return tt, (mgr', w'))
      /\ (forall tok, sessionsByToken mgr !! tok = None -> sessionsByToken mgr' !! tok = None)
      /\ created mgr' = created mgr
      /\ clientsBySocketId mgr' = delete socket (clientsBySocketId mgr)
      /\ socketTokenMap mgr' = delete socket (socketTokenMap mgr)).
  { intros mgr1 w1 Hs Hc Hcl Hst body Hbody. rewrite (bind_run _ _ _ _ _ Hbody).
    eexists _, _. split; [reflexivity|]. cbn. rewrite Hcl, Hst. auto. }
  destruct (socketTokenMap mgr !! socket) as [tok|] eqn:Htok;
    [|apply (Hskip mgr w); auto].
  destruct (clientsBySocketId mgr !! socket) as [c|] eqn:Hclient;
    [|apply (Hskip mgr w); auto].
  destruct (isSet (Some tok)) eqn:Hset; [|apply (Hskip mgr w); auto].
  destruct (sessionsByToken mgr !! tok) as [sess|] eqn:Hsess; [|apply (Hskip mgr w); auto].
  destruct (returns_run _ (sess, w) (returns_removeClient c)) as (has & [s1 w1] & Hrm).
  pose proof (onSession_run tok (removeClient browser c) mgr w sess Hsess) as Hon.
  rewrite Hrm in Hon. cbn [fst snd] in Hon.
  set (mgr1 := set_sessionsByToken (<[tok:=s1]> (sessionsByToken mgr)) mgr) in *.
  assert (Hfree1 : forall tok', sessionsByToken mgr !! tok' = None ->
                                sessionsByToken mgr1 !! tok' = None).
  { intros tok' Hnone. cbn. rewrite lookup_insert_ne; [exact Hnone | congruence]. }
  destruct has.
  - apply (Hskip mgr1 w1); auto.
    rewrite (bind_run _ _ _ _ _ Hon). reflexivity.
  - destruct (returns_run _ (s1, w1) returns_disconnect) as ([] & [s2 w2] & Hdis).
    assert (Hs1 : sessionsByToken mgr1 !! tok = Some s1) by (cbn; apply lookup_insert_eq).
    pose proof (onSession_run tok (disconnect browser) mgr1 w1 s1 Hs1) as Hon2.
    rewrite Hdis in Hon2. cbn [fst snd] in Hon2.
    set (mgr2 := set_sessionsByToken (<[tok:=s2]> (sessionsByToken mgr1)) mgr1) in *.
    apply (Hskip (set_sessionsByToken (delete tok (sessionsByToken mgr2)) mgr2) w2); auto.
    + intros tok' Hnone. cbn. destruct (decide (tok = tok')) as [<-|Hne].
      * apply lookup_delete_eq.
      * rewrite lookup_delete_ne by exact Hne. rewrite !lookup_insert_ne by exact Hne. exact Hnone.
    + rewrite (bind_run _ _ _ _ _ Hon). cbn [negb when].
      rewrite (bind_run _ _ _ _ _ Hon2). reflexivity.
Qed.

Lemma addClient_fresh (client : Client) (w : World) :
  addClient browser client (newSession, w)
  = (Return tt,
     (match ctype client with
      | VIEWER => set_viewerClients [client] newSession
      | API => set_apiClients [client] newSession
      end, w)).
Proof. unfold addClient. destruct (ctype client); reflexivity. Qed.

Lemma logDeliveries_nil (w : World) : logDeliveries [] w = w.
Proof. destruct w. unfold logDeliveries. cbn. now rewrite app_nil_r. Qed.

Lemma logDeliveries_app (ds1 ds2 : list (Client * ClientEvent)) (w : World) :
  logDeliveries ds2 (logDeliveries ds1 w) = logDeliveries (ds1 ++ ds2) w.
Proof. unfold logDeliveries. cbn. now rewrite app_assoc. Qed.

Lemma notifyAll_error_run (e : string) (cs : list Client) :
  forall (s : Session) (w : World),
    notifyAll cs (browser_error e) (s, w)
    = (Return tt, (s, logDeliveries (errorDeliveries e cs) w)).
Proof.
  induction cs as [|c cs IH]; intros s w.
  - cbn. now rewrite logDeliveries_nil.
  - cbn [notifyAll]. unfold bind at 1, notify at 1, modify. cbn [fst snd].
    destruct (ctype c) eqn:Hc; rewrite IH; unfold errorDeliveries; cbn [List.flat_map];
      rewrite Hc; [now rewrite logDeliveries_app | reflexivity].
Qed.

Lemma connectToBrowser_unopened (tok : string) (s : Session) (w : World) (e : string) :
  browser (calls w) (connectCall w host port tok) = Err e ->
  connectToBrowser browser host port tok (s, w)
  = (Return tt,
     (set_token tok s,
      logDeliveries (errorDeliveries e (viewerClients s))
        (bumpOpened (logCall (connectCall w host port tok) w)))).
Proof.
  intros Hopen. unfold connectToBrowser, try_catch.
  assert (Hbody : forall k : nat -> M St unit,
             bind (update (set_token tok)) (fun _ =>
               bind (openTransport browser (endpoint host port tok)) k) (s, w)
             = (Throw (JsError e), (set_token tok s, bumpOpened (logCall (connectCall w host port tok) w)))).
  { intros k. unfold bind at 1. cbn [update modify fst snd]. unfold bind, openTransport.
    cbn [fst snd]. unfold connectCall in Hopen. rewrite Hopen. reflexivity. }
  rewrite Hbody. unfold emitToViewers.
  rewrite (bind_run _ _ _ _ _ (getSession_run _)). cbn [fst viewerClients set_token].
  apply notifyAll_error_run.
Qed.

(** C9. [connectBrowser] on a token that has no session resolves with
    [reused = false] and never rejects, whatever the browser answers, and
    leaves a session registered under the token.  When opening the transport
    fails with [e] (for a socket that was not attached before), the
    registered session is the new one with the client added and the token
    recorded, the only call made is the failed connection attempt, and the
    only delivery is [browser:error e] to the client if it is a viewer. *)
Theorem connectBrowser_fresh_token (mgr : Manager) (w : World) (socket tok : string)
    (clientType : ClientType) :
  sessionsByToken mgr !! tok = None ->
  let result := connectBrowser browser host port socket tok clientType (mgr, w) in
  fst result = Return false
  /\ is_Some (sessionsByToken (fst (snd result)) !! tok)
  /\ (forall e : string,
        socketTokenMap mgr !! socket = None ->
        browser (calls w) (connectCall w host port tok) = Err e ->
        let client := {| cid := created mgr; socketId := socket; ctype := clientType |} in
        sessionsByToken (fst (snd result)) !! tok = Some (unopenedSession tok client)
        /\ calls (snd (snd result)) = (calls w ++ [connectCall w host port tok])%list
        /\ deliveries (snd (snd result))
           = (deliveries w ++ match clientType with
                              | VIEWER => [(client, browser_error e)]
                              | API => []
                              end)%list).
Proof.
  intros Hfresh result.
  (* the optional removal of the socket's previous client *)
  assert (Hfirst : exists mgr1 w1,
    when (isSet (socketTokenMap mgr !! socket)) (removeClientFromSession browser socket) (mgr, w)
    = (Return tt, (mgr1, w1))
    /\ sessionsByToken mgr1 !! tok = None
    /\ (socketTokenMap mgr !! socket = None -> mgr1 = mgr /\ w1 = w)).
  { destruct (isSet (socketTokenMap mgr !! socket)) eqn:Hset.
    - destruct (removeClientFromSession_run socket mgr w) as (mgr1 & w1 & Hrun & Hfree & _).
      exists mgr1, w1. cbn [when]. split; [exact Hrun|]. split; [now apply Hfree|].
      intros Hnone. rewrite Hnone in Hset. discriminate.
    - exists mgr, w. cbn [when]. auto. }
  destruct Hfirst as (mgr1 & w1 & Hrun1 & Hfree1 & Hsame).
  set (client := {| cid := created mgr1; socketId := socket; ctype := clientType |}).
  set (added := match clientType with
                | VIEWER => set_viewerClients [client] newSession
                | API => set_apiClients [client] newSession
                end).
  set (mgr2 := set_socketTokenMap (<[socket := tok]> (socketTokenMap mgr1))
                 (set_clientsBySocketId (<[socket := client]> (clientsBySocketId mgr1))
                    (set_created (S (created mgr1)) mgr1))).
  set (mgr3 := set_sessionsByToken (<[tok := added]> (sessionsByToken mgr2)) mgr2).
  assert (Hwhole : result
    = (let r := connectToBrowser browser host port tok (added, w1) in
       (match fst r with Return _ => Return false | Throw e => Throw e end,
        (set_sessionsByToken (<[tok := fst (snd r)]> (sessionsByToken mgr3)) mgr3,
         snd (snd r))))).
  { subst result. unfold connectBrowser.
    rewrite (bind_run _ _ _ _ _ (eq_refl : getManager (mgr, w) = (Return mgr, (mgr, w)))).
    rewrite (bind_run _ _ _ _ _ Hrun1).
    rewrite (bind_run _ _ _ (set_created (S (created mgr1)) mgr1, w1) client) by reflexivity.
    unfold bind at 1. cbn [updateManager modify fst snd].
    unfold bind at 1. cbn [updateManager modify fst snd].
    rewrite (bind_run _ _ _ _ _ (eq_refl : getManager (mgr2, w1) = (Return mgr2, (mgr2, w1)))).
    assert (Hfree2 : sessionsByToken mgr2 !! tok = None) by exact Hfree1.
    rewrite Hfree2.
    rewrite (bind_run _ _ _ (mgr2, w1) (tt, added)).
    2:{ unfold onFresh. cbn [fst snd]. rewrite (addClient_fresh client w1). reflexivity. }
    unfold bind at 1. cbn [updateManager modify fst snd].
    fold mgr3. unfold bind at 1.
    rewrite (onSession_run tok _ mgr3 w1 added) by (cbn; apply lookup_insert_eq).
    cbv zeta. destruct (connectToBrowser browser host port tok (added, w1)) as [[[]|e] [s' w']];
      reflexivity. }
  rewrite Hwhole. cbv zeta.
  destruct (returns_run _ (added, w1) (returns_connectToBrowser tok)) as ([] & [s' w'] & Hconn).
  rewrite Hconn. cbn [fst snd]. split; [reflexivity|]. split.
  { cbn. rewrite lookup_insert_eq. eauto. }
  intros e Hnone Hopen.
  destruct (Hsame Hnone) as [-> ->].
  rewrite (connectToBrowser_unopened tok added w e Hopen) in Hconn.
  injection Hconn as <- <-. cbn [sessionsByToken set_sessionsByToken].
  rewrite lookup_insert_eq. split; [|split].
  - unfold unopenedSession, added, client. cbn. destruct clientType; reflexivity.
  - reflexivity.
  - subst added client. destruct clientType; cbn; rewrite ?app_nil_r; reflexivity.
Qed.
End Returns.

Lemma connectBrowser_fresh_token_witness :
  sessionsByToken emptyManager !! "T" = None
  /\ fst (connectBrowser refuseConnect "localhost" "9222" "v" "T" VIEWER
            (emptyManager, emptyWorld)) = Return false.
Proof.
  split; [reflexivity|].
  exact (proj1 (connectBrowser_fresh_token refuseConnect "localhost" "9222"
                  emptyManager emptyWorld "v" "T" VIEWER eq_refl)).
Defined.

(** The refused connection, run: one call, one [browser:error]. *)
Example connectBrowser_refused :
  let result := connectBrowser refuseConnect "localhost" "9222" "v" "T" VIEWER
                  (emptyManager, emptyWorld) in
  fst result = Return false
  /\ List.map c_cmd (calls (snd (snd result))) = [Connect "ws://localhost:9222/browser?token=T"]
  /\ List.map snd (deliveries (snd (snd result))) = [browser_error "connect ECONNREFUSED"].
Proof. vm_compute. repeat split. Qed.

(** *** Facts: what the session methods do to the transport *)

Lemma quiet_refl (s : Session) (w : World) : quiet (browserClient s) (opened w) (calls w) (s, w).
Proof. repeat split. exists []. split; [now rewrite app_nil_r | constructor]. Qed.

Lemma quiet_session (bc : option nat) (n : nat) (cs0 : list Call) (st st' : St) :
  browserClient (fst st') = browserClient (fst st) -> opened (snd st') = opened (snd st) ->
  calls (snd st') = calls (snd st) ->
  quiet bc n cs0 st -> quiet bc n cs0 st'.
Proof. unfold quiet. intros -> -> ->. auto. Qed.

Lemma notifyAll_world (cs : list Client) (ev : ClientEvent) (st : St) :
  opened (snd (snd (notifyAll cs ev st))) = opened (snd st).
Proof.
  revert st. induction cs as [|c cs IH]; intros st; [reflexivity|].
  cbn [notifyAll]. unfold bind, notify, modify.
  match goal with |- context [notifyAll cs ev ?x] => specialize (IH x);
    destruct (notifyAll cs ev x) as [[[]|e] st'] eqn:Hn end;
    cbn [fst snd] in *; rewrite IH; destruct (ctype c); reflexivity.
Qed.

Section Frames.
Variable browser : Browser.
Variables (bc : option nat) (n : nat) (cs0 : list Call).

Local Abbreviation Quiet := (quiet bc n cs0).

Lemma quiet_emitToViewers (ev : ClientEvent) :
  triple Quiet (emitToViewers ev) (fun _ => Quiet) Quiet.
Proof.
  intros st H. destruct (emitToViewers_session ev st) as (H1 & H2 & H3).
  assert (H4 : opened (snd (snd (emitToViewers ev st))) = opened (snd st)).
  { unfold emitToViewers. rewrite (bind_run _ _ _ _ _ (getSession_run st)).
    apply notifyAll_world. }
  destruct (emitToViewers ev st) as [[[]|e] st']; cbn [fst snd] in *; [|discriminate].
  eapply quiet_session; [| | |exact H]; congruence.
Qed.

Lemma quiet_callOn (t : nat) (sid : option string) (cmd : Command) :
  cmd <> Close ->
  triple (fun st => Quiet st /\ bc = Some t) (callOn browser t sid cmd) (fun _ => Quiet) Quiet.
Proof.
  intros Hcmd [s w] [(Hb & Ho & extra & Hcalls & Hall) Ht]. cbn [fst snd] in *.
  assert (Hq : Quiet (s, logCall {| c_transport := t; c_session := sid; c_cmd := cmd |} w)).
  { split; [exact Hb|]. split; [exact Ho|].
    exists (extra ++ [{| c_transport := t; c_session := sid; c_cmd := cmd |}])%list.
    cbn [snd calls logCall]. rewrite Hcalls, app_assoc. split; [reflexivity|].
    apply Forall_app. split; [exact Hall|]. constructor; [|constructor].
    split; [cbn; congruence | exact Hcmd]. }
  unfold callOn. cbn [fst snd]. destruct (browser (calls w) _); exact Hq.
Qed.

Lemma quiet_send (cmd : Command) :
  cmd <> Close -> triple Quiet (send browser cmd) (fun _ => Quiet) Quiet.
Proof.
  intros Hcmd. unfold send.
  eapply triple_bind; [apply triple_gets|]. intros s. cbv beta.
  destruct (browserClient s) as [t|] eqn:Ht; [|intros st [H _]; exact H].
  destruct (isSet (sessionId s)); [|intros st [H _]; exact H].
  apply triple_sendToSession.
  eapply triple_weaken; [apply (quiet_callOn t _ _ Hcmd) | | |]; cbv beta; auto.
  intros st [H ->]. split; [exact H|]. destruct H as [Hb _]. congruence.
Qed.

Lemma quiet_update (f : Session -> Session) :
  (forall s, browserClient (f s) = browserClient s) ->
  triple Quiet (update f) (fun _ => Quiet) Quiet.
Proof.
  intros Hf [s w] H. cbn. eapply quiet_session; [| | |exact H]; cbn; auto.
Qed.

Lemma quiet_ret {A : Type} (a : A) : triple Quiet (ret a) (fun _ => Quiet) Quiet.
Proof. intros st H. exact H. Qed.

Lemma quiet_throw {A : Type} (e : Thrown) : triple Quiet (@throw St A e) (fun _ => Quiet) Quiet.
Proof. intros st H. exact H. Qed.

Lemma quiet_bind {A B : Type} (m : M St A) (k : A -> M St B) :
  triple Quiet m (fun _ => Quiet) Quiet ->
  (forall a, triple Quiet (k a) (fun _ => Quiet) Quiet) ->
  triple Quiet (bind m k) (fun _ => Quiet) Quiet.
Proof. intros Hm Hk. eapply triple_bind; [exact Hm | exact Hk]. Qed.

Lemma quiet_try_catch {A : Type} (m : M St A) (handler : Thrown -> M St A) :
  triple Quiet m (fun _ => Quiet) Quiet ->
  (forall e, triple Quiet (handler e) (fun _ => Quiet) Quiet) ->
  triple Quiet (try_catch m handler) (fun _ => Quiet) Quiet.
Proof. intros Hm Hh. eapply triple_try_catch; [exact Hm | exact Hh]. Qed.

Lemma quiet_promised {A : Type} (m : M St A) :
  triple Quiet m (fun _ => Quiet) Quiet -> triple Quiet (promised m) (fun _ => Quiet) Quiet.
Proof. intros Hm. eapply triple_promised; [exact Hm | auto]. Qed.

Lemma quiet_when (c : bool) (m : M St unit) :
  triple Quiet m (fun _ => Quiet) Quiet -> triple Quiet (when c m) (fun _ => Quiet) Quiet.
Proof. intros Hm. destruct c; [exact Hm | apply quiet_ret]. Qed.

(** The session read by [getSession] has the transport [bc]. *)
Lemma quiet_getSession {A : Type} (k : Session -> M St A) :
  (forall s, browserClient s = bc -> triple Quiet (k s) (fun _ => Quiet) Quiet) ->
  triple Quiet (bind getSession k) (fun _ => Quiet) Quiet.
Proof.
  intros Hk st H. rewrite (bind_run _ _ _ _ _ (getSession_run st)).
  apply Hk; [apply H | exact H].
Qed.

Lemma quiet_callOn_bc (t : nat) (sid : option string) (cmd : Command) :
  cmd <> Close -> bc = Some t ->
  triple Quiet (callOn browser t sid cmd) (fun _ => Quiet) Quiet.
Proof.
  intros Hcmd Ht. eapply triple_weaken; [apply (quiet_callOn t sid cmd Hcmd) | | |];
    cbv beta; auto.
Qed.

End Frames.

Ltac quiet_step :=
  lazymatch goal with
  | |- triple _ (ret _) _ _ => apply quiet_ret
  | |- triple _ (throw _) _ _ => apply quiet_throw
  | |- triple _ (emitToViewers _) _ _ => apply quiet_emitToViewers
  | |- triple _ (send _ _) _ _ => apply quiet_send; discriminate
  | |- triple _ (update _) _ _ => apply quiet_update; intros; reflexivity
  | |- triple _ (callOn _ _ _ _) _ _ => apply quiet_callOn_bc; [discriminate | congruence]
  | |- triple _ (sendToSession _ _ _ _) _ _ =>
      apply triple_sendToSession; apply quiet_callOn_bc; [discriminate | congruence]
  | |- triple _ (promised _) _ _ => apply quiet_promised
  | |- triple _ (when _ _) _ _ => apply quiet_when
  | |- triple _ (try_catch _ _) _ _ =>
      apply quiet_try_catch; [|let e := fresh "e" in intros e]
  | |- triple _ (bind getSession _) _ _ =>
      apply quiet_getSession; let s := fresh "s" in let Hs := fresh "Hs" in intros s Hs
  | |- triple _ (bind _ _) _ _ => apply quiet_bind; [|let a := fresh "a" in intros a]
  end.

Ltac quiet_cases :=
  match goal with
  | |- triple _ (match ?x with _ => _ end) _ _ => destruct x eqn:?
  end.

Section MethodFrames.
Variable browser : Browser.
Variables (bc : option nat) (n : nat) (cs0 : list Call).

Local Abbreviation Quiet := (quiet bc n cs0).

Lemma quiet_startScreencast : triple Quiet (startScreencast browser) (fun _ => Quiet) Quiet.
Proof. unfold startScreencast. repeat first [quiet_step | quiet_cases]. Qed.

Lemma quiet_stopScreencast : triple Quiet (stopScreencast browser) (fun _ => Quiet) Quiet.
Proof. unfold stopScreencast. repeat first [quiet_step | quiet_cases]. Qed.

Ltac quiet_auto :=
  repeat first [ quiet_step | apply quiet_startScreencast | apply quiet_stopScreencast
               | quiet_cases ].

Lemma quiet_addClient (c : Client) : triple Quiet (addClient browser c) (fun _ => Quiet) Quiet.
Proof.
  unfold addClient, unawaited, tryStartScreencast_begin, startScreencast_begin. quiet_auto.
Qed.

Lemma quiet_removeClient (c : Client) :
  triple Quiet (removeClient browser c) (fun _ => Quiet) Quiet.
Proof.
  unfold removeClient, unawaited, tryStopScreencast_begin, stopScreencast_begin. quiet_auto.
Qed.

Lemma quiet_settle (i : nat) : triple Quiet (settle i) (fun _ => Quiet) Quiet.
Proof. unfold settle, resume. quiet_auto. Qed.

Lemma quiet_connectToPage (target : string) :
  triple Quiet (connectToPage browser target) (fun _ => Quiet) Quiet.
Proof. unfold connectToPage. quiet_auto. Qed.

Lemma quiet_firstVisible (t : nat) (pages : list TargetInfo) :
  bc = Some t -> triple Quiet (firstVisible browser t pages) (fun _ => Quiet) Quiet.
Proof.
  intros Ht. induction pages as [|page rest IH]; cbn [firstVisible]; [quiet_step|].
  unfold probe. repeat first [quiet_step | exact IH | quiet_cases].
Qed.

Lemma quiet_findActiveTarget :
  triple Quiet (findActiveTarget browser) (fun _ => Quiet) Quiet.
Proof.
  unfold findActiveTarget.
  repeat first [ quiet_step | apply quiet_firstVisible; congruence | quiet_cases ].
Qed.

Lemma quiet_emitPageList : triple Quiet (emitPageList browser) (fun _ => Quiet) Quiet.
Proof. unfold emitPageList. quiet_auto. Qed.

End MethodFrames.

Lemma triple_assume {St A : Type} (phi : Prop) (P : St -> Prop) (m : M St A)
    (Q : A -> St -> Prop) (E : St -> Prop) :
  (phi -> triple P m Q E) -> triple (fun st => P st /\ phi) m Q E.
Proof. intros H st [HP Hphi]. exact (H Hphi st HP). Qed.

Section Lifecycle.
Variable browser : Browser.
Variables host port : string.

(** [disconnect] closes the transport of a session that has one, once, after
    ordinary calls only, and leaves the session without a transport. *)
Lemma disconnect_frame (s : Session) (w : World) :
  let st' := snd (disconnect browser (s, w)) in
  browserClient (fst st') = None /\ opened (snd st') = opened w
  /\ match browserClient s with
     | Some t => exists extra, calls (snd st') = (calls w ++ extra ++ [closeCall t])%list
                               /\ Forall (ordinaryOn (Some t)) extra
     | None => calls (snd st') = calls w
     end.
Proof.
  cbv zeta. unfold disconnect.
  rewrite (bind_run _ _ _ _ _ (getSession_run (s, w))). cbn [fst].
  destruct (browserClient s) as [t|] eqn:Ht.
  2:{ unfold bind at 1. cbn [ret]. rewrite (bind_run _ _ _ _ _ (getSession_run (s, w))).
      cbn [fst]. rewrite Ht. cbn. rewrite ?Ht. cbn. auto. }
  set (part1 := if isSet (sessionId s)
                then bind (try_catch
                             (bind (send browser Page_stopScreencast) (fun _ =>
                                bind (callOn browser t None (Target_detachFromTarget (sessionId s)))
                                  (fun _ => ret tt)))
                             (fun _ => ret tt))
                          (fun _ => update (set_sessionId None))
                else ret tt).
  assert (H1 : triple (quiet (Some t) (opened w) (calls w)) part1
                 (fun _ => quiet (Some t) (opened w) (calls w))
                 (fun _ => False)).
  { subst part1. destruct (isSet (sessionId s)); [|intros st H; exact H].
    eapply triple_bind.
    - eapply triple_try_catch with (E1 := quiet (Some t) (opened w) (calls w)).
      + repeat first [quiet_step | quiet_cases].
      + intros e st H. exact H.
    - intros a st H. cbn. eapply quiet_session; [| | |exact H]; reflexivity. }
  specialize (H1 (s, w)). rewrite <- Ht in H1 at 1. specialize (H1 (quiet_refl s w)).
  destruct (part1 (s, w)) as [[[]|e] [s1 w1]] eqn:Hp1; [|contradiction].
  rewrite (bind_run _ _ _ _ _ Hp1).
  destruct H1 as (Hb1 & Ho1 & extra & Hc1 & Hall). cbn [fst snd] in *.
  rewrite (bind_run _ _ _ _ _ (getSession_run (s1, w1))). cbn [fst]. rewrite Hb1.
  assert (Hclose : try_catch (bind (callOn browser t None Close) (fun _ => ret tt))
                      (fun _ => ret tt) (s1, w1)
                    = (Return tt, (s1, logCall (closeCall t) w1))).
  { unfold try_catch, bind, callOn. cbn [fst snd]. fold (closeCall t).
    destruct (browser (calls w1) (closeCall t)); reflexivity. }
  assert (Hpart2 : bind (try_catch (bind (callOn browser t None Close) (fun _ => ret tt))
                           (fun _ => ret tt))
                     (fun _ => update (set_browserClient None)) (s1, w1)
                   = (Return tt, (set_browserClient None s1, logCall (closeCall t) w1))).
  { rewrite (bind_run _ _ _ _ _ Hclose). reflexivity. }
  rewrite (bind_run _ _ _ _ _ Hpart2). cbn. rewrite Ho1, Hc1.
  split; [reflexivity|]. split; [reflexivity|]. exists extra.
  rewrite <- app_assoc. split; [reflexivity | exact Hall].
Qed.

(** [connectToBrowser] on a session without a transport opens exactly one,
    makes only ordinary calls on it, and leaves the session with that
    transport or with none. *)
Lemma connectToBrowser_frame (tok : string) (s : Session) (w : World) :
  browserClient s = None ->
  let st' := snd (connectToBrowser browser host port tok (s, w)) in
  opened (snd st') = S (opened w)
  /\ (browserClient (fst st') = None \/ browserClient (fst st') = Some (opened w))
  /\ exists extra, calls (snd st') = (calls w ++ extra)%list
                   /\ Forall (ordinaryOn (Some (opened w))) extra.
Proof.
  intros Hnone. cbv zeta.
  set (c := {| c_transport := opened w; c_session := None;
               c_cmd := Connect (endpoint host port tok) |}).
  set (R := fun st : St => quiet None (S (opened w)) (calls w ++ [c]) st
                           \/ quiet (Some (opened w)) (S (opened w)) (calls w ++ [c]) st).
  assert (Hemit : forall ev, triple R (emitToViewers ev) (fun _ => R) R).
  { intros ev st [H|H]; [pose proof (quiet_emitToViewers _ _ _ ev st H) as H'
                        | pose proof (quiet_emitToViewers _ _ _ ev st H) as H'];
      destruct (emitToViewers ev st) as [[[]|e] st']; [left| left | right | right]; exact H'. }
  assert (Hall : triple (fun st => st = (s, w)) (connectToBrowser browser host port tok)
                   (fun _ => R) R).
  { unfold connectToBrowser. eapply triple_try_catch with (E1 := R); [|intros e; apply Hemit].
    eapply triple_bind with (Q1 := fun _ st => st = (set_token tok s, w)).
    { intros st ->. reflexivity. }
    intros _.
    eapply triple_bind with
      (Q1 := fun t st => t = opened w
                         /\ st = (set_token tok s, bumpOpened (logCall c w))).
    { intros st ->. unfold openTransport. cbn [fst snd]. fold c.
      destruct (browser (calls w) c); [auto|].
      left. split; [exact Hnone|]. split; [reflexivity|]. exists [].
      cbn. split; [now rewrite app_nil_r | constructor]. }
    intros t.
    eapply triple_weaken with
      (P' := fun st => st = (set_token tok s, bumpOpened (logCall c w)) /\ t = opened w)
      (Q' := fun _ => quiet (Some (opened w)) (S (opened w)) (calls w ++ [c]))
      (E' := quiet (Some (opened w)) (S (opened w)) (calls w ++ [c]));
      [|intros st [H1 H2]; auto | intros a st H; right; exact H | intros st H; right; exact H].
    apply triple_assume. intros ->.
    eapply triple_bind with
      (Q1 := fun _ => quiet (Some (opened w)) (S (opened w)) (calls w ++ [c])).
    { intros st ->. cbn. split; [reflexivity|]. split; [reflexivity|].
      exists []. cbn. split; [now rewrite app_nil_r | constructor]. }
    intros _.
    repeat first [ quiet_step | apply quiet_findActiveTarget | apply quiet_connectToPage
                 | apply quiet_emitPageList | quiet_cases ]. }
  specialize (Hall (s, w) eq_refl).
  assert (Hc : ordinaryOn (Some (opened w)) c) by (split; [reflexivity | discriminate]).
  destruct (connectToBrowser browser host port tok (s, w)) as [[[]|e] st'] eqn:Hrun;
    cbn [fst snd];
    destruct Hall as [(Hb & Ho & extra & Hcalls & Hextra)|(Hb & Ho & extra & Hcalls & Hextra)];
    (split; [exact Ho|]; split; [auto|]; exists (c :: extra);
     rewrite Hcalls, <- app_assoc; split; [reflexivity|]; constructor; [exact Hc|]).
  all: try exact Hextra.
  all: destruct extra as [|x extra]; [constructor|];
       inversion Hextra as [|? ? [Hx _] _]; discriminate Hx.
Qed.
End Lifecycle.

(** *** Facts: the registry and its transports *)

Lemma closeCount_app (t : nat) (cs1 cs2 : list Call) :
  closeCount t (cs1 ++ cs2) = (closeCount t cs1 + closeCount t cs2)%nat.
Proof. unfold closeCount. now rewrite List.filter_app, length_app. Qed.

Lemma closeCount_ordinary (bc : option nat) (t : nat) (cs : list Call) :
  Forall (ordinaryOn bc) cs -> closeCount t cs = 0%nat.
Proof.
  induction 1 as [|c cs [_ Hc] _ IH]; [reflexivity|].
  unfold closeCount in *. cbn [List.filter]. unfold isCloseOn at 1.
  destruct (c_cmd c); try contradiction; rewrite ?andb_false_r; exact IH.
Qed.

Lemma closeCount_closeCall (t t' : nat) :
  closeCount t [closeCall t'] = if decide (t' = t) then 1%nat else 0%nat.
Proof.
  unfold closeCount, isCloseOn. cbn. rewrite andb_true_r.
  destruct (decide (t' = t)) as [->|Hne].
  - now rewrite Nat.eqb_refl.
  - apply Nat.eqb_neq in Hne. now rewrite Hne.
Qed.

Lemma closeCount_above (n t : nat) (cs : list Call) :
  Forall (fun c => (c_transport c < n)%nat) cs -> (n <= t)%nat -> closeCount t cs = 0%nat.
Proof.
  intros H Hle. induction H as [|c cs Hc _ IH]; [reflexivity|].
  unfold closeCount in *. cbn [List.filter]. unfold isCloseOn at 1.
  assert (Hne : (c_transport c =? t)%nat = false) by (apply Nat.eqb_neq; lia).
  rewrite Hne. exact IH.
Qed.

Lemma ordinaryOn_none (cs : list Call) : Forall (ordinaryOn None) cs -> cs = [].
Proof. destruct 1 as [|c cs [Hc _] _]; [reflexivity | discriminate Hc]. Qed.

Lemma registryOk_empty : registryOk (emptyManager, emptyWorld).
Proof.
  split; [|split].
  - intros tok sess t H. cbn in H. rewrite lookup_empty in H. discriminate.
  - intros tok1 tok2 s1 s2 t H. cbn in H. rewrite lookup_empty in H. discriminate.
  - constructor.
Qed.

(** The invariant speaks of the sessions, the calls and the transports only. *)
Lemma registryOk_same (mgr mgr' : Manager) (w w' : World) :
  sessionsByToken mgr' = sessionsByToken mgr -> opened w' = opened w -> calls w' = calls w ->
  registryOk (mgr, w) -> registryOk (mgr', w').
Proof. unfold registryOk. cbn [fst snd]. intros -> -> ->. auto. Qed.

Lemma registryOk_delete (mgr : Manager) (w : World) (tok : string) :
  registryOk (mgr, w) ->
  registryOk (set_sessionsByToken (delete tok (sessionsByToken mgr)) mgr, w).
Proof.
  intros (H1 & H2 & H3). split; [|split]; cbn [fst snd sessionsByToken set_sessionsByToken] in *.
  - intros tok' sess t Hl. apply lookup_delete_Some in Hl as [_ Hl]. eauto.
  - intros tok1 tok2 s1 s2 t Hl1 Hl2.
    apply lookup_delete_Some in Hl1 as [_ Hl1]. apply lookup_delete_Some in Hl2 as [_ Hl2]. eauto.
  - exact H3.
Qed.

(** A session method that is quiet keeps the invariant. *)
Lemma registryOk_quiet (mgr : Manager) (w : World) (tok : string) (sess sess' : Session)
    (w' : World) :
  registryOk (mgr, w) -> sessionsByToken mgr !! tok = Some sess ->
  quiet (browserClient sess) (opened w) (calls w) (sess', w') ->
  registryOk (set_sessionsByToken (<[tok := sess']> (sessionsByToken mgr)) mgr, w').
Proof.
  intros (H1 & H2 & H3) Hsess (Hb & Ho & extra & Hcalls & Hextra).
  cbn [fst snd] in *.
  assert (Hcount : forall t, closeCount t (calls w') = closeCount t (calls w)).
  { intros t. rewrite Hcalls, closeCount_app, (closeCount_ordinary _ _ _ Hextra). lia. }
  split; [|split]; cbn [fst snd sessionsByToken set_sessionsByToken].
  - intros tok' s t Hl Ht. rewrite Ho, Hcount.
    apply lookup_insert_Some in Hl as [[<- <-]|[_ Hl]]; [|eauto].
    apply (H1 tok sess); [exact Hsess | congruence].
  - assert (Hold : forall tok' s t,
               <[tok := sess']> (sessionsByToken mgr) !! tok' = Some s ->
               browserClient s = Some t ->
               exists s0, sessionsByToken mgr !! tok' = Some s0 /\ browserClient s0 = Some t).
    { intros tok' s t Hl Ht. apply lookup_insert_Some in Hl as [[<- <-]|[_ Hl]]; [|eauto].
      exists sess. split; [exact Hsess | congruence]. }
    intros tok1 tok2 s1 s2 t Hl1 Hl2 Ht1 Ht2.
    destruct (Hold _ _ _ Hl1 Ht1) as (s1' & Hl1' & Ht1').
    destruct (Hold _ _ _ Hl2 Ht2) as (s2' & Hl2' & Ht2'). eauto.
  - rewrite Hcalls, Ho. apply Forall_app. split; [exact H3|].
    destruct (browserClient sess) as [t|] eqn:Ht.
    + destruct (H1 tok sess t Hsess Ht) as [Hlt _].
      eapply Forall_impl; [exact Hextra|]. intros c [Hc _]. cbv beta.
      injection Hc as ->. exact Hlt.
    + rewrite (ordinaryOn_none _ Hextra). constructor.
Qed.

Section Registry.
Variable browser : Browser.
Variables host port : string.

Lemma registryOk_disconnect (mgr : Manager) (w : World) (tok : string) (sess : Session) :
  registryOk (mgr, w) -> sessionsByToken mgr !! tok = Some sess ->
  registryOk
    (set_sessionsByToken
       (<[tok := fst (snd (disconnect browser (sess, w)))]> (sessionsByToken mgr)) mgr,
     snd (snd (disconnect browser (sess, w)))).
Proof.
  intros (H1 & H2 & H3) Hsess.
  destruct (disconnect_frame browser sess w) as (Hb & Ho & Hcalls).
  destruct (disconnect browser (sess, w)) as [o [s' w']]. cbn [fst snd] in *.
  assert (Hold : forall tok' s t,
             <[tok := s']> (sessionsByToken mgr) !! tok' = Some s -> browserClient s = Some t ->
             tok' <> tok /\ sessionsByToken mgr !! tok' = Some s).
  { intros tok' s t Hl Ht. apply lookup_insert_Some in Hl as [[<- <-]|[Hne Hl]]; [congruence|].
    split; [congruence | exact Hl]. }
  destruct (browserClient sess) as [t|] eqn:Ht.
  - destruct Hcalls as (extra & Hcalls & Hextra).
    destruct (H1 tok sess t Hsess Ht) as [Hlt _].
    split; [|split]; cbn [fst snd sessionsByToken set_sessionsByToken].
    + intros tok' s t' Hl Ht'. destruct (Hold _ _ _ Hl Ht') as [Hne Hl'].
      destruct (H1 tok' s t' Hl' Ht') as [Hlt' Hzero]. rewrite Ho. split; [exact Hlt'|].
      rewrite Hcalls, !closeCount_app, (closeCount_ordinary _ _ _ Hextra), closeCount_closeCall.
      destruct (decide (t = t')) as [->|_]; [|lia].
      exfalso. apply Hne. exact (H2 tok' tok s sess t' Hl' Hsess Ht' Ht).
    + intros tok1 tok2 s1 s2 t' Hl1 Hl2 Ht1 Ht2.
      destruct (Hold _ _ _ Hl1 Ht1) as [_ Hl1']. destruct (Hold _ _ _ Hl2 Ht2) as [_ Hl2']. eauto.
    + rewrite Hcalls, Ho. apply Forall_app. split; [exact H3|]. apply Forall_app. split.
      * eapply Forall_impl; [exact Hextra|]. intros c [Hc _]. cbv beta.
        injection Hc as ->. exact Hlt.
      * constructor; [exact Hlt | constructor].
  - split; [|split]; cbn [fst snd sessionsByToken set_sessionsByToken].
    + intros tok' s t' Hl Ht'. destruct (Hold _ _ _ Hl Ht') as [Hne Hl'].
      rewrite Ho, Hcalls. eauto.
    + intros tok1 tok2 s1 s2 t' Hl1 Hl2 Ht1 Ht2.
      destruct (Hold _ _ _ Hl1 Ht1) as [_ Hl1']. destruct (Hold _ _ _ Hl2 Ht2) as [_ Hl2']. eauto.
    + rewrite Hcalls, Ho. exact H3.
Qed.

Lemma registryOk_connectToBrowser (mgr : Manager) (w : World) (tok : string) (sess : Session) :
  registryOk (mgr, w) -> sessionsByToken mgr !! tok = Some sess -> browserClient sess = None ->
  registryOk
    (set_sessionsByToken
       (<[tok := fst (snd (connectToBrowser browser host port tok (sess, w)))]>
          (sessionsByToken mgr)) mgr,
     snd (snd (connectToBrowser browser host port tok (sess, w)))).
Proof.
  intros (H1 & H2 & H3) Hsess Hnone.
  destruct (connectToBrowser_frame browser host port tok sess w Hnone)
    as (Ho & Hb & extra & Hcalls & Hextra).
  destruct (connectToBrowser browser host port tok (sess, w)) as [o [s' w']].
  cbn [fst snd] in *.
  assert (Hcount : forall t, closeCount t (calls w') = closeCount t (calls w)).
  { intros t. rewrite Hcalls, closeCount_app, (closeCount_ordinary _ _ _ Hextra). lia. }
  split; [|split]; cbn [fst snd sessionsByToken set_sessionsByToken].
  - intros tok' s t Hl Ht. rewrite Ho, Hcount.
    apply lookup_insert_Some in Hl as [[<- <-]|[_ Hl]].
    + destruct Hb as [Hb|Hb]; [congruence|].
      assert (t = opened w) as -> by congruence.
      split; [lia|]. apply (closeCount_above (opened w)); [exact H3 | lia].
    + destruct (H1 tok' s t Hl Ht). split; [lia | assumption].
  - intros tok1 tok2 s1 s2 t Hl1 Hl2 Ht1 Ht2.
    apply lookup_insert_Some in Hl1 as [[<- <-]|[Hne1 Hl1]];
      apply lookup_insert_Some in Hl2 as [[<- <-]|[Hne2 Hl2]].
    + reflexivity.
    + destruct Hb as [Hb|Hb]; [congruence|].
      assert (t = opened w) as -> by congruence.
      destruct (H1 tok2 s2 _ Hl2 Ht2). lia.
    + destruct Hb as [Hb|Hb]; [congruence|].
      assert (t = opened w) as -> by congruence.
      destruct (H1 tok1 s1 _ Hl1 Ht1). lia.
    + eauto.
  - rewrite Hcalls, Ho. apply Forall_app. split.
    + eapply Forall_impl; [exact H3|]. cbv beta. intros c Hc. lia.
    + eapply Forall_impl; [exact Hextra|]. intros c [Hc _]. cbv beta.
      injection Hc as ->. lia.
Qed.


Local Abbreviation Keeps m := (triple registryOk m (fun _ => registryOk) registryOk).

Lemma keeps_onSession {A : Type} (tok : string) (m : M St A) :
  (forall bc n cs0, triple (quiet bc n cs0) m (fun _ => quiet bc n cs0) (quiet bc n cs0)) ->
  Keeps (onSession tok m).
Proof.
  intros Hm [mgr w] Hok. unfold onSession. cbn [fst snd].
  destruct (sessionsByToken mgr !! tok) as [sess|] eqn:Hsess; [|exact Hok].
  specialize (Hm _ _ _ (sess, w) (quiet_refl sess w)).
  destruct (m (sess, w)) as [[a|e] [s' w']]; cbn [fst snd];
    eapply registryOk_quiet; eauto.
Qed.

Lemma keeps_onSession_disconnect (tok : string) : Keeps (onSession tok (disconnect browser)).
Proof.
  intros [mgr w] Hok. unfold onSession. cbn [fst snd].
  destruct (sessionsByToken mgr !! tok) as [sess|] eqn:Hsess; [|exact Hok].
  pose proof (registryOk_disconnect mgr w tok sess Hok Hsess) as H.
  destruct (disconnect browser (sess, w)) as [[a|e] [s' w']]; exact H.
Qed.

Lemma keeps_updateManager (f : Manager -> Manager) :
  (forall m, sessionsByToken (f m) = sessionsByToken m) -> Keeps (updateManager f).
Proof. intros Hf [mgr w] Hok. cbn. eapply registryOk_same; [apply Hf | | |exact Hok]; reflexivity. Qed.

Lemma keeps_delete (tok : string) :
  Keeps (updateManager (fun m => set_sessionsByToken (delete tok (sessionsByToken m)) m)).
Proof. intros [mgr w] Hok. cbn. now apply registryOk_delete. Qed.

Lemma keeps_ret {A : Type} (a : A) : Keeps (ret a).
Proof. intros st H. exact H. Qed.

Lemma keeps_bind {A B : Type} (m : M MSt A) (k : A -> M MSt B) :
  Keeps m -> (forall a, Keeps (k a)) -> Keeps (bind m k).
Proof. intros Hm Hk. eapply triple_bind; [exact Hm | exact Hk]. Qed.

Lemma keeps_getManager {A : Type} (k : Manager -> M MSt A) :
  (forall mgr, Keeps (k mgr)) -> Keeps (bind getManager k).
Proof. intros Hk [mgr w] H. apply (Hk mgr (mgr, w) H). Qed.

Lemma keeps_when (c : bool) (m : M MSt unit) : Keeps m -> Keeps (when c m).
Proof. intros Hm. destruct c; [exact Hm | apply keeps_ret]. Qed.

Lemma keeps_notifyClient (c : Client) (ev : ClientEvent) : Keeps (notifyClient c ev).
Proof.
  intros [mgr w] Hok. unfold notifyClient, modify. cbn [fst snd].
  destruct (ctype c); [|exact Hok]. eapply registryOk_same; [| | |exact Hok]; reflexivity.
Qed.

Lemma keeps_removeClientFromSession (socket : string) :
  Keeps (removeClientFromSession browser socket).
Proof.
  unfold removeClientFromSession. apply keeps_getManager. intros mgr. cbv zeta.
  apply keeps_bind.
  - destruct (socketTokenMap mgr !! socket) as [tok|]; [|apply keeps_ret].
    destruct (clientsBySocketId mgr !! socket) as [c|]; [|apply keeps_ret].
    destruct (isSet (Some tok)); [|apply keeps_ret].
    destruct (sessionsByToken mgr !! tok); [|apply keeps_ret].
    apply keeps_bind; [apply keeps_onSession; intros; apply quiet_removeClient|].
    intros has. apply keeps_when. apply keeps_bind; [apply keeps_onSession_disconnect|].
    intros _. apply keeps_delete.
  - intros _. apply keeps_bind; [|intros _]; apply keeps_updateManager; reflexivity.
Qed.

Lemma keeps_connectBrowser (socket tok : string) (clientType : ClientType) :
  Keeps (connectBrowser browser host port socket tok clientType).
Proof.
  unfold connectBrowser. apply keeps_getManager. intros mgr0.
  apply keeps_bind; [apply keeps_when, keeps_removeClientFromSession | intros _].
  apply keeps_bind.
  { unfold createClient. apply keeps_getManager. intros mgr1.
    apply keeps_bind; [apply keeps_updateManager; reflexivity | intros _; apply keeps_ret]. }
  intros client.
  apply keeps_bind; [apply keeps_updateManager; reflexivity | intros _].
  apply keeps_bind; [apply keeps_updateManager; reflexivity | intros _].
  apply keeps_getManager. intros mgr.
  destruct (sessionsByToken mgr !! tok).
  - apply keeps_bind; [apply keeps_onSession; intros; apply quiet_addClient | intros _].
    apply keeps_bind; [apply keeps_notifyClient | intros _; apply keeps_ret].
  - intros [mgr2 w2] Hok.
    rewrite (bind_run _ _ _ (mgr2, w2)
               (tt, match ctype client with
                    | VIEWER => set_viewerClients [client] newSession
                    | API => set_apiClients [client] newSession
                    end)).
    2:{ unfold onFresh. cbn [fst snd]. rewrite (addClient_fresh browser client w2). reflexivity. }
    unfold bind at 1. cbn [updateManager modify fst snd].
    set (added := match ctype client with
                  | VIEWER => set_viewerClients [client] newSession
                  | API => set_apiClients [client] newSession
                  end).
    set (mgr3 := set_sessionsByToken (<[tok := added]> (sessionsByToken mgr2)) mgr2).
    assert (Hadded : browserClient added = None) by (subst added; destruct (ctype client); reflexivity).
    assert (Hok3 : registryOk (mgr3, w2)).
    { destruct Hok as (H1 & H2 & H3). cbn [fst snd] in *.
      split; [|split]; cbn [fst snd]; [| |exact H3].
      - intros tok' s t Hl Ht. cbn in Hl.
        apply lookup_insert_Some in Hl as [[<- <-]|[_ Hl]]; [congruence | eauto].
      - intros tok1 tok2 s1 s2 t Hl1 Hl2 Ht1 Ht2. cbn in Hl1, Hl2.
        apply lookup_insert_Some in Hl1 as [[<- <-]|[_ Hl1]]; [congruence|].
        apply lookup_insert_Some in Hl2 as [[<- <-]|[_ Hl2]]; [congruence | eauto]. }
    assert (Hs3 : sessionsByToken mgr3 !! tok = Some added) by (cbn; apply lookup_insert_eq).
    pose proof (registryOk_connectToBrowser mgr3 w2 tok added Hok3 Hs3 Hadded) as Hfinal.
    unfold bind. rewrite (onSession_run tok _ mgr3 w2 added Hs3).
    destruct (connectToBrowser browser host port tok (added, w2)) as [[[]|e] [s' w']];
      exact Hfinal.
Qed.

Lemma registryOk_serveAll (rs : list Request) (st : MSt) :
  registryOk st -> registryOk (serveAll browser host port rs st).
Proof.
  revert st. induction rs as [|r rs IH]; intros st Hok; [exact Hok|].
  cbn [serveAll foldl]. apply IH. destruct r as [socket tok clientType|socket|tok i]; cbn [serve].
  - pose proof (keeps_connectBrowser socket tok clientType st Hok) as H.
    destruct (connectBrowser browser host port socket tok clientType st) as [[a|e] st']; exact H.
  - pose proof (keeps_removeClientFromSession socket st Hok) as H. unfold disconnectBrowser.
    destruct (removeClientFromSession browser socket st) as [[a|e] st']; exact H.
  - pose proof (keeps_onSession tok (settle i) (fun bc n cs0 => quiet_settle bc n cs0 i) st Hok)
      as H.
    destruct (onSession tok (settle i) st) as [[a|e] st']; exact H.
Qed.

(** C8, as amended.  In a registry reached from the empty one by any
    sequence of attaches and detaches served one at a time, each handler
    completing before the next event: when a socket attached under a
    non-empty token detaches, the session of the token holds a transport and
    [removeClient] reports that no client is left in it, then over the whole
    history [close()] has been invoked exactly once on that transport, and
    the token is absent from [sessionsByToken]. *)
Theorem last_detach_closes_once (rs : list Request) (socket tok : string) (client : Client)
    (sess : Session) (t : nat) :
  let st := serveAll browser host port rs (emptyManager, emptyWorld) in
  socketTokenMap (fst st) !! socket = Some tok -> tok <> "" ->
  clientsBySocketId (fst st) !! socket = Some client ->
  sessionsByToken (fst st) !! tok = Some sess ->
  browserClient sess = Some t ->
  fst (removeClient browser client (sess, snd st)) = Return false ->
  let st' := snd (disconnectBrowser browser socket st) in
  closeCount t (calls (snd st')) = 1%nat
  /\ sessionsByToken (fst st') !! tok = None.
Proof.
  intros st Htok Hne Hclient Hsess Ht Hlast.
  assert (Hok : registryOk st) by apply registryOk_serveAll, registryOk_empty.
  destruct st as [mgr w]. cbn [fst snd] in *. cbv zeta.
  destruct Hok as (H1 & _ & _). cbn [fst snd] in H1.
  destruct (H1 tok sess t Hsess Ht) as [_ Hzero].
  pose proof (quiet_removeClient browser _ _ _ client (sess, w) (quiet_refl sess w)) as Hq.
  destruct (removeClient browser client (sess, w)) as [o [s1 w1]] eqn:Hrm.
  cbn [fst] in Hlast. subst o.
  destruct Hq as (Hb1 & Ho1 & extra1 & Hc1 & Hextra1). cbn [fst snd] in *.
  destruct (disconnect_frame browser s1 w1) as (Hb2 & Ho2 & Hc2).
  rewrite Hb1, Ht in Hc2. destruct Hc2 as (extra2 & Hc2 & Hextra2).
  destruct (returns_run _ (s1, w1) (returns_disconnect browser)) as ([] & [s2 w2] & Hdis).
  rewrite Hdis in *. cbn [fst snd] in *.
  pose proof (onSession_run tok (removeClient browser client) mgr w sess Hsess) as Hon.
  rewrite Hrm in Hon. cbn [fst snd] in Hon.
  set (mgr1 := set_sessionsByToken (<[tok:=s1]> (sessionsByToken mgr)) mgr) in *.
  assert (Hs1 : sessionsByToken mgr1 !! tok = Some s1) by (cbn; apply lookup_insert_eq).
  pose proof (onSession_run tok (disconnect browser) mgr1 w1 s1 Hs1) as Hon2.
  rewrite Hdis in Hon2. cbn [fst snd] in Hon2.
  unfold disconnectBrowser, removeClientFromSession.
  rewrite (bind_run _ _ _ _ _ (eq_refl : getManager (mgr, w) = (Return mgr, (mgr, w)))).
  cbv zeta. rewrite Htok, Hclient, Hsess.
  assert (Hset : isSet (Some tok) = true).
  { destruct tok; [contradiction | reflexivity]. }
  rewrite Hset.
  set (mgr2 := set_sessionsByToken (<[tok:=s2]> (sessionsByToken mgr1)) mgr1) in *.
  assert (Hbody :
    bind (onSession tok (removeClient browser client)) (fun hasOtherConnections =>
      when (negb hasOtherConnections)
        (bind (onSession tok (disconnect browser)) (fun _ =>
           updateManager (fun m => set_sessionsByToken (delete tok (sessionsByToken m)) m))))
      (mgr, w)
    = (Return tt, (set_sessionsByToken (delete tok (sessionsByToken mgr2)) mgr2, w2))).
  { rewrite (bind_run _ _ _ _ _ Hon). cbn [negb when].
    rewrite (bind_run _ _ _ _ _ Hon2). reflexivity. }
  rewrite (bind_run _ _ _ _ _ Hbody). cbn.
  split; [|apply lookup_delete_eq].
  rewrite Hc2, Hc1, !closeCount_app, Hzero, (closeCount_ordinary _ _ _ Hextra1),
    (closeCount_ordinary _ _ _ Hextra2), closeCount_closeCall.
  destruct (decide (t = t)); [reflexivity | contradiction].
Qed.

End Registry.

Lemma last_detach_closes_once_witness :
  let st := serveAll sampleBrowser "localhost" "9222" oneViewer (emptyManager, emptyWorld) in
  let st' := snd (disconnectBrowser sampleBrowser "v" st) in
  sessionsByToken (fst st) !! "T" = Some servedSession
  /\ closeCount 0 (calls (snd st')) = 1%nat
  /\ sessionsByToken (fst st') !! "T" = None.
Proof.
  cbv zeta. split; [vm_compute; reflexivity|].
  apply (last_detach_closes_once sampleBrowser "localhost" "9222" oneViewer "v" "T"
           soleViewer servedSession 0%nat).
  - vm_compute. reflexivity.
  - discriminate.
  - vm_compute. reflexivity.
  - vm_compute. reflexivity.
  - reflexivity.
  - vm_compute. reflexivity.
Defined.

(** C8 as stated fails for a session that holds no transport.  The session
    whose connection was refused stays registered; when its only client
    detaches, no client is left, the token is removed, and [close()] has not
    been invoked at all: the opening of the connection is the only call of
    the history. *)
Lemma refused_session_closes_nothing :
  let st := serveAll refuseConnect "localhost" "9222" oneViewer (emptyManager, emptyWorld) in
  let st' := snd (disconnectBrowser refuseConnect "v" st) in
  socketTokenMap (fst st) !! "v" = Some "T"
  /\ clientsBySocketId (fst st) !! "v" = Some soleViewer
  /\ (exists sess,
        sessionsByToken (fst st) !! "T" = Some sess
        /\ browserClient sess = None
        /\ viewerClients sess = [soleViewer] /\ apiClients sess = []
        /\ fst (removeClient refuseConnect soleViewer (sess, snd st)) = Return false)
  /\ sessionsByToken (fst st') !! "T" = None
  /\ c_cmd <$> calls (snd st') = [Connect "ws://localhost:9222/browser?token=T"].
Proof.
  cbv zeta. split; [vm_compute; reflexivity|]. split; [vm_compute; reflexivity|].
  split.
  - eexists. split; [vm_compute; reflexivity|]. repeat split.
  - split; vm_compute; reflexivity.
Qed.

(** Why the handlers are taken one at a time.  The handlers of
    [browser:disconnect] and of the socket's [disconnect] are [async] and
    nothing keeps the second from starting while the first is suspended.
    Here the second detach of the socket starts while the first waits in
    [disconnect()]: the maps are as they were, [removeClient] reports again
    that no client is left, and [disconnect()] is called a second time on the
    same session, which stays registered under its token all along.  The
    outcomes then arrive in the order the commands were sent, and each
    suspended call goes on in its turn: the two [tryStopScreencast()] clear
    the flag, the two [disconnect()] send their [detachFromTarget], and both
    find [browserClient] set, which is cleared only after the [await] of
    [close()]: [close()] is invoked twice on the one transport. *)
Example overlapping_detaches_close_twice :
  let st0 := serveAll sampleBrowser "localhost" "9222" oneViewer (emptyManager, emptyWorld) in
  let stop := StopAwaited (Return P_empty) in
  let detach := DetachAwaited (Return P_empty) in
  let close := CloseAwaited (Return P_empty) in
  let first1 := removeClientFromSession_begin sampleBrowser "v" st0 in
  let second1 := removeClientFromSession_begin sampleBrowser "v" (snd first1) in
  let flag1 := onSession "T" (settle 0) (snd second1) in
  let first2 := onSession "T" (disconnect_resume sampleBrowser stop) (snd flag1) in
  let flag2 := onSession "T" (settle 0) (snd first2) in
  let second2 := onSession "T" (disconnect_resume sampleBrowser stop) (snd flag2) in
  let first3 := onSession "T" (disconnect_resume sampleBrowser detach) (snd second2) in
  let second3 := onSession "T" (disconnect_resume sampleBrowser detach) (snd first3) in
  fst first1 = Return (Some ("T", Some stop))
  /\ socketTokenMap (fst (snd first1)) !! "v" = Some "T"
  /\ clientsBySocketId (fst (snd first1)) !! "v" = Some soleViewer
  /\ fst second1 = Return (Some ("T", Some stop))
  /\ fst first2 = Return (Some detach) /\ fst second2 = Return (Some detach)
  /\ fst first3 = Return (Some close) /\ fst second3 = Return (Some close)
  /\ is_Some (sessionsByToken (fst (snd second3)) !! "T")
  /\ closeCount 0 (calls (snd (snd second3))) = 2%nat
  /\ c_cmd <$> calls (snd (snd second3))
     = [ Connect "ws://localhost:9222/browser?token=T"; Target_setDiscoverTargets true;
         Target_getTargets; Target_createTarget "about:blank";
         Target_attachToTarget "P0" true; Page_enable; Runtime_enable; Page_getFrameTree;
         Emulation_setDeviceMetricsOverride; Page_startScreencast; Target_getTargets;
         Page_stopScreencast; Page_stopScreencast; Page_stopScreencast; Page_stopScreencast;
         Target_detachFromTarget (Some "S-P0"); Target_detachFromTarget (Some "S-P0");
         Close; Close ].
Proof.
  cbv zeta. repeat split; try (vm_compute; reflexivity).
  eexists. vm_compute. reflexivity.
Qed.

End SessionManager.

(** ** Properties of the key mapper *)

Module KeyMapper.
Import Js Keys.

(** X1. [getModifierFlags] packs the four modifiers into four bits: bit 0 is
    [alt], bit 1 [ctrl], bit 2 [meta], bit 3 [shift], and no other bit is set.
    Each modifier can be read back from the flags. *)
Theorem getModifierFlags_bits (m : KeyModifiers) :
  Z.testbit (getModifierFlags m) 0 = alt m
  /\ Z.testbit (getModifierFlags m) 1 = ctrl m
  /\ Z.testbit (getModifierFlags m) 2 = meta m
  /\ Z.testbit (getModifierFlags m) 3 = shift m
  /\ 0 <= getModifierFlags m < 16.
Proof.
  destruct m as [[] [] [] []]; vm_compute; repeat split; discriminate.
Qed.

Lemma eqb_long_single (a b c : ascii) (s : string) :
  String.eqb (String a (String b s)) (String c "") = false.
Proof. cbn. destruct (Ascii.eqb a c); reflexivity. Qed.

Lemma lookupKey_single (c : ascii) : lookupKey (String c "") KEY_CODE_MAP = None.
Proof. unfold KEY_CODE_MAP. cbn [lookupKey]. rewrite !eqb_long_single. reflexivity. Qed.

(** X2. [getKeyCode] of a single letter does not depend on its case nor on
    the [code] argument: the lower-case and the upper-case letter both map to
    the character code of the upper-case letter. *)
Theorem getKeyCode_letter_case (upper lower : ascii) (code code' : string) :
  charCode "A" <= charCode upper <= charCode "Z" ->
  charCode lower = charCode upper + 32 ->
  getKeyCode (String lower "") code = charCode upper
  /\ getKeyCode (String upper "") code' = charCode upper.
Proof.
  intros Hu Hl. unfold getKeyCode. rewrite !lookupKey_single.
  change (charCode "a") with 97 in *. change (charCode "z") with 122 in *.
  change (charCode "A") with 65 in *. change (charCode "Z") with 90 in *.
  change (charCode "0") with 48 in *. change (charCode "9") with 57 in *.
  split.
  - rewrite Hl. replace (97 <=? charCode upper + 32) with true by (symmetry; apply Z.leb_le; lia).
    replace (charCode upper + 32 <=? 122) with true by (symmetry; apply Z.leb_le; lia).
    cbn. lia.
  - replace (97 <=? charCode upper) with false by (symmetry; apply Z.leb_gt; lia).
    replace (65 <=? charCode upper) with true by (symmetry; apply Z.leb_le; lia).
    replace (charCode upper <=? 90) with true by (symmetry; apply Z.leb_le; lia).
    reflexivity.
Qed.

Lemma getKeyCode_letter_case_witness :
  getKeyCode "q" "KeyQ" = 81 /\ getKeyCode "Q" "KeyQ" = 81.
Proof.
  apply (getKeyCode_letter_case "Q" "q" "KeyQ" "KeyQ"); vm_compute; [split; discriminate | reflexivity].
Defined.

End KeyMapper.

(** ** Structure of the filtered accessibility tree *)

Module Snapshot.
Import Js A11y.

(** The node [filterInterestingNodes] pushes for a kept [node]. *)
Definition keptNode (ids : gset string) (node : AXNode) : AXNode :=
  {| nodeId := nodeId node; ignored := ignored node; role := role node;
     name := name node; description := description node; value := value node;
     properties := properties node;
     childIds := match childIds node with
                 | Some cs =>
                     match List.filter (fun id => bool_decide (id ∈ ids)) cs with
                     | [] => None
                     | cs' => Some cs'
                     end
                 | None => None
                 end;
     backendDOMNodeId := backendDOMNodeId node |}.

(** Every member of [ids] whose parent is a non-empty id has that parent in
    [ids]. *)
Definition parentClosed (childrenMap : list (string * list string)) (ids : gset string) : Prop :=
  forall id p, id ∈ ids -> getParent childrenMap id = Some p -> p <> "" -> p ∈ ids.

(** The same, except for members whose parent is [q], the id the loop of
    [markAncestorsInteresting] is about to look at. *)
Definition parentPending (childrenMap : list (string * list string)) (q : option string)
    (ids : gset string) : Prop :=
  forall id p, id ∈ ids -> getParent childrenMap id = Some p -> p <> "" -> p ∈ ids \/ q = Some p.

(** Every id of the set is the id of a node of the list. *)
Definition fromNodes (nodes : list AXNode) (ids : gset string) : Prop :=
  forall id, id ∈ ids -> exists node, node ∈ nodes /\ nodeId node = id.

(** Along every child edge of the list the rank goes down: the list
    describes an acyclic graph. *)
Definition ranked (rank : string -> nat) (nodes : list AXNode) : Prop :=
  forall node cs c, node ∈ nodes -> childIds node = Some cs -> c ∈ cs ->
                    (rank c < rank (nodeId node))%nat.

Definition depthRank (id : string) : nat :=
  if String.eqb id "1" then 2%nat else if String.eqb id "2" then 1%nat else 0%nat.

Lemma truthy_id_Some (q : option string) (p : string) :
  truthy_id q = Some p <-> q = Some p /\ p <> "".
Proof.
  destruct q as [s|]; cbn; [|split; [discriminate | intros [? _]; discriminate]].
  destruct (String.eqb_spec s ""); split.
  - discriminate.
  - intros [[= ->] Hne]. contradiction.
  - intros [= ->]. auto.
  - intros [[= ->] _]. reflexivity.
Qed.

Lemma truthy_id_None (q : option string) (p : string) :
  truthy_id q = None -> q = Some p -> p = "".
Proof.
  intros H ->. cbn in H. destruct (String.eqb_spec p ""); [assumption | discriminate].
Qed.

Lemma omap_set_entry {V : Type} (k : string) (v : V) (m : list (string * V)) (k' : string) (v' : V) :
  (k', v') ∈ omap_set k v m -> (k', v') = (k, v) \/ (k', v') ∈ m.
Proof.
  induction m as [|[k0 v0] m IH]; cbn.
  - intros ->%list_elem_of_singleton. now left.
  - destruct (String.eqb k0 k).
    + intros [->|H]%elem_of_cons; [now left | right; now right].
    + intros [->|H]%elem_of_cons; [right; now left|].
      destruct (IH H) as [->|H']; [now left | right; now right].
Qed.

Lemma foldl_invariant {A B : Type} (P : A -> Prop) (f : A -> B -> A) (l : list B) (a : A) :
  P a -> (forall a b, b ∈ l -> P a -> P (f a b)) -> P (foldl f a l).
Proof.
  revert a. induction l as [|b l IH]; intros a Ha Hstep; [exact Ha|].
  cbn. apply IH.
  - apply Hstep; [now left | exact Ha].
  - intros a' b' Hb'. apply Hstep. now right.
Qed.

(** An entry of the children map comes from a node of the list. *)
Lemma buildChildrenMap_entry (nodes : list AXNode) (k : string) (cs : list string) :
  (k, cs) ∈ buildChildrenMap nodes ->
  exists node, node ∈ nodes /\ nodeId node = k /\ childIds node = Some cs.
Proof.
  unfold buildChildrenMap. revert k cs.
  apply (foldl_invariant
           (fun m => forall k cs, (k, cs) ∈ m ->
              exists node, node ∈ nodes /\ nodeId node = k /\ childIds node = Some cs)).
  - intros k cs H. inversion H.
  - intros m node Hnode IH k cs H.
    destruct (childIds node) as [cs0|] eqn:Hcs; [|now apply IH].
    apply omap_set_entry in H as [[= -> ->]|H]; [|now apply IH].
    exists node. auto.
Qed.

(** An entry of the node map is a node of the list, under its own id. *)
Lemma buildNodeMap_lookup (nodes : list AXNode) (id : string) (node : AXNode) :
  buildNodeMap nodes !! id = Some node -> node ∈ nodes /\ nodeId node = id.
Proof.
  unfold buildNodeMap. revert id node.
  apply (foldl_invariant
           (fun m : gmap string AXNode => forall id node, m !! id = Some node ->
              node ∈ nodes /\ nodeId node = id)).
  - intros id node H. rewrite lookup_empty in H. discriminate.
  - intros m n Hn IH id node H.
    apply lookup_insert_Some in H as [[<- <-]|[_ H]]; [auto | now apply IH].
Qed.

Lemma getParent_entry (childrenMap : list (string * list string)) (id p : string) :
  getParent childrenMap id = Some p ->
  exists cs, (p, cs) ∈ childrenMap /\ id ∈ cs.
Proof.
  unfold getParent. destruct (List.find _ childrenMap) as [[k cs]|] eqn:Hfind; [|discriminate].
  intros [= <-]. apply find_some in Hfind as [Hin Hex]. exists cs. split.
  - now apply list_elem_of_In.
  - cbn in Hex. apply existsb_exists in Hex as (x & Hx & Heq).
    apply String.eqb_eq in Heq as ->. now apply list_elem_of_In.
Qed.

Section Collect.
Variable nodes : list AXNode.

Local Abbreviation nodeMap := (buildNodeMap nodes).
Local Abbreviation childrenMap := (buildChildrenMap nodes).

Lemma markLoop_fromNodes (fuel : nat) :
  forall (q : option string) (ids ids' : gset string),
    (forall p, q = Some p -> p ∈ (fst <$> childrenMap)) ->
    fromNodes nodes ids -> markLoop fuel childrenMap q ids = Some ids' -> fromNodes nodes ids'.
Proof.
  assert (Hstep : forall p ids, p ∈ (fst <$> childrenMap) -> fromNodes nodes ids ->
                                fromNodes nodes ({[p]} ∪ ids)).
  { intros p ids Hp Hids id [->%elem_of_singleton|Hid]%elem_of_union; [|now apply Hids].
    apply list_elem_of_fmap in Hp as ([k cs] & -> & Hin).
    destruct (buildChildrenMap_entry nodes k cs Hin) as (node & Hn & Hk & _). eauto. }
  induction fuel as [|fuel IH]; intros q ids ids' Hq Hids; cbn.
  - destruct (truthy_id q) as [p|]; [|now intros [= <-]].
    destruct (decide (p ∈ ids)); [now intros [= <-] | discriminate].
  - destruct (truthy_id q) as [p|] eqn:Hp; [|now intros [= <-]].
    destruct (decide (p ∈ ids)); [now intros [= <-]|].
    apply truthy_id_Some in Hp as [-> _].
    apply IH; [intros p'; apply getParent_key | apply Hstep; auto].
Qed.

Lemma markLoop_parentClosed (fuel : nat) :
  forall (q : option string) (ids ids' : gset string),
    parentPending childrenMap q ids ->
    markLoop fuel childrenMap q ids = Some ids' -> parentClosed childrenMap ids'.
Proof.
  assert (Hdone : forall q ids,
            parentPending childrenMap q ids ->
            (forall p, q = Some p -> p <> "" -> p ∈ ids) -> parentClosed childrenMap ids).
  { intros q ids Hpend Hq id p Hid Hpar Hne.
    destruct (Hpend id p Hid Hpar Hne) as [Hin | ->]; auto. }
  induction fuel as [|fuel IH]; intros q ids ids' Hpend; cbn.
  - destruct (truthy_id q) as [p|] eqn:Hp.
    + destruct (decide (p ∈ ids)); [|discriminate]. intros [= <-].
      apply (Hdone q); [exact Hpend|]. intros p' -> Hne.
      apply truthy_id_Some in Hp as [[= ->] _]. assumption.
    + intros [= <-]. apply (Hdone q); [exact Hpend|]. intros p' Hq Hne.
      elim Hne. now apply (truthy_id_None q).
  - destruct (truthy_id q) as [p|] eqn:Hp.
    + apply truthy_id_Some in Hp as [-> Hpne].
      destruct (decide (p ∈ ids)).
      * intros [= <-]. apply (Hdone (Some p)); [exact Hpend|]. now intros p' [= <-] _.
      * apply IH. intros id p' [->%elem_of_singleton|Hid]%elem_of_union Hpar Hne.
        -- now right.
        -- destruct (Hpend id p' Hid Hpar Hne) as [|[= ->]]; left;
             apply elem_of_union; [now right | left; now apply elem_of_singleton].
    + intros [= <-]. apply (Hdone q); [exact Hpend|]. intros p' Hq Hne.
      elim Hne. now apply (truthy_id_None q).
Qed.

Lemma collectInterestingNodes_keeps (fuel : nat) :
  forall (id : option string) (ids ids' : gset string) (insideControl : bool),
    fromNodes nodes ids /\ parentClosed childrenMap ids ->
    collectInterestingNodes fuel id nodeMap childrenMap ids insideControl = Some ids' ->
    fromNodes nodes ids' /\ parentClosed childrenMap ids'.
Proof.
  induction fuel as [|fuel IH]; intros id ids ids' ic Hinv; cbn [collectInterestingNodes];
    [discriminate|].
  destruct (truthy_id id) as [i|] eqn:Hi; [|now intros [= <-]].
  destruct (nodeMap !! i) as [node|] eqn:Hnode; [|now intros [= <-]].
  destruct (if isInterestingNode node nodeMap childrenMap ic
            then markAncestorsInteresting childrenMap i ({[i]} ∪ ids)
            else Some ids) as [ids1|] eqn:Hmark.
  2:{ rewrite forEach_None. discriminate. }
  assert (Hinv1 : fromNodes nodes ids1 /\ parentClosed childrenMap ids1).
  { destruct (isInterestingNode node nodeMap childrenMap ic); [|injection Hmark as <-; exact Hinv].
    destruct Hinv as [Hfrom Hclosed]. unfold markAncestorsInteresting in Hmark. split.
    - eapply markLoop_fromNodes; [| |exact Hmark].
      + intros p. apply getParent_key.
      + intros x [->%elem_of_singleton|Hx]%elem_of_union; [|now apply Hfrom].
        destruct (buildNodeMap_lookup nodes i node Hnode). eauto.
    - eapply markLoop_parentClosed; [|exact Hmark].
      intros x p [->%elem_of_singleton|Hx]%elem_of_union Hpar Hne; [now right|].
      left. apply elem_of_union. right. eapply Hclosed; eauto. }
  apply (forEach_invariant (fun s => fromNodes nodes s /\ parentClosed childrenMap s)); [|exact Hinv1].
  intros s c s' _ Hs Hbody. eapply IH; eauto.
Qed.

End Collect.

Lemma interestingIdsOf_keeps (fuel : nat) (nodes : list AXNode) (ids : gset string) :
  interestingIdsOf fuel nodes = Some ids ->
  fromNodes nodes ids /\ parentClosed (buildChildrenMap nodes) ids.
Proof.
  unfold interestingIdsOf. apply collectInterestingNodes_keeps. split.
  - intros id Hid. apply elem_of_empty in Hid as [].
  - intros id p Hid. apply elem_of_empty in Hid as [].
Qed.

Lemma filterInterestingNodes_out (fuel : nat) (nodes out : list AXNode) :
  filterInterestingNodes fuel nodes = Some out ->
  exists ids, interestingIdsOf fuel nodes = Some ids
              /\ forall n, n ∈ out <-> exists node, node ∈ nodes /\ nodeId node ∈ ids
                                                    /\ n = keptNode ids node.
Proof.
  unfold filterInterestingNodes, interestingIdsOf.
  destruct (collectInterestingNodes _ _ _ _ _ _) as [ids|]; [|discriminate].
  intros [= <-]. exists ids. split; [reflexivity|]. intros n.
  rewrite list_elem_of_omap. split.
  - intros (node & Hnode & Hkept). exists node.
    destruct (decide (nodeId node ∈ ids)); [|discriminate].
    injection Hkept as <-. auto.
  - intros (node & Hnode & Hid & ->). exists node. split; [exact Hnode|].
    destruct (decide (nodeId node ∈ ids)); [reflexivity | contradiction].
Qed.

Lemma keptNode_childIds (ids : gset string) (node : AXNode) (cs : list string) :
  childIds (keptNode ids node) = Some cs ->
  cs <> [] /\ exists cs0, childIds node = Some cs0
                          /\ cs = List.filter (fun id => bool_decide (id ∈ ids)) cs0.
Proof.
  cbn. destruct (childIds node) as [cs0|]; [|discriminate].
  destruct (List.filter _ cs0) as [|c cs'] eqn:Hf; [discriminate|].
  intros [= <-]. split; [discriminate|]. exists cs0. auto.
Qed.

(** X3. The list [filterInterestingNodes] returns has no dangling child: a
    node of it never has an empty [childIds] array, and every id of its
    [childIds] is the id of a node of the returned list. *)
Theorem filterInterestingNodes_children_kept (fuel : nat) (nodes out : list AXNode) :
  filterInterestingNodes fuel nodes = Some out ->
  forall n cs, n ∈ out -> childIds n = Some cs ->
    cs <> [] /\ forall c, c ∈ cs -> exists child, child ∈ out /\ nodeId child = c.
Proof.
  intros Hrun n cs Hn Hcs.
  destruct (filterInterestingNodes_out fuel nodes out Hrun) as (ids & Hids & Hout).
  destruct (interestingIdsOf_keeps fuel nodes ids Hids) as [Hfrom _].
  apply Hout in Hn as (node & Hnode & Hid & ->).
  apply keptNode_childIds in Hcs as (Hne & cs0 & Hcs0 & ->). split; [exact Hne|].
  intros c Hc. apply list_elem_of_In, filter_In in Hc as [_ Hc].
  apply bool_decide_eq_true in Hc.
  destruct (Hfrom c Hc) as (child & Hchild & Hcid).
  exists (keptNode ids child). split; [|exact Hcid].
  apply Hout. exists child. rewrite Hcid. auto.
Qed.

(** X4. The list [filterInterestingNodes] returns is closed under the parent
    lookup of [collectInterestingNodes]: when some node of the input lists a
    kept node among its [childIds], the first such node in the order of the
    children map (the one the lookup finds), if its id is not empty, is kept
    too and still lists the node among its [childIds].  Another node that
    lists the kept node as well need not be kept. *)
Theorem filterInterestingNodes_parent_kept (fuel : nat) (nodes out : list AXNode) :
  filterInterestingNodes fuel nodes = Some out ->
  forall n p, n ∈ out -> getParent (buildChildrenMap nodes) (nodeId n) = Some p -> p <> "" ->
    exists parent cs, parent ∈ out /\ nodeId parent = p
                      /\ childIds parent = Some cs /\ nodeId n ∈ cs.
Proof.
  intros Hrun n p Hn Hpar Hne.
  destruct (filterInterestingNodes_out fuel nodes out Hrun) as (ids & Hids & Hout).
  destruct (interestingIdsOf_keeps fuel nodes ids Hids) as [_ Hclosed].
  apply Hout in Hn as (node & Hnode & Hid & ->). cbn [nodeId keptNode] in *.
  pose proof (Hclosed _ _ Hid Hpar Hne) as Hp.
  destruct (getParent_entry _ _ _ Hpar) as (cs0 & Hentry & Hin).
  destruct (buildChildrenMap_entry nodes p cs0 Hentry) as (pnode & Hpnode & Hpid & Hpcs).
  assert (Hkept : nodeId node ∈ List.filter (fun id => bool_decide (id ∈ ids)) cs0).
  { apply list_elem_of_In, filter_In. split; [now apply list_elem_of_In|].
    now apply bool_decide_eq_true. }
  exists (keptNode ids pnode), (List.filter (fun id => bool_decide (id ∈ ids)) cs0).
  split; [|split; [exact Hpid|split; [|exact Hkept]]].
  - apply Hout. exists pnode. rewrite Hpid. auto.
  - cbn. rewrite Hpcs. destruct (List.filter _ cs0) as [|c cs']; [inversion Hkept | reflexivity].
Qed.

Lemma filterInterestingNodes_children_kept_witness :
  exists out, filterInterestingNodes 10 headingInLink = Some out
    /\ forall n cs, n ∈ out -> childIds n = Some cs ->
         cs <> [] /\ forall c, c ∈ cs -> exists child, child ∈ out /\ nodeId child = c.
Proof.
  eexists. split; [vm_compute; reflexivity|].
  apply (filterInterestingNodes_children_kept 10 headingInLink). vm_compute. reflexivity.
Defined.

Lemma filterInterestingNodes_parent_kept_witness :
  exists out, filterInterestingNodes 10 headingInLink = Some out
    /\ forall n p, n ∈ out -> getParent (buildChildrenMap headingInLink) (nodeId n) = Some p ->
         p <> "" ->
         exists parent cs, parent ∈ out /\ nodeId parent = p
                           /\ childIds parent = Some cs /\ nodeId n ∈ cs.
Proof.
  eexists. split; [vm_compute; reflexivity|].
  apply (filterInterestingNodes_parent_kept 10 headingInLink). vm_compute. reflexivity.
Defined.

Lemma omap_get_entry {V : Type} (k : string) (v : V) (m : list (string * V)) :
  omap_get k m = Some v -> (k, v) ∈ m.
Proof.
  induction m as [|[k0 v0] m IH]; cbn; [discriminate|].
  destruct (String.eqb_spec k0 k) as [->|Hne].
  - intros [= ->]. now left.
  - intros H. right. now apply IH.
Qed.

Lemma ranked_maps (rank : string -> nat) (nodes : list AXNode) :
  ranked rank nodes ->
  forall p c, c ∈ childrenOf (buildChildrenMap nodes) p -> (rank c < rank p)%nat.
Proof.
  intros Hrank p c. unfold childrenOf.
  destruct (omap_get p (buildChildrenMap nodes)) as [cs|] eqn:Hget; cbn; [|inversion 1].
  intros Hc. apply omap_get_entry, buildChildrenMap_entry in Hget as (node & Hnode & <- & Hcs).
  eapply Hrank; eauto.
Qed.

Lemma ranked_kept (rank : string -> nat) (nodes out : list AXNode) (fuel : nat) :
  ranked rank nodes -> filterInterestingNodes fuel nodes = Some out -> ranked rank out.
Proof.
  intros Hrank Hrun n cs c Hn Hcs Hc.
  destruct (filterInterestingNodes_out fuel nodes out Hrun) as (ids & _ & Hout).
  destruct (proj1 (Hout n) Hn) as (node & Hnode & _ & Heq). subst n.
  apply keptNode_childIds in Hcs as (_ & cs0 & Hcs0 & ->).
  apply list_elem_of_In, filter_In in Hc as [Hc _]. apply list_elem_of_In in Hc.
  exact (Hrank node cs0 c Hnode Hcs0 Hc).
Qed.

Lemma compressedLines_total (rank : string -> nat) (nodes : list AXNode) (fuel : nat) :
  ranked rank nodes -> (forall node, node ∈ nodes -> (rank (nodeId node) <= fuel)%nat) ->
  is_Some (compressedLines (S fuel) nodes).
Proof.
  intros Hrank Hfuel. unfold compressedLines. destruct nodes as [|first rest]; [eauto|].
  destruct (String.eqb (nodeId first) ""); [eauto|].
  apply (buildCompressedTree_total _ _ rank).
  - intros p c _. now apply ranked_maps.
  - apply Nat.lt_succ_r, Hfuel. now left.
Qed.

Lemma filterInterestingNodes_total (rank : string -> nat) (nodes : list AXNode) (fuel : nat) :
  ranked rank nodes -> (forall node, node ∈ nodes -> (rank (nodeId node) <= fuel)%nat) ->
  is_Some (filterInterestingNodes (S fuel) nodes).
Proof.
  intros Hrank Hfuel. unfold filterInterestingNodes.
  assert (H : is_Some (collectInterestingNodes (S fuel) (nodeId <$> head nodes)
                         (buildNodeMap nodes) (buildChildrenMap nodes) ∅ false)).
  { destruct nodes as [|first rest]; [cbn; eauto|].
    apply (collectInterestingNodes_total _ _ rank).
    - intros p c _. now apply ranked_maps.
    - apply Nat.lt_succ_r, Hfuel. now left. }
  cbv zeta. destruct H as [ids Hids]. rewrite Hids. eauto.
Qed.

(** X5. On a node list whose child edges form no cycle (some rank decreases
    along every edge) the rendering of [getSnapshot], filtered or not, returns
    its lines: fuel above the largest rank is enough. *)
Theorem snapshotLines_total (rank : string -> nat) (nodes : list AXNode) (fuel : nat)
    (interestingOnly : bool) :
  ranked rank nodes -> (forall node, node ∈ nodes -> (rank (nodeId node) <= fuel)%nat) ->
  is_Some (snapshotLines (S fuel) interestingOnly nodes).
Proof.
  intros Hrank Hfuel. unfold snapshotLines, snapshotNodes. destruct interestingOnly.
  - destruct (filterInterestingNodes_total rank nodes fuel Hrank Hfuel) as [out Hout].
    rewrite Hout. apply (compressedLines_total rank).
    + eapply ranked_kept; eauto.
    + intros n Hn.
      destruct (filterInterestingNodes_out (S fuel) nodes out Hout) as (ids & _ & Hmem).
      destruct (proj1 (Hmem n) Hn) as (node & Hnode & _ & Heq). rewrite Heq. cbn. now apply Hfuel.
  - now apply (compressedLines_total rank).
Qed.

Lemma depthRank_headingInLink : ranked depthRank headingInLink.
Proof.
  intros node cs c Hnode Hcs Hc. unfold headingInLink in Hnode.
  repeat (apply elem_of_cons in Hnode as [->|Hnode]); [| | |inversion Hnode];
    cbn in Hcs; try discriminate; injection Hcs as <-;
    apply list_elem_of_singleton in Hc as ->; cbn; lia.
Qed.

Lemma snapshotLines_total_witness :
  ranked depthRank headingInLink /\ is_Some (snapshotLines 3 true headingInLink).
Proof.
  split; [exact depthRank_headingInLink|].
  apply (snapshotLines_total depthRank headingInLink 2 true depthRank_headingInLink).
  intros node Hnode. unfold headingInLink in Hnode.
  repeat (apply elem_of_cons in Hnode as [->|Hnode]); [| | |inversion Hnode]; cbn; lia.
Defined.

End Snapshot.

(** ** The session under arbitrary browsers *)

Module SessionLife.
Import Js Keys Cdp BrowserSession.

(** [clickAt(x, y)] *)
Definition clickAt (browser : Browser) (x y : JsNumber) : M St unit :=
  bind getSession (fun s =>
    if negb (isSet (sessionId s)) then ret tt
    else
      try_catch
        (bind (send browser (mouseButton "mousePressed" x y)) (fun _ =>
         bind (send browser (mouseButton "mouseReleased" x y)) (fun _ =>
         ret tt)))
        (fun _ => ret tt)).

(** [createNewPage(url)] *)
Definition createNewPage (browser : Browser) (url : string) : M St unit :=
  bind getSession (fun s =>
    match browserClient s with
    | None => ret tt
    | Some t =>
        try_catch
          (bind (callOn browser t None (Target_createTarget url)) (fun _ => ret tt))
          (fun e => emitToViewers (errorEvent e))
    end).

(** The public methods of a session that are modelled, each awaited, and
    the arrival of the outcome that a suspended un-awaited call waits for. *)
Inductive Action : Type :=
| DoAddClient (client : Client)
| DoRemoveClient (client : Client)
| DoConnectToBrowser (tok : string)
| DoDisconnect
| DoKeyDown (key code : string) (modifiers : KeyModifiers)
| DoKeyUp (key code : string) (modifiers : KeyModifiers)
| DoClick (backendNodeId : Z)
| DoClickAt (x y : JsNumber)
| DoCreateNewPage (url : string)
| DoSettle (i : nat).

Definition perform (browser : Browser) (host port : string) (a : Action) (st : St) : St :=
  match a with
  | DoAddClient c => snd (addClient browser c st)
  | DoRemoveClient c => snd (removeClient browser c st)
  | DoConnectToBrowser tok => snd (connectToBrowser browser host port tok st)
  | DoDisconnect => snd (disconnect browser st)
  | DoKeyDown key code m => snd (keyDown browser key code m st)
  | DoKeyUp key code m => snd (keyUp browser key code m st)
  | DoClick n => snd (click browser n st)
  | DoClickAt x y => snd (clickAt browser x y st)
  | DoCreateNewPage url => snd (createNewPage browser url st)
  | DoSettle i => snd (settle i st)
  end.

Definition performAll (browser : Browser) (host port : string) (actions : list Action) (st : St) : St :=
  foldl (fun st a => perform browser host port a st) st actions.

(** A page session is only ever held together with a transport. *)
Definition pageNeedsTransport (s : Session) : Prop :=
  isSet (sessionId s) = true -> is_Some (browserClient s).

Definition modifierNames : gset string := {["Control"; "Alt"; "Shift"]}.

(** What holds of every session the modelled methods can produce. *)
Definition sessionOk (s : Session) : Prop :=
  pageNeedsTransport s /\ pressedModifiers s ⊆ modifierNames.

(** The same while a transport is known to be held. *)
Definition sessionOpen (s : Session) : Prop :=
  is_Some (browserClient s) /\ pressedModifiers s ⊆ modifierNames.

(** What [emitToViewers] hands over when the viewers are [cs]: one callback
    per client, in the order of the set; a client of type API ignores it. *)
Definition deliveriesOf (ev : ClientEvent) (cs : list Client) : list (Client * ClientEvent) :=
  List.flat_map (fun c => match ctype c with
                          | VIEWER => [(c, ev)]
                          | API => []
                          end) cs.

(** What the code reads from the reply to a command. *)
Definition replyShape (cmd : Command) (p : Payload) : Prop :=
  match cmd with
  | Target_getTargets => exists targetInfos, p = P_targetInfos targetInfos
  | Target_attachToTarget _ _ => exists sid, sid <> "" /\ p = P_sessionId sid
  | Target_createTarget _ => exists tid, p = P_targetId tid
  | Page_getFrameTree => exists url, p = P_frameTree url
  | _ => True
  end.

(** A browser that answers every call, with a reply of the shape the code
    reads. *)
Definition cooperative (browser : Browser) : Prop :=
  forall (h : list Call) (c : Call), exists p, browser h c = Ok p /\ replyShape (c_cmd c) p.

(** Started in a session satisfying [P], [m] returns, in a session
    satisfying [Q]. *)
Definition succeeds {A : Type} (P : Session -> Prop) (m : M St A) (Q : A -> Session -> Prop) : Prop :=
  triple (fun st => P (fst st)) m (fun a st => Q a (fst st)) (fun _ => False).

(** What [connectToPage] and its callers leave alone. *)
Definition held (t : nat) (tok : string) (vs apis : list Client) (s : Session) : Prop :=
  browserClient s = Some t /\ token s = tok /\ viewerClients s = vs /\ apiClients s = apis.

Definition attached (t : nat) (tok : string) (vs apis : list Client) (s : Session) : Prop :=
  held t tok vs apis s /\ isSet (sessionId s) = true.


Ltac destruct_replies :=
  repeat match goal with
         | |- context [match ?b ?h ?c with Ok _ => _ | Err _ => _ end] =>
             destruct (b h c); cbn
         end.

Section Teardown.
Variable browser : Browser.

Lemma disconnect_fields (s : Session) (w : World) :
  let s' := fst (snd (disconnect browser (s, w))) in
  fst (disconnect browser (s, w)) = Return tt
  /\ browserClient s' = None /\ targetId s' = None /\ token s' = ""
  /\ screencastStarted s' = false /\ viewerClients s' = [] /\ apiClients s' = []
  /\ (pageNeedsTransport s -> isSet (sessionId s') = false)
  /\ pressedModifiers s' = pressedModifiers s /\ currentUrl s' = currentUrl s.
Proof.
  cbv zeta. unfold disconnect, pageNeedsTransport.
  rewrite (bind_run _ _ _ _ _ (getSession_run (s, w))). cbn [fst].
  destruct (browserClient s) as [t|] eqn:Ht.
  - destruct (isSet (sessionId s)) eqn:Hsid.
    + unfold bind, try_catch, send, sendToSession, callOn, update, modify, getSession, gets, ret, bind. cbn.
      rewrite Ht, Hsid. cbn. destruct_replies; rewrite ?Ht; cbn; destruct_replies;
        repeat split; auto.
    + unfold bind, try_catch, send, sendToSession, callOn, update, modify, getSession, gets, ret, bind. cbn.
      rewrite Ht. cbn. destruct_replies; repeat split; auto.
  - unfold bind, try_catch, send, sendToSession, callOn, update, modify, getSession, gets, ret, bind. cbn.
    rewrite Ht. cbn. repeat split; auto.
    intros H. destruct (isSet (sessionId s)); [|reflexivity].
    destruct (H eq_refl) as [? [=]].
Qed.

(** X6. [disconnect] never throws, whatever the browser answers, and leaves
    the session without transport, target, token, screencast and clients.  The
    page session is cleared when it was held with a transport.  The pressed
    modifiers and the current URL are not reset. *)
Theorem disconnect_resets (s : Session) (w : World) :
  let s' := fst (snd (disconnect browser (s, w))) in
  fst (disconnect browser (s, w)) = Return tt
  /\ browserClient s' = None /\ targetId s' = None /\ token s' = ""
  /\ screencastStarted s' = false /\ viewerClients s' = [] /\ apiClients s' = []
  /\ (pageNeedsTransport s -> isSet (sessionId s') = false)
  /\ pressedModifiers s' = pressedModifiers s /\ currentUrl s' = currentUrl s.
Proof. exact (disconnect_fields s w). Qed.

End Teardown.

Lemma sessionOpen_ok (s : Session) : sessionOpen s -> sessionOk s.
Proof. intros [H1 H2]. split; [intros _; exact H1 | exact H2]. Qed.

Ltac preserves_frame :=
  apply preserves_update; let s := fresh "s" in let H := fresh "H" in intros s H; exact H.

Section Invariants.
Variable browser : Browser.
Variables host port : string.

Lemma startScreencast_preserves (P : Session -> Prop) :
  (forall s b, P s -> P (set_screencastStarted b s)) -> preserves P (startScreencast browser).
Proof.
  intros HP. unfold startScreencast. preserves_auto. apply preserves_update. auto.
Qed.

Lemma stopScreencast_preserves (P : Session -> Prop) :
  (forall s b, P s -> P (set_screencastStarted b s)) -> preserves P (stopScreencast browser).
Proof.
  intros HP. unfold stopScreencast. preserves_auto. apply preserves_update. auto.
Qed.

Lemma addClient_preserves (P : Session -> Prop) (c : Client) :
  (forall s l, P s -> P (set_suspended l s)) ->
  (forall s l, P s -> P (set_viewerClients l s)) ->
  (forall s l, P s -> P (set_apiClients l s)) ->
  preserves P (addClient browser c).
Proof.
  intros H1 H2 H3.
  unfold addClient, unawaited, tryStartScreencast_begin, startScreencast_begin.
  repeat first [preserves_step | preserves_cases]; apply preserves_update; auto.
Qed.

Lemma removeClient_preserves (P : Session -> Prop) (c : Client) :
  (forall s l, P s -> P (set_suspended l s)) ->
  (forall s l, P s -> P (set_viewerClients l s)) ->
  (forall s l, P s -> P (set_apiClients l s)) ->
  preserves P (removeClient browser c).
Proof.
  intros H1 H2 H3.
  unfold removeClient, unawaited, tryStopScreencast_begin, stopScreencast_begin.
  repeat first [preserves_step | preserves_cases]; apply preserves_update; auto.
Qed.

Lemma keyDown_preserves (P : Session -> Prop) (key code : string) (m : KeyModifiers) :
  (forall s k, k ∈ modifierNames -> P s -> P (set_pressedModifiers ({[k]} ∪ pressedModifiers s) s)) ->
  preserves P (keyDown browser key code m).
Proof.
  intros HP. unfold keyDown. preserves_auto;
    (apply preserves_update; intros s' H; apply HP; [unfold modifierNames; set_solver | exact H]).
Qed.

Lemma keyUp_preserves (P : Session -> Prop) (key code : string) (m : KeyModifiers) :
  (forall s k, P s -> P (set_pressedModifiers (pressedModifiers s ∖ {[k]}) s)) ->
  preserves P (keyUp browser key code m).
Proof.
  intros HP. unfold keyUp. preserves_auto; apply preserves_update; intros s' H; now apply HP.
Qed.

Lemma click_preserves (P : Session -> Prop) (n : Z) : preserves P (click browser n).
Proof. unfold click. preserves_auto. Qed.

Lemma clickAt_preserves (P : Session -> Prop) (x y : JsNumber) : preserves P (clickAt browser x y).
Proof. unfold clickAt. preserves_auto. Qed.

Lemma createNewPage_preserves (P : Session -> Prop) (url : string) :
  preserves P (createNewPage browser url).
Proof. unfold createNewPage. preserves_auto. Qed.

Lemma firstVisible_preserves (P : Session -> Prop) (t : nat) (pages : list TargetInfo) :
  preserves P (firstVisible browser t pages).
Proof.
  induction pages as [|page rest IH]; cbn [firstVisible]; [apply preserves_ret|].
  unfold probe. repeat first [preserves_step | exact IH | preserves_cases].
Qed.

Lemma findActiveTarget_preserves (P : Session -> Prop) : preserves P (findActiveTarget browser).
Proof.
  unfold findActiveTarget.
  repeat first [preserves_step | apply firstVisible_preserves | preserves_cases].
Qed.

Lemma emitPageList_preserves (P : Session -> Prop) : preserves P (emitPageList browser).
Proof. unfold emitPageList. preserves_auto. Qed.

Lemma connectToPage_preserves (P : Session -> Prop) (target : string) :
  (forall s b, P s -> P (set_screencastStarted b s)) ->
  (forall s v, P s -> P (set_sessionId v s)) ->
  (forall s v, P s -> P (set_targetId v s)) ->
  (forall s v, P s -> P (set_currentUrl v s)) ->
  preserves P (connectToPage browser target).
Proof.
  intros H1 H2 H3 H4. unfold connectToPage.
  repeat first [preserves_step | apply startScreencast_preserves; exact H1 | preserves_cases];
    apply preserves_update; auto.
Qed.

Lemma connectToPage_sessionOpen (target : string) :
  preserves sessionOpen (connectToPage browser target).
Proof. apply connectToPage_preserves; intros s v H; exact H. Qed.

Lemma connectToPage_sessionOk (target : string) :
  preserves sessionOk (connectToPage browser target).
Proof.
  intros [s w] Hok. destruct (browserClient s) as [t|] eqn:Ht.
  - assert (Hopen : sessionOpen s) by (split; [rewrite Ht; eauto | apply Hok]).
    pose proof (connectToPage_sessionOpen target (s, w) Hopen) as H.
    destruct (connectToPage browser target (s, w)) as [[a|e] st']; now apply sessionOpen_ok.
  - unfold connectToPage. rewrite (bind_run _ _ _ _ _ (getSession_run (s, w))). cbn [fst].
    rewrite Ht. exact Hok.
Qed.

Lemma connectToBrowser_sessionOk (tok : string) :
  preserves sessionOk (connectToBrowser browser host port tok).
Proof.
  unfold connectToBrowser. apply preserves_try_catch; [|intros e; apply preserves_emitToViewers].
  apply preserves_bind; [preserves_frame | intros _].
  apply preserves_bind; [apply preserves_openTransport | intros t].
  eapply triple_bind with (Q1 := fun _ st => sessionOpen (fst st)).
  { intros [s w] [_ H]. cbn. split; [eauto | exact H]. }
  intros _.
  eapply triple_weaken with (P' := fun st => sessionOpen (fst st))
                            (Q' := fun _ st => sessionOpen (fst st))
                            (E' := fun st => sessionOpen (fst st));
    [|auto | intros a st H; now apply sessionOpen_ok | intros st H; now apply sessionOpen_ok].
  change (preserves sessionOpen
            (bind (callOn browser t None (Target_setDiscoverTargets true)) (fun _ =>
             bind (findActiveTarget browser) (fun activeTargetId =>
             bind (if isSet activeTargetId
                   then connectToPage browser (default "" activeTargetId)
                   else bind (callOn browser t None (Target_createTarget "about:blank"))
                          (fun created => connectToPage browser
                                            (default "" (payload_targetId created))))
               (fun _ => bind getSession (fun s =>
                  bind (emitToViewers (browser_connected (currentUrl s) (targetId s)))
                    (fun _ => emitPageList browser))))))).
  repeat first [ preserves_step | apply findActiveTarget_preserves
               | apply connectToPage_sessionOpen | apply emitPageList_preserves
               | preserves_cases ].
Qed.

Lemma disconnect_sessionOk : preserves sessionOk (disconnect browser).
Proof.
  intros [s w] [H1 H2].
  destruct (disconnect_fields browser s w) as (Hr & Hb & _ & _ & _ & _ & _ & Hsid & Hp & _).
  destruct (disconnect browser (s, w)) as [[a|e] [s' w']]; cbn [fst snd] in *; [|discriminate].
  split; [|now rewrite Hp]. intros Hset. rewrite (Hsid H1) in Hset. discriminate.
Qed.

Lemma sessionOk_frame (f : Session -> Session) :
  (forall s, browserClient (f s) = browserClient s) ->
  (forall s, sessionId (f s) = sessionId s) ->
  (forall s, pressedModifiers (f s) = pressedModifiers s) ->
  forall s, sessionOk s -> sessionOk (f s).
Proof.
  intros Hb Hs Hp s [H1 H2]. split.
  - unfold pageNeedsTransport. now rewrite Hb, Hs.
  - now rewrite Hp.
Qed.

(** X7. Every session reached from a new one through [addClient],
    [removeClient], [connectToBrowser], [disconnect], [keyDown], [keyUp],
    [click], [clickAt] and [createNewPage], whatever the browser answers and
    whenever the outcomes of the un-awaited screencast commands arrive
    between these calls, holds a page session only together with a
    transport, and has only Control, Alt and Shift in its pressed set. *)
Theorem reachable_session_ok (actions : list Action) :
  sessionOk (fst (performAll browser host port actions (newSession, emptyWorld))).
Proof.
  assert (Hstart : sessionOk (fst (newSession, emptyWorld))).
  { split; [intros [=]|]. cbn. set_solver. }
  revert Hstart. generalize (newSession, emptyWorld).
  induction actions as [|a actions IH]; intros st Hok; [exact Hok|].
  cbn [performAll foldl]. apply IH.
  assert (Hrun : forall (A : Type) (m : M St A), preserves sessionOk m -> sessionOk (fst (snd (m st)))).
  { intros A m Hm. specialize (Hm st Hok). destruct (m st) as [[x|e] st']; exact Hm. }
  destruct a; cbn [perform]; apply Hrun.
  - apply addClient_preserves; intros s v H; exact H.
  - apply removeClient_preserves; intros s v H; exact H.
  - apply connectToBrowser_sessionOk.
  - apply disconnect_sessionOk.
  - apply keyDown_preserves. intros s k Hk [H1 H2]. split; [exact H1|]. cbn. set_solver.
  - apply keyUp_preserves. intros s k [H1 H2]. split; [exact H1|]. cbn. set_solver.
  - apply click_preserves.
  - apply clickAt_preserves.
  - apply createNewPage_preserves.
  - apply preserves_settle; intros s v H; exact H.
Qed.

End Invariants.

Section Keyboard.
Variable browser : Browser.

Lemma keyDown_preserves_requested (P : Session -> Prop) (key code : string) (m : KeyModifiers) :
  (forall s k, k ∈ requested m -> P s -> P (set_pressedModifiers ({[k]} ∪ pressedModifiers s) s)) ->
  preserves P (keyDown browser key code m).
Proof.
  intros HP. unfold keyDown. destruct m as [[] [] [] []];
    cbn [alt ctrl meta shift orb andb when] in *; preserves_auto;
    (apply preserves_update; intros s' H; apply HP; [unfold requested; cbn; set_solver | exact H]).
Qed.

Lemma keyUp_preserves_unrequested (P : Session -> Prop) (key code : string) (m : KeyModifiers) :
  (forall s k, k ∉ requested m -> P s -> P (set_pressedModifiers (pressedModifiers s ∖ {[k]}) s)) ->
  preserves P (keyUp browser key code m).
Proof.
  intros HP. unfold keyUp. destruct m as [[] [] [] []];
    cbn [alt ctrl meta shift orb andb negb when] in *; preserves_auto;
    (apply preserves_update; intros s' H; apply HP; [unfold requested; cbn; set_solver | exact H]).
Qed.

Lemma keyDown_returns (key code : string) (m : KeyModifiers) (st : St) :
  fst (keyDown browser key code m st) = Return tt.
Proof.
  unfold keyDown. rewrite (bind_run _ _ _ _ _ (getSession_run st)).
  destruct (negb (isSet (sessionId (fst st)))); [reflexivity|].
  unfold try_catch. destruct (bind _ _ st) as [[[]|e] st']; reflexivity.
Qed.

Lemma keyUp_returns (key code : string) (m : KeyModifiers) (st : St) :
  fst (keyUp browser key code m st) = Return tt.
Proof.
  unfold keyUp. rewrite (bind_run _ _ _ _ _ (getSession_run st)).
  destruct (negb (isSet (sessionId (fst st)))); [reflexivity|].
  unfold try_catch. destruct (bind _ _ st) as [[[]|e] st']; reflexivity.
Qed.

Lemma preserves_state {A : Type} (P : Session -> Prop) (m : M St A) (st : St) :
  preserves P m -> P (fst st) -> P (fst (snd (m st))).
Proof. intros Hm H. specialize (Hm st H). destruct (m st) as [[a|e] st']; exact Hm. Qed.

(** X8. [keyDown] never throws, whatever the state of the session and the
    answers of the browser.  It releases no modifier, presses only modifiers
    the event requests, and changes no other field of the session. *)
Theorem keyDown_only_presses (key code : string) (m : KeyModifiers) (s : Session) (w : World) :
  let s' := fst (snd (keyDown browser key code m (s, w))) in
  fst (keyDown browser key code m (s, w)) = Return tt
  /\ pressedModifiers s ⊆ pressedModifiers s'
  /\ pressedModifiers s' ⊆ pressedModifiers s ∪ requested m
  /\ set_pressedModifiers (pressedModifiers s) s' = s.
Proof.
  cbv zeta. split; [apply keyDown_returns|].
  apply (preserves_state
           (fun x => pressedModifiers s ⊆ pressedModifiers x
                     /\ pressedModifiers x ⊆ pressedModifiers s ∪ requested m
                     /\ set_pressedModifiers (pressedModifiers s) x = s)
           (keyDown browser key code m) (s, w)).
  - apply keyDown_preserves_requested. intros x k Hk (H1 & H2 & H3). cbn.
    split; [set_solver|]. split; [set_solver | exact H3].
  - cbn. split; [set_solver|]. split; [set_solver | now destruct s].
Qed.

(** X9. [keyUp] never throws, whatever the state of the session and the
    answers of the browser.  It presses no modifier, releases only modifiers
    the event does not request, and changes no other field of the session. *)
Theorem keyUp_only_releases (key code : string) (m : KeyModifiers) (s : Session) (w : World) :
  let s' := fst (snd (keyUp browser key code m (s, w))) in
  fst (keyUp browser key code m (s, w)) = Return tt
  /\ pressedModifiers s' ⊆ pressedModifiers s
  /\ pressedModifiers s ∩ requested m ⊆ pressedModifiers s'
  /\ set_pressedModifiers (pressedModifiers s) s' = s.
Proof.
  cbv zeta. split; [apply keyUp_returns|].
  apply (preserves_state
           (fun x => pressedModifiers x ⊆ pressedModifiers s
                     /\ pressedModifiers s ∩ requested m ⊆ pressedModifiers x
                     /\ set_pressedModifiers (pressedModifiers s) x = s)
           (keyUp browser key code m) (s, w)).
  - apply keyUp_preserves_unrequested. intros x k Hk (H1 & H2 & H3). cbn.
    split; [set_solver|]. split; [set_solver | exact H3].
  - cbn. split; [set_solver|]. split; [set_solver | now destruct s].
Qed.

End Keyboard.

Lemma logDeliveries_empty (w : World) : logDeliveries [] w = w.
Proof. destruct w. unfold logDeliveries. cbn. now rewrite app_nil_r. Qed.

Lemma logDeliveries_twice (ds1 ds2 : list (Client * ClientEvent)) (w : World) :
  logDeliveries ds2 (logDeliveries ds1 w) = logDeliveries (ds1 ++ ds2) w.
Proof. unfold logDeliveries. cbn. now rewrite app_assoc. Qed.

Lemma notifyAll_run (ev : ClientEvent) (cs : list Client) :
  forall (s : Session) (w : World),
    notifyAll cs ev (s, w) = (Return tt, (s, logDeliveries (deliveriesOf ev cs) w)).
Proof.
  induction cs as [|c cs IH]; intros s w.
  - cbn. now rewrite logDeliveries_empty.
  - cbn [notifyAll]. unfold bind at 1, notify at 1, modify. cbn [fst snd].
    destruct (ctype c) eqn:Hc; rewrite IH; unfold deliveriesOf; cbn [List.flat_map];
      rewrite Hc; [now rewrite logDeliveries_twice | reflexivity].
Qed.

Lemma emitToViewers_run (ev : ClientEvent) (s : Session) (w : World) :
  emitToViewers ev (s, w) = (Return tt, (s, logDeliveries (deliveriesOf ev (viewerClients s)) w)).
Proof.
  unfold emitToViewers. rewrite (bind_run _ _ _ _ _ (getSession_run (s, w))).
  apply notifyAll_run.
Qed.

Section Reports.
Variable browser : Browser.

(** X10. [createNewPage] never throws and never changes the session.  Without
    a transport it does nothing; with one it makes exactly the call
    [Target.createTarget], and when the browser refuses it every viewer
    receives one [browser:error] with the message of the refusal. *)
Theorem createNewPage_reports (url : string) (s : Session) (w : World) :
  let result := createNewPage browser url (s, w) in
  fst result = Return tt /\ fst (snd result) = s
  /\ match browserClient s with
     | None => snd (snd result) = w
     | Some t =>
         let create := browserCall t (Target_createTarget url) in
         match browser (calls w) create with
         | Ok _ => snd (snd result) = logCall create w
         | Err e => snd (snd result)
                    = logDeliveries (deliveriesOf (browser_error e) (viewerClients s))
                        (logCall create w)
         end
     end.
Proof.
  cbv zeta. unfold createNewPage.
  rewrite (bind_run _ _ _ _ _ (getSession_run (s, w))). cbn [fst].
  destruct (browserClient s) as [t|]; [|auto].
  unfold try_catch, bind, callOn, browserCall. cbn [fst snd].
  destruct (browser (calls w) _) as [p|e]; [auto|].
  rewrite emitToViewers_run. auto.
Qed.

Lemma emitPageList_run (s : Session) (w : World) :
  emitPageList browser (s, w)
  = (Return tt,
     (s, match browserClient s with
         | None => w
         | Some t =>
             match browser (calls w) (browserCall t Target_getTargets) with
             | Ok (P_targetInfos targetInfos) =>
                 logDeliveries
                   (deliveriesOf (browser_pageList (List.filter isPage targetInfos) (targetId s))
                      (viewerClients s))
                   (logCall (browserCall t Target_getTargets) w)
             | _ => logCall (browserCall t Target_getTargets) w
             end
         end)).
Proof.
  unfold emitPageList.
  rewrite (bind_run _ _ _ _ _ (getSession_run (s, w))). cbn [fst].
  destruct (browserClient s) as [t|]; [|reflexivity].
  unfold try_catch, bind at 1, callOn, browserCall. cbn [fst snd].
  destruct (browser (calls w) _) as [p|e]; [|reflexivity].
  destruct p; try reflexivity.
  rewrite (bind_run _ _ _ _ _ (getSession_run _)). cbn [fst].
  now rewrite emitToViewers_run.
Qed.

(** X11. [emitPageList] never throws and never changes the session.  Without
    a transport it does nothing; with one it makes exactly the call
    [Target.getTargets] and, when that answers a target list, every viewer
    receives one [browser:pageList] with the targets of type page and the
    active target id; on any other answer nothing is delivered. *)
Theorem emitPageList_delivers (s : Session) (w : World) :
  let result := emitPageList browser (s, w) in
  fst result = Return tt /\ fst (snd result) = s
  /\ match browserClient s with
     | None => snd (snd result) = w
     | Some t =>
         let getTargets := browserCall t Target_getTargets in
         match browser (calls w) getTargets with
         | Ok (P_targetInfos targetInfos) =>
             snd (snd result)
             = logDeliveries
                 (deliveriesOf (browser_pageList (List.filter isPage targetInfos) (targetId s))
                    (viewerClients s))
                 (logCall getTargets w)
         | _ => snd (snd result) = logCall getTargets w
         end
     end.
Proof.
  cbv zeta. rewrite emitPageList_run. cbn [fst snd].
  split; [reflexivity|]. split; [reflexivity|].
  destruct (browserClient s) as [t|]; [|reflexivity].
  destruct (browser (calls w) _) as [[]|e]; reflexivity.
Qed.

Lemma try_catch_rethrow_state {A : Type} (m : M St A) (st : St) :
  snd (try_catch m (fun e => throw e) st) = snd (m st).
Proof. unfold try_catch. now destruct (m st) as [[a|e] st']. Qed.

Lemma try_catch_swallow (m : M St unit) (st : St) :
  try_catch m (fun _ => ret tt) st = (Return tt, snd (m st)).
Proof. unfold try_catch. now destruct (m st) as [[[]|e] st']. Qed.

(** X12. On a connected session, once [DOM.enable] and [DOM.getBoxModel] have
    answered with a box that has a content quad, [click] goes on exactly as
    [clickAt] at the centre of the quad; that [clickAt] does not throw. *)
Theorem click_is_clickAt_center (s : Session) (w : World) (backendNodeId : Z)
    (enabled reply : Payload) (quad : list JsNumber) :
  connected s ->
  let enable := sessionCall s DOM_enable in
  let getBox := sessionCall s (DOM_getBoxModel backendNodeId) in
  browser (calls w) enable = Ok enabled ->
  browser (calls w ++ [enable])%list getBox = Ok reply ->
  boxContent reply = Some quad ->
  let located := (s, logCall getBox (logCall enable w)) in
  snd (click browser backendNodeId (s, w))
  = snd (clickAt browser (center quad 0) (center quad 1) located)
  /\ fst (clickAt browser (center quad 0) (center quad 1) located) = Return tt.
Proof.
  intros Hc enable getBox Henable Hbox Hquad located.
  pose proof Hc as [_ Hsid].
  assert (Henable' : send browser DOM_enable (s, w) = (Return enabled, (s, logCall enable w))).
  { rewrite (send_run browser s w DOM_enable Hc). fold enable. now rewrite Henable. }
  assert (Hbox' : send browser (DOM_getBoxModel backendNodeId) (s, logCall enable w)
                  = (Return reply, located)).
  { rewrite (send_run browser s _ _ Hc). fold getBox. cbn [calls logCall]. now rewrite Hbox. }
  unfold click, clickAt.
  rewrite (bind_run _ _ _ _ _ (getSession_run (s, w))).
  rewrite (bind_run _ _ _ _ _ (getSession_run located)).
  cbn [fst located]. rewrite Hsid. cbn [negb].
  rewrite try_catch_rethrow_state, try_catch_swallow. split; [|reflexivity].
  rewrite (bind_run _ _ _ _ _ Henable'), (bind_run _ _ _ _ _ Hbox').
  destruct reply as [| | | | | |[[[numbers|]]|]]; try discriminate Hquad.
  cbn in Hquad. injection Hquad as ->. reflexivity.
Qed.

End Reports.

Lemma click_is_clickAt_center_witness :
  let s := attachedSession in
  let w := emptyWorld in
  let quad := [10; 20; 110; 20; 110; 60; 10; 60]%float in
  let located := (s, logCall (sessionCall s (DOM_getBoxModel 42))
                       (logCall (sessionCall s DOM_enable) w)) in
  connected s
  /\ snd (click quadBrowser 42 (s, w))
     = snd (clickAt quadBrowser (center quad 0) (center quad 1) located)
  /\ fst (clickAt quadBrowser (center quad 0) (center quad 1) located) = Return tt.
Proof.
  cbv zeta. split; [split; [eexists; reflexivity | reflexivity]|].
  apply (click_is_clickAt_center quadBrowser attachedSession emptyWorld 42 P_empty
           (P_boxModel (Some {| content := Some [10; 20; 110; 20; 110; 60; 10; 60]%float |}))).
  - split; [eexists; reflexivity | reflexivity].
  - reflexivity.
  - reflexivity.
  - reflexivity.
Defined.

Section Succeeds.
Variable browser : Browser.
Hypothesis coop : cooperative browser.

Lemma succeeds_ret {A : Type} (P : Session -> Prop) (a : A) : succeeds P (ret a) (fun _ => P).
Proof. intros st H. exact H. Qed.

Lemma succeeds_bind {A B : Type} (P : Session -> Prop) (m : M St A) (k : A -> M St B)
    (Q1 : A -> Session -> Prop) (Q : B -> Session -> Prop) :
  succeeds P m Q1 -> (forall a, succeeds (Q1 a) (k a) Q) -> succeeds P (bind m k) Q.
Proof. intros Hm Hk. eapply triple_bind; [exact Hm | exact Hk]. Qed.

Lemma succeeds_weaken {A : Type} (P P' : Session -> Prop) (m : M St A)
    (Q Q' : A -> Session -> Prop) :
  succeeds P' m Q' -> (forall s, P s -> P' s) -> (forall a s, Q' a s -> Q a s) ->
  succeeds P m Q.
Proof. intros Hm HP HQ. eapply triple_weaken; [exact Hm | | |]; cbv beta; auto. Qed.

Lemma succeeds_getSession {A : Type} (P : Session -> Prop) (k : Session -> M St A)
    (Q : A -> Session -> Prop) :
  (forall s, P s -> succeeds (fun x => x = s) (k s) Q) -> succeeds P (bind getSession k) Q.
Proof.
  intros Hk st H. rewrite (bind_run _ _ _ _ _ (getSession_run st)).
  now apply (Hk (fst st) H st).
Qed.

Lemma succeeds_try_catch {A : Type} (P : Session -> Prop) (m : M St A)
    (handler : Thrown -> M St A) (Q : A -> Session -> Prop) :
  succeeds P m Q -> succeeds P (try_catch m handler) Q.
Proof. intros Hm. eapply triple_try_catch; [exact Hm | intros e st []]. Qed.

Lemma succeeds_update (P : Session -> Prop) (f : Session -> Session) :
  succeeds (fun s => P (f s)) (update f) (fun _ => P).
Proof. intros st H. exact H. Qed.

Lemma succeeds_callOn (P : Session -> Prop) (t : nat) (sid : option string) (cmd : Command) :
  succeeds P (callOn browser t sid cmd) (fun p s => P s /\ replyShape cmd p).
Proof.
  intros st H. unfold callOn.
  destruct (coop (calls (snd st)) {| c_transport := t; c_session := sid; c_cmd := cmd |})
    as (p & -> & Hp). cbn. auto.
Qed.

Lemma succeeds_send (P : Session -> Prop) (cmd : Command) :
  (forall s, P s -> connected s) ->
  succeeds P (send browser cmd) (fun p s => P s /\ replyShape cmd p).
Proof.
  intros Hconn. unfold send. apply succeeds_getSession. intros s Hs.
  destruct (Hconn s Hs) as [[t Ht] Hsid]. rewrite Ht, Hsid.
  eapply succeeds_weaken;
    [apply triple_sendToSession; apply (succeeds_callOn P) | intros x ->; exact Hs | auto].
Qed.

Lemma succeeds_emitToViewers (P : Session -> Prop) (ev : ClientEvent) :
  succeeds P (emitToViewers ev) (fun _ => P).
Proof. intros [s w] H. rewrite emitToViewers_run. exact H. Qed.

Lemma succeeds_emitPageList (P : Session -> Prop) : succeeds P (emitPageList browser) (fun _ => P).
Proof. intros [s w] H. rewrite emitPageList_run. exact H. Qed.

Lemma succeeds_probe_caught (P : Session -> Prop) (t : nat) (page : TargetInfo) :
  succeeds P (try_catch (bind (probe browser t page)
                           (fun v => ret (strict_eq v (JStr "visible"))))
                        (fun _ => ret false))
    (fun _ => P).
Proof.
  assert (Hp : preserves P (bind (probe browser t page)
                              (fun v => ret (strict_eq v (JStr "visible"))))).
  { unfold probe. preserves_auto. }
  intros st H. specialize (Hp st H). unfold try_catch.
  destruct (bind (probe browser t page) _ st) as [[b|e] st']; exact Hp.
Qed.

Lemma succeeds_firstVisible (P : Session -> Prop) (t : nat) (pages : list TargetInfo) :
  succeeds P (firstVisible browser t pages) (fun _ => P).
Proof.
  induction pages as [|page rest IH]; cbn [firstVisible]; [apply succeeds_ret|].
  eapply succeeds_bind; [apply succeeds_probe_caught|]. intros [|]; [apply succeeds_ret | exact IH].
Qed.

Lemma succeeds_findActiveTarget (P : Session -> Prop) :
  succeeds P (findActiveTarget browser) (fun _ => P).
Proof.
  unfold findActiveTarget. apply succeeds_getSession. intros s Hs.
  eapply succeeds_weaken with (P' := P) (Q' := fun _ => P); [|intros x ->; exact Hs | auto].
  destruct (browserClient s) as [t|]; [|apply succeeds_ret].
  eapply succeeds_bind; [apply succeeds_callOn|]. intros targets.
  intros st [H [infos ->]]. revert st H.
  change (succeeds P
            (bind (firstVisible browser t (List.filter isNonBlankPage infos)) (fun found =>
               match found with
               | Some target => ret (Some target)
               | None =>
                   match List.filter isNonBlankPage infos with
                   | first :: _ => ret (Some (ti_targetId first))
                   | [] => match List.filter isPage infos with
                           | first :: _ => ret (Some (ti_targetId first))
                           | [] => ret None
                           end
                   end
               end)) (fun _ => P)).
  eapply succeeds_bind; [apply succeeds_firstVisible|]. intros [target|]; [apply succeeds_ret|].
  destruct (List.filter isNonBlankPage infos); [|apply succeeds_ret].
  destruct (List.filter isPage infos); apply succeeds_ret.
Qed.

Lemma attached_connected t tok vs apis s : attached t tok vs apis s -> connected s.
Proof. intros [[Hb _] Hs]. split; [rewrite Hb; eauto | exact Hs]. Qed.

Lemma succeeds_startScreencast (P : Session -> Prop) :
  (forall s, P s -> connected s) -> (forall s b, P s -> P (set_screencastStarted b s)) ->
  succeeds P (startScreencast browser) (fun _ s => P s /\ screencastStarted s = true).
Proof.
  intros Hconn Hframe. unfold startScreencast. apply succeeds_getSession. intros s Hs.
  destruct (Hconn s Hs) as [_ Hsid]. rewrite Hsid. cbn [negb orb].
  destruct (screencastStarted s) eqn:Hst.
  - intros [x0 w0] Hx0. cbn in Hx0. subst x0. cbn. auto.
  - apply succeeds_try_catch.
    eapply succeeds_bind with (Q1 := fun _ => P).
    + eapply succeeds_weaken; [apply (succeeds_send P _ Hconn) | intros x ->; exact Hs | ].
      intros a x [H _]. exact H.
    + intros _ st H. cbn. split; [now apply Hframe | reflexivity].
Qed.

Lemma succeeds_send_plain (P : Session -> Prop) (cmd : Command) :
  (forall s, P s -> connected s) -> succeeds P (send browser cmd) (fun _ => P).
Proof.
  intros Hconn. eapply succeeds_weaken; [apply (succeeds_send P cmd Hconn) | auto |].
  intros a s [H _]. exact H.
Qed.

Lemma succeeds_connectToPage (t : nat) (tok : string) (vs apis : list Client) (target : string) :
  succeeds (held t tok vs apis) (connectToPage browser target)
    (fun _ s => attached t tok vs apis s /\ targetId s = Some target
                /\ (vs <> [] -> screencastStarted s = true)).
Proof.
  set (Q := fun s => attached t tok vs apis s /\ targetId s = Some target).
  assert (HQ : forall s, Q s -> connected s).
  { intros s [H _]. eapply attached_connected; eauto. }
  unfold connectToPage. apply succeeds_getSession. intros s Hs.
  destruct Hs as (Hb & Htok & Hvs & Hapis). rewrite Hb.
  eapply succeeds_bind.
  { eapply succeeds_weaken;
      [apply (succeeds_callOn (held t tok vs apis)) | | intros a x H; exact H].
    intros x ->. repeat split; assumption. }
  intros reply. eapply succeeds_bind with (Q1 := fun _ => attached t tok vs apis).
  { intros [x w] [Hx (sid & Hsid & ->)]. cbn. split; [exact Hx|]. cbn.
    destruct (String.eqb_spec sid ""); [contradiction | reflexivity]. }
  intros ?. eapply succeeds_bind with (Q1 := fun _ => Q).
  { intros [x w] Hx. cbn. split; [exact Hx | reflexivity]. }
  intros ?. eapply succeeds_bind; [apply (succeeds_send_plain Q _ HQ)|].
  intros ?. eapply succeeds_bind; [apply (succeeds_send_plain Q _ HQ)|].
  intros ?. eapply succeeds_bind; [apply (succeeds_send Q _ HQ)|].
  intros tree. eapply succeeds_bind with (Q1 := fun _ => Q).
  { intros [x w] [Hx [url ->]]. exact Hx. }
  intros ?. eapply succeeds_bind; [apply (succeeds_send_plain Q _ HQ)|].
  intros ?. apply succeeds_getSession. intros x Hx.
  pose proof Hx as [[(_ & _ & Hxv & _) _] _].
  destruct (0 <? length (viewerClients x))%nat eqn:Hlen; cbn [when].
  - eapply succeeds_weaken with (P' := Q).
    + apply (succeeds_startScreencast Q HQ). intros y b Hy. exact Hy.
    + intros y ->. assumption.
    + intros ? y [[Hy1 Hy2] Hy3]. auto.
  - intros [x0 w0] Hx0. cbn in Hx0. subst x0. cbn. destruct Hx as [Hx1 Hx2].
    split; [assumption|]. split; [assumption|].
    intros Hne. apply Nat.ltb_ge in Hlen. rewrite Hxv in Hlen.
    destruct vs; [contradiction | cbn in Hlen; lia].
Qed.

Variables host port : string.

(** X13. With a browser that accepts the connection and answers every command
    with a payload of the shape of the command, [connectToBrowser] returns and
    leaves the session connected: it holds the transport just opened, a page
    session, a target and the token; the clients are unchanged, and the
    screencast runs when there is a viewer. *)
Theorem connectToBrowser_connects (tok : string) (s : Session) (w : World) :
  let result := connectToBrowser browser host port tok (s, w) in
  let s' := fst (snd result) in
  fst result = Return tt
  /\ browserClient s' = Some (opened w) /\ isSet (sessionId s') = true
  /\ is_Some (targetId s') /\ token s' = tok
  /\ viewerClients s' = viewerClients s /\ apiClients s' = apiClients s
  /\ (viewerClients s <> [] -> screencastStarted s' = true).
Proof.
  set (t := opened w). set (vs := viewerClients s). set (apis := apiClients s).
  set (Post := fun x => attached t tok vs apis x /\ is_Some (targetId x)
                        /\ (vs <> [] -> screencastStarted x = true)).
  assert (Hpage : forall target, succeeds (held t tok vs apis) (connectToPage browser target)
                                   (fun _ => Post)).
  { intros target.
    eapply succeeds_weaken; [apply (succeeds_connectToPage t tok vs apis target) | auto |].
    intros a x (H1 & H2 & H3). split; [exact H1|]. split; [rewrite H2; eauto | exact H3]. }
  assert (Hall : triple (fun st => st = (s, w)) (connectToBrowser browser host port tok)
                   (fun _ st => Post (fst st)) (fun _ => False)).
  { unfold connectToBrowser. eapply triple_try_catch with (E1 := fun _ => False);
      [|intros e st []].
    eapply triple_bind with (Q1 := fun _ st => st = (set_token tok s, w)).
    { intros st ->. reflexivity. }
    intros _.
    eapply triple_bind with (Q1 := fun t' st => fst st = set_token tok s /\ t' = t).
    { intros st ->. unfold openTransport. cbn [fst snd].
      destruct (coop (calls w) {| c_transport := opened w; c_session := None;
                                  c_cmd := Connect (endpoint host port tok) |})
        as (p & -> & _). cbn. auto. }
    intros t'. apply SessionManager.triple_assume. intros ->.
    eapply triple_bind with (Q1 := fun _ st => held t tok vs apis (fst st)).
    { intros [x wx] Hx. cbn in Hx. subst x. cbn. repeat split. }
    intros _.
    change (succeeds (held t tok vs apis)
              (bind (callOn browser t None (Target_setDiscoverTargets true)) (fun _ =>
               bind (findActiveTarget browser) (fun activeTargetId =>
               bind (if isSet activeTargetId
                     then connectToPage browser (default "" activeTargetId)
                     else bind (callOn browser t None (Target_createTarget "about:blank"))
                            (fun created => connectToPage browser
                                              (default "" (payload_targetId created))))
                 (fun _ => bind getSession (fun s0 =>
                    bind (emitToViewers (browser_connected (currentUrl s0) (targetId s0)))
                      (fun _ => emitPageList browser))))))
              (fun _ => Post)).
    eapply succeeds_bind with (Q1 := fun _ => held t tok vs apis).
    { eapply succeeds_weaken;
        [apply (succeeds_callOn (held t tok vs apis)) | auto | intros ? x [H _]; exact H]. }
    intros ?. eapply succeeds_bind with (Q1 := fun _ => held t tok vs apis);
      [apply succeeds_findActiveTarget|].
    intros activeTargetId. eapply succeeds_bind with (Q1 := fun _ => Post).
    { destruct (isSet activeTargetId); [apply Hpage|].
      eapply succeeds_bind with (Q1 := fun _ => held t tok vs apis); [|intros created; apply Hpage].
      eapply succeeds_weaken;
        [apply (succeeds_callOn (held t tok vs apis)) | auto | intros ? x [H _]; exact H]. }
    intros _. apply succeeds_getSession. intros s0 Hs0.
    eapply succeeds_weaken with (P' := Post) (Q' := fun _ => Post);
      [|intros x ->; exact Hs0 | auto].
    eapply succeeds_bind with (Q1 := fun _ => Post); [apply succeeds_emitToViewers|].
    intros ?. apply succeeds_emitPageList. }
  specialize (Hall (s, w) eq_refl). cbv zeta.
  destruct (connectToBrowser browser host port tok (s, w)) as [[[]|e] [s' w']];
    cbn [fst snd] in *; [|contradiction].
  destruct Hall as ([(Hb & Htok & Hvs & Hapis) Hsid] & Htarget & Hcast).
  repeat split; assumption.
Qed.

End Succeeds.

Lemma sampleBrowser_cooperative : cooperative sampleBrowser.
Proof.
  intros h c. unfold sampleBrowser. destruct (c_cmd c); cbn; eauto.
  eexists. split; [reflexivity|]. eexists. split; [|reflexivity]. discriminate.
Qed.

Lemma connectToBrowser_connects_witness :
  let s := set_viewerClients [viewer1] newSession in
  let result := connectToBrowser sampleBrowser "localhost" "9222" "T" (s, emptyWorld) in
  let s' := fst (snd result) in
  cooperative sampleBrowser
  /\ fst result = Return tt
  /\ browserClient s' = Some 0%nat /\ isSet (sessionId s') = true
  /\ is_Some (targetId s') /\ token s' = "T"
  /\ viewerClients s' = [viewer1] /\ apiClients s' = []
  /\ ([viewer1] <> [] -> screencastStarted s' = true).
Proof.
  cbv zeta. split; [exact sampleBrowser_cooperative|].
  exact (connectToBrowser_connects sampleBrowser sampleBrowser_cooperative "localhost" "9222"
           "T" (set_viewerClients [viewer1] newSession) emptyWorld).
Defined.

(** X23. [getCurrentModifierFlags] leaves the state alone and encodes the
    pressed set: bit 0 says whether Alt is pressed, bit 1 Control, bit 3
    Shift; the meta bit (bit 2) is never set. *)
Theorem getCurrentModifierFlags_bits (s : Session) (w : World) :
  exists flags,
    getCurrentModifierFlags (s, w) = (Return flags, (s, w))
    /\ Z.testbit flags 0 = bool_decide ("Alt" ∈ pressedModifiers s)
    /\ Z.testbit flags 1 = bool_decide ("Control" ∈ pressedModifiers s)
    /\ Z.testbit flags 2 = false
    /\ Z.testbit flags 3 = bool_decide ("Shift" ∈ pressedModifiers s)
    /\ 0 <= flags < 16.
Proof.
  exists (flagsOfPressed (pressedModifiers s)). split; [reflexivity|].
  unfold flagsOfPressed.
  destruct (bool_decide ("Alt" ∈ pressedModifiers s)),
    (bool_decide ("Control" ∈ pressedModifiers s)),
    (bool_decide ("Shift" ∈ pressedModifiers s)); vm_compute; repeat split; discriminate.
Qed.

End SessionLife.

(** ** The registry under arbitrary requests *)

Module Registry.
Import Js Keys Cdp BrowserSession SessionManager SessionLife.

(** No call was made on a transport after [close()] was invoked on it; in
    particular [close()] was invoked at most once on each. *)
Definition neverAfterClose (cs : list Call) : Prop :=
  forall before c after, cs = (before ++ c :: after)%list ->
                         closeCount (c_transport c) before = 0%nat.

(** The registry invariant together with the discipline of the calls. *)
Definition safe (st : MSt) : Prop := registryOk st /\ neverAfterClose (calls (snd st)).

(** A session fresh from [new BrowserSession()] with its first client. *)
Definition firstClient (client : Client) : Session :=
  match ctype client with
  | VIEWER => set_viewerClients [client] newSession
  | API => set_apiClients [client] newSession
  end.

(** The clients of a session, viewers first. *)
Definition clientsOf (s : Session) : list Client := (viewerClients s ++ apiClients s)%list.

(** [getClientBySocket(socket)] *)
Definition getClientBySocket (mgr : Manager) (socket : string) : option Client :=
  clientsBySocketId mgr !! socket.

(** [getSessionByToken(token)] *)
Definition getSessionByToken (mgr : Manager) (tok : string) : option Session :=
  sessionsByToken mgr !! tok.

(** [getSessionBySocket(socket)] *)
Definition getSessionBySocket (mgr : Manager) (socket : string) : option Session :=
  match socketTokenMap mgr !! socket with
  | Some tok => if isSet (Some tok) then sessionsByToken mgr !! tok else None
  | None => None
  end.

(** The three maps agree: the same sockets in both socket maps, each client
    filed under its own socket, each attached socket's client a member of
    the session registered under the socket's token; and every registered
    session carries the token it is registered under, has a client, and is
    well formed. *)
Definition consistent (mgr : Manager) : Prop :=
  (forall socket, is_Some (socketTokenMap mgr !! socket)
                  <-> is_Some (clientsBySocketId mgr !! socket))
  /\ (forall socket c, clientsBySocketId mgr !! socket = Some c -> socketId c = socket)
  /\ (forall socket tok c,
        socketTokenMap mgr !! socket = Some tok -> clientsBySocketId mgr !! socket = Some c ->
        exists sess, sessionsByToken mgr !! tok = Some sess /\ c ∈ clientsOf sess)
  /\ (forall tok sess,
        sessionsByToken mgr !! tok = Some sess ->
        token sess = tok /\ (0 < getClientCount sess)%nat /\ sessionOk sess).

(** The registry [removeClientFromSession] leaves, given the sessions it
    leaves. *)
Definition detachedFrom (socket : string) (mgr : Manager) (sessions : gmap string Session) : Manager :=
  {| sessionsByToken := sessions;
     clientsBySocketId := delete socket (clientsBySocketId mgr);
     socketTokenMap := delete socket (socketTokenMap mgr);
     created := created mgr |}.

(** The registry [connectBrowser] leaves: the socket filed under the token
    with its new client, given the sessions it leaves. *)
Definition attachedTo (socket tok : string) (client : Client) (mgr : Manager)
    (sessions : gmap string Session) : Manager :=
  {| sessionsByToken := sessions;
     clientsBySocketId := <[socket := client]> (clientsBySocketId mgr);
     socketTokenMap := <[socket := tok]> (socketTokenMap mgr);
     created := S (created mgr) |}.

(** What [connectBrowser] does once the socket's previous attachment is out
    of the way and the new client is filed: join the session of the token,
    or create one. *)
Definition joinOrCreate (browser : Browser) (host port : string) (tok : string) (client : Client)
    : M MSt bool :=
  bind getManager (fun m =>
    match sessionsByToken m !! tok with
    | Some _ =>
        bind (onSession tok (addClient browser client)) (fun _ =>
        bind (notifyClient client (browser_connected "" None)) (fun _ => ret true))
    | None =>
        bind (onFresh newSession (addClient browser client)) (fun added =>
        bind (updateManager (fun m => set_sessionsByToken
                                        (<[tok := snd added]> (sessionsByToken m)) m))
          (fun _ =>
        bind (onSession tok (connectToBrowser browser host port tok)) (fun _ => ret false)))
    end).

(** The registry with the socket filed under the token with a new client. *)
Definition filed (socket tok : string) (client : Client) (mgr : Manager) : Manager :=
  set_socketTokenMap (<[socket := tok]> (socketTokenMap mgr))
    (set_clientsBySocketId (<[socket := client]> (clientsBySocketId mgr))
       (set_created (S (created mgr)) mgr)).

Definition apiJoiner : Client := {| cid := 1; socketId := "a"; ctype := API |}.

Lemma neverAfterClose_app (cs extra : list Call) :
  neverAfterClose cs ->
  (forall before c after, extra = (before ++ c :: after)%list ->
                          closeCount (c_transport c) (cs ++ before) = 0%nat) ->
  neverAfterClose (cs ++ extra).
Proof.
  intros Hcs Hextra before c after Heq.
  apply app_eq_inv in Heq as [(k & Hk1 & Hk2)|(k & Hk1 & Hk2)].
  - destruct k as [|c' k].
    + cbn in Hk2. rewrite app_nil_r in Hk1. subst cs.
      rewrite <- (app_nil_r before). apply (Hextra [] c after). now symmetry.
    + injection Hk2 as <- _. exact (Hcs before c k Hk1).
  - subst before. exact (Hextra k c after Hk2).
Qed.

Lemma neverAfterClose_ordinary (cs extra : list Call) (t : nat) :
  neverAfterClose cs -> closeCount t cs = 0%nat -> Forall (ordinaryOn (Some t)) extra ->
  neverAfterClose (cs ++ extra).
Proof.
  intros Hcs Hzero Hextra. apply neverAfterClose_app; [exact Hcs|].
  intros before c after ->.
  apply Forall_app in Hextra as [Hbefore Hrest]. inversion Hrest as [|? ? [Hc _] _]; subst.
  injection Hc as ->.
  now rewrite closeCount_app, Hzero, (closeCount_ordinary _ _ _ Hbefore).
Qed.

Lemma neverAfterClose_closing (cs extra : list Call) (t : nat) :
  neverAfterClose cs -> closeCount t cs = 0%nat -> Forall (ordinaryOn (Some t)) extra ->
  neverAfterClose (cs ++ extra ++ [closeCall t]).
Proof.
  intros Hcs Hzero Hextra. rewrite app_assoc.
  apply neverAfterClose_app; [now apply (neverAfterClose_ordinary cs extra t)|].
  intros before c after Heq.
  destruct before as [|b before]; [|destruct before; discriminate Heq].
  injection Heq as <- _. cbn. rewrite app_nil_r.
  now rewrite closeCount_app, Hzero, (closeCount_ordinary _ _ _ Hextra).
Qed.

Lemma safe_same (mgr mgr' : Manager) (w w' : World) :
  sessionsByToken mgr' = sessionsByToken mgr -> opened w' = opened w -> calls w' = calls w ->
  safe (mgr, w) -> safe (mgr', w').
Proof.
  intros Hs Ho Hc [H1 H2]. split; [now apply (registryOk_same mgr mgr' w w')|].
  cbn [snd] in *. now rewrite Hc.
Qed.

Lemma safe_delete (mgr : Manager) (w : World) (tok : string) :
  safe (mgr, w) -> safe (set_sessionsByToken (delete tok (sessionsByToken mgr)) mgr, w).
Proof. intros [H1 H2]. split; [now apply registryOk_delete | exact H2]. Qed.

Lemma safe_quiet (mgr : Manager) (w : World) (tok : string) (sess sess' : Session) (w' : World) :
  safe (mgr, w) -> sessionsByToken mgr !! tok = Some sess ->
  quiet (browserClient sess) (opened w) (calls w) (sess', w') ->
  safe (set_sessionsByToken (<[tok := sess']> (sessionsByToken mgr)) mgr, w').
Proof.
  intros [Hok Hnac] Hsess Hq. split; [now apply (registryOk_quiet mgr w tok sess)|].
  destruct Hq as (_ & _ & extra & Hcalls & Hextra). cbn [fst snd] in *. rewrite Hcalls.
  destruct (browserClient sess) as [t|] eqn:Ht.
  - destruct Hok as (H1 & _). destruct (H1 tok sess t Hsess Ht) as [_ Hzero].
    now apply (neverAfterClose_ordinary _ _ t).
  - rewrite (ordinaryOn_none _ Hextra), app_nil_r. exact Hnac.
Qed.

Lemma registryOk_insert_closed (mgr : Manager) (w : World) (tok : string) (sess : Session) :
  registryOk (mgr, w) -> browserClient sess = None ->
  registryOk (set_sessionsByToken (<[tok := sess]> (sessionsByToken mgr)) mgr, w).
Proof.
  intros (H1 & H2 & H3) Hnone. cbn [fst snd] in *.
  split; [|split]; cbn [fst snd]; [| |exact H3].
  - intros tok' s t Hl Ht. cbn in Hl.
    apply lookup_insert_Some in Hl as [[<- <-]|[_ Hl]]; [congruence | eauto].
  - intros tok1 tok2 s1 s2 t Hl1 Hl2 Ht1 Ht2. cbn in Hl1, Hl2.
    apply lookup_insert_Some in Hl1 as [[<- <-]|[_ Hl1]]; [congruence|].
    apply lookup_insert_Some in Hl2 as [[<- <-]|[_ Hl2]]; [congruence | eauto].
Qed.

Section Steps.
Variable browser : Browser.
Variables host port : string.

Lemma safe_disconnect (mgr : Manager) (w : World) (tok : string) (sess : Session) :
  safe (mgr, w) -> sessionsByToken mgr !! tok = Some sess ->
  safe (set_sessionsByToken
          (<[tok := fst (snd (disconnect browser (sess, w)))]> (sessionsByToken mgr)) mgr,
        snd (snd (disconnect browser (sess, w)))).
Proof.
  intros [Hok Hnac] Hsess. split; [now apply registryOk_disconnect|].
  destruct (disconnect_frame browser sess w) as (_ & _ & Hcalls).
  destruct (disconnect browser (sess, w)) as [o [s' w']]. cbn [fst snd] in *.
  destruct (browserClient sess) as [t|] eqn:Ht.
  - destruct Hcalls as (extra & -> & Hextra).
    destruct Hok as (H1 & _). destruct (H1 tok sess t Hsess Ht) as [_ Hzero].
    now apply neverAfterClose_closing.
  - now rewrite Hcalls.
Qed.

Lemma safe_connectToBrowser (mgr : Manager) (w : World) (tok : string) (sess : Session) :
  safe (mgr, w) -> sessionsByToken mgr !! tok = Some sess -> browserClient sess = None ->
  safe (set_sessionsByToken
          (<[tok := fst (snd (connectToBrowser browser host port tok (sess, w)))]>
             (sessionsByToken mgr)) mgr,
        snd (snd (connectToBrowser browser host port tok (sess, w)))).
Proof.
  intros [Hok Hnac] Hsess Hnone. split; [now apply registryOk_connectToBrowser|].
  destruct (connectToBrowser_frame browser host port tok sess w Hnone)
    as (_ & _ & extra & Hcalls & Hextra).
  destruct (connectToBrowser browser host port tok (sess, w)) as [o [s' w']].
  cbn [fst snd] in *. rewrite Hcalls.
  apply (neverAfterClose_ordinary _ _ (opened w)); [exact Hnac | | exact Hextra].
  destruct Hok as (_ & _ & H3). apply (closeCount_above (opened w)); [exact H3 | lia].
Qed.

Local Abbreviation Safe m := (triple safe m (fun _ => safe) safe).

Lemma safely_onSession {A : Type} (tok : string) (m : M St A) :
  (forall bc n cs0, triple (quiet bc n cs0) m (fun _ => quiet bc n cs0) (quiet bc n cs0)) ->
  Safe (onSession tok m).
Proof.
  intros Hm [mgr w] Hok. unfold onSession. cbn [fst snd].
  destruct (sessionsByToken mgr !! tok) as [sess|] eqn:Hsess; [|exact Hok].
  specialize (Hm _ _ _ (sess, w) (quiet_refl sess w)).
  destruct (m (sess, w)) as [[a|e] [s' w']]; cbn [fst snd]; eapply safe_quiet; eauto.
Qed.

Lemma safely_disconnect (tok : string) : Safe (onSession tok (disconnect browser)).
Proof.
  intros [mgr w] Hok. unfold onSession. cbn [fst snd].
  destruct (sessionsByToken mgr !! tok) as [sess|] eqn:Hsess; [|exact Hok].
  pose proof (safe_disconnect mgr w tok sess Hok Hsess) as H.
  destruct (disconnect browser (sess, w)) as [[a|e] [s' w']]; exact H.
Qed.

Lemma safely_updateManager (f : Manager -> Manager) :
  (forall m, sessionsByToken (f m) = sessionsByToken m) -> Safe (updateManager f).
Proof. intros Hf [mgr w] Hok. cbn. eapply safe_same; [apply Hf | | |exact Hok]; reflexivity. Qed.

Lemma safely_delete (tok : string) :
  Safe (updateManager (fun m => set_sessionsByToken (delete tok (sessionsByToken m)) m)).
Proof. intros [mgr w] Hok. cbn. now apply safe_delete. Qed.

Lemma safely_ret {A : Type} (a : A) : Safe (ret a).
Proof. intros st H. exact H. Qed.

Lemma safely_bind {A B : Type} (m : M MSt A) (k : A -> M MSt B) :
  Safe m -> (forall a, Safe (k a)) -> Safe (bind m k).
Proof. intros Hm Hk. eapply triple_bind; [exact Hm | exact Hk]. Qed.

Lemma safely_getManager {A : Type} (k : Manager -> M MSt A) :
  (forall mgr, Safe (k mgr)) -> Safe (bind getManager k).
Proof. intros Hk [mgr w] H. apply (Hk mgr (mgr, w) H). Qed.

Lemma safely_when (c : bool) (m : M MSt unit) : Safe m -> Safe (when c m).
Proof. intros Hm. destruct c; [exact Hm | apply safely_ret]. Qed.

Lemma safely_notifyClient (c : Client) (ev : ClientEvent) : Safe (notifyClient c ev).
Proof.
  intros [mgr w] Hok. unfold notifyClient, modify. cbn [fst snd].
  destruct (ctype c); [|exact Hok]. eapply safe_same; [| | |exact Hok]; reflexivity.
Qed.

Lemma safely_removeClientFromSession (socket : string) :
  Safe (removeClientFromSession browser socket).
Proof.
  unfold removeClientFromSession. apply safely_getManager. intros mgr. cbv zeta.
  apply safely_bind.
  - destruct (socketTokenMap mgr !! socket) as [tok|]; [|apply safely_ret].
    destruct (clientsBySocketId mgr !! socket) as [c|]; [|apply safely_ret].
    destruct (isSet (Some tok)); [|apply safely_ret].
    destruct (sessionsByToken mgr !! tok); [|apply safely_ret].
    apply safely_bind; [apply safely_onSession; intros; apply quiet_removeClient|].
    intros has. apply safely_when. apply safely_bind; [apply safely_disconnect|].
    intros _. apply safely_delete.
  - intros _. apply safely_bind; [|intros _]; apply safely_updateManager; reflexivity.
Qed.

Lemma safely_connectBrowser (socket tok : string) (clientType : ClientType) :
  Safe (connectBrowser browser host port socket tok clientType).
Proof.
  unfold connectBrowser. apply safely_getManager. intros mgr0.
  apply safely_bind; [apply safely_when, safely_removeClientFromSession | intros _].
  apply safely_bind.
  { unfold createClient. apply safely_getManager. intros mgr1.
    apply safely_bind; [apply safely_updateManager; reflexivity | intros _; apply safely_ret]. }
  intros client.
  apply safely_bind; [apply safely_updateManager; reflexivity | intros _].
  apply safely_bind; [apply safely_updateManager; reflexivity | intros _].
  apply safely_getManager. intros mgr.
  destruct (sessionsByToken mgr !! tok).
  - apply safely_bind; [apply safely_onSession; intros; apply quiet_addClient | intros _].
    apply safely_bind; [apply safely_notifyClient | intros _; apply safely_ret].
  - intros [mgr2 w2] Hok.
    rewrite (bind_run _ _ _ (mgr2, w2) (tt, firstClient client)).
    2:{ unfold onFresh. cbn [fst snd]. rewrite (addClient_fresh browser client w2). reflexivity. }
    unfold bind at 1. cbn [updateManager modify fst snd].
    set (mgr3 := set_sessionsByToken (<[tok := firstClient client]> (sessionsByToken mgr2)) mgr2).
    assert (Hadded : browserClient (firstClient client) = None)
      by (unfold firstClient; destruct (ctype client); reflexivity).
    assert (Hok3 : safe (mgr3, w2)).
    { destruct Hok as [H1 H2]. split; [now apply registryOk_insert_closed | exact H2]. }
    assert (Hs3 : sessionsByToken mgr3 !! tok = Some (firstClient client))
      by (cbn; apply lookup_insert_eq).
    pose proof (safe_connectToBrowser mgr3 w2 tok _ Hok3 Hs3 Hadded) as Hfinal.
    unfold bind. rewrite (onSession_run tok _ mgr3 w2 _ Hs3).
    destruct (connectToBrowser browser host port tok (firstClient client, w2))
      as [[[]|e] [s' w']]; exact Hfinal.
Qed.

Lemma safe_serveAll (rs : list Request) (st : MSt) :
  safe st -> safe (serveAll browser host port rs st).
Proof.
  revert st. induction rs as [|r rs IH]; intros st Hok; [exact Hok|].
  cbn [serveAll foldl]. apply IH. destruct r as [socket tok clientType|socket|tok i]; cbn [serve].
  - pose proof (safely_connectBrowser socket tok clientType st Hok) as H.
    destruct (connectBrowser browser host port socket tok clientType st) as [[a|e] st']; exact H.
  - pose proof (safely_removeClientFromSession socket st Hok) as H. unfold disconnectBrowser.
    destruct (removeClientFromSession browser socket st) as [[a|e] st']; exact H.
  - pose proof (safely_onSession tok (settle i) (fun bc n cs0 => quiet_settle bc n cs0 i) st Hok)
      as H.
    destruct (onSession tok (settle i) st) as [[a|e] st']; exact H.
Qed.

(** X14. When the registry serves its events one at a time (attaches,
    detaches and the arrivals of outcomes, each handler completing before the
    next event), whatever the events and whatever the browser answers, no
    call is ever made on a transport that was closed before.  Handlers that
    overlap can close a transport twice. *)
Theorem transports_never_used_after_close (rs : list Request) :
  neverAfterClose (calls (snd (serveAll browser host port rs (emptyManager, emptyWorld)))).
Proof.
  apply safe_serveAll. split; [apply registryOk_empty|].
  intros before c after Heq. destruct before; discriminate Heq.
Qed.

End Steps.

Section SessionSteps.
Variable browser : Browser.
Variables host port : string.

(** Up to its [await] an un-awaited call assigns no field. *)
Lemma begin_preserves (P : Session -> Prop) :
  preserves P (tryStartScreencast_begin browser)
  /\ preserves P (tryStopScreencast_begin browser).
Proof.
  split; unfold tryStartScreencast_begin, tryStopScreencast_begin, startScreencast_begin,
    stopScreencast_begin; preserves_auto.
Qed.

Lemma unawaited_keeps (P : Session -> Prop) (begin : M St (option Suspended)) :
  (forall x l, P x -> P (set_suspended l x)) -> preserves P begin -> returns begin ->
  triple (fun st => P (fst st)) (unawaited begin) (fun _ st => P (fst st)) (fun _ => False).
Proof.
  intros Hf Hp Hr st HP. unfold unawaited, bind.
  destruct (returns_run begin st Hr) as (rest & st' & Hrun).
  specialize (Hp st HP). rewrite Hrun in *. destruct rest; cbn; auto.
Qed.

Lemma setAdd_elem (c x : Client) (l : list Client) : x ∈ setAdd c l <-> x ∈ l \/ x = c.
Proof.
  unfold setAdd. destruct (bool_decide (c ∈ l)) eqn:Hc.
  - apply bool_decide_eq_true in Hc. split; [auto | intros [H| ->]; assumption].
  - rewrite elem_of_app, list_elem_of_singleton. reflexivity.
Qed.

Lemma setDelete_elem (c x : Client) (l : list Client) : x ∈ setDelete c l <-> x ∈ l /\ x <> c.
Proof.
  unfold setDelete. rewrite list_elem_of_In, filter_In, <- list_elem_of_In.
  rewrite negb_true_iff, bool_decide_eq_false. reflexivity.
Qed.

(** What the session-level steps of the registry do to a session. *)
Lemma addClient_session (c : Client) (s : Session) (w : World) :
  exists s' w',
    addClient browser c (s, w) = (Return tt, (s', w'))
    /\ token s' = token s /\ c ∈ clientsOf s'
    /\ (forall x, x ∈ clientsOf s -> x ∈ clientsOf s')
    /\ (sessionOk s -> sessionOk s').
Proof.
  set (P := fun x : Session =>
              token x = token s /\ c ∈ clientsOf x
              /\ (forall y, y ∈ clientsOf s -> y ∈ clientsOf x)
              /\ (sessionOk s -> sessionOk x)).
  assert (Hframe : forall x l, P x -> P (set_suspended l x)) by (intros x l H; exact H).
  assert (H : triple (fun st => fst st = s) (addClient browser c)
                (fun _ st => P (fst st)) (fun _ => False)).
  { unfold addClient. destruct (ctype c) eqn:Hc.
    - eapply triple_bind with (Q1 := fun _ st => P (fst st)).
      + intros [x wx] Hx. cbn in Hx. subst x. cbn. unfold P, clientsOf. cbn.
        split; [reflexivity|]. split; [|split; [|auto]].
        * apply elem_of_app. left. apply setAdd_elem. now right.
        * intros y [Hy|Hy]%elem_of_app; apply elem_of_app; [left | now right].
          apply setAdd_elem. now left.
      + intros _. apply (unawaited_keeps P _ Hframe);
          [apply begin_preserves | apply returns_begin].
    - intros [x wx] Hx. cbn in Hx. subst x. cbn. unfold P, clientsOf. cbn.
      split; [reflexivity|]. split; [|split; [|auto]].
      * apply elem_of_app. right. apply setAdd_elem. now right.
      * intros y [Hy|Hy]%elem_of_app; apply elem_of_app; [now left | right].
        apply setAdd_elem. now left. }
  specialize (H (s, w) eq_refl).
  destruct (addClient browser c (s, w)) as [[[]|e] [s' w']]; [|contradiction].
  exists s', w'. split; [reflexivity | exact H].
Qed.

Lemma removeClient_session (c : Client) (s : Session) (w : World) :
  exists b s' w',
    removeClient browser c (s, w) = (Return b, (s', w'))
    /\ token s' = token s
    /\ (forall x, x ∈ clientsOf s -> x <> c -> x ∈ clientsOf s')
    /\ b = (0 <? getClientCount s')%nat
    /\ (sessionOk s -> sessionOk s').
Proof.
  set (P := fun x : Session =>
              token x = token s
              /\ (forall y, y ∈ clientsOf s -> y <> c -> y ∈ clientsOf x)
              /\ (sessionOk s -> sessionOk x)).
  assert (Hframe : forall x l, P x -> P (set_suspended l x)) by (intros x l H; exact H).
  assert (H : triple (fun st => fst st = s) (removeClient browser c)
                (fun b st => P (fst st) /\ b = (0 <? getClientCount (fst st))%nat)
                (fun _ => False)).
  { unfold removeClient. eapply triple_bind with (Q1 := fun _ st => P (fst st)).
    - destruct (ctype c) eqn:Hc.
      + eapply triple_bind with (Q1 := fun _ st => P (fst st)).
        * intros [x wx] Hx. cbn in Hx. subst x. cbn. unfold P, clientsOf. cbn.
          split; [reflexivity|]. split; [|auto].
          intros y [Hy|Hy]%elem_of_app Hne; apply elem_of_app; [left | now right].
          now apply setDelete_elem.
        * intros _ st Hst. rewrite (bind_run _ _ _ _ _ (getSession_run st)).
          destruct (length (viewerClients (fst st)) =? 0)%nat; cbn [when]; [|exact Hst].
          apply (unawaited_keeps P _ Hframe);
            [apply begin_preserves | apply returns_begin | exact Hst].
      + intros [x wx] Hx. cbn in Hx. subst x. cbn. unfold P, clientsOf. cbn.
        split; [reflexivity|]. split; [|auto].
        intros y [Hy|Hy]%elem_of_app Hne; apply elem_of_app; [now left | right].
        now apply setDelete_elem.
    - intros _ st Hst. cbn. auto. }
  specialize (H (s, w) eq_refl).
  destruct (removeClient browser c (s, w)) as [[b|e] [s' w']]; [|contradiction].
  exists b, s', w'. cbn in H. destruct H as [(H1 & H2 & H3) H4]. auto.
Qed.

Lemma connectToBrowser_session (tok : string) (s : Session) (w : World) :
  exists s' w',
    connectToBrowser browser host port tok (s, w) = (Return tt, (s', w'))
    /\ token s' = tok /\ clientsOf s' = clientsOf s
    /\ (sessionOk s -> sessionOk s').
Proof.
  set (P := fun x : Session => token x = tok /\ clientsOf x = clientsOf s).
  assert (H : triple (fun st => fst st = s) (connectToBrowser browser host port tok)
                (fun _ st => P (fst st)) (fun st => P (fst st))).
  { unfold connectToBrowser.
    eapply triple_try_catch with (E1 := fun st => P (fst st));
      [|intros e; apply (preserves_emitToViewers P)].
    eapply triple_bind with (Q1 := fun _ st => P (fst st)).
    { intros [x wx] Hx. cbn in Hx. subst x. cbn. split; reflexivity. }
    intros _.
    change (preserves P
              (bind (openTransport browser (endpoint host port tok)) (fun t =>
               bind (update (set_browserClient (Some t))) (fun _ =>
               bind (callOn browser t None (Target_setDiscoverTargets true)) (fun _ =>
               bind (findActiveTarget browser) (fun activeTargetId =>
               bind (if isSet activeTargetId
                     then connectToPage browser (default "" activeTargetId)
                     else bind (callOn browser t None (Target_createTarget "about:blank"))
                            (fun created => connectToPage browser
                                              (default "" (payload_targetId created))))
                 (fun _ => bind getSession (fun s0 =>
                    bind (emitToViewers (browser_connected (currentUrl s0) (targetId s0)))
                      (fun _ => emitPageList browser))))))))).
    repeat first [ preserves_step | apply findActiveTarget_preserves
                 | apply connectToPage_preserves; intros x v Hx; exact Hx
                 | apply emitPageList_preserves
                 | apply preserves_update; intros x Hx; exact Hx
                 | preserves_cases ]. }
  specialize (H (s, w) eq_refl).
  pose proof (connectToBrowser_sessionOk browser host port tok (s, w)) as Hok.
  destruct (returns_run _ (s, w) (returns_connectToBrowser browser host port tok))
    as ([] & [s' w'] & Hrun).
  rewrite Hrun in *. cbn in H, Hok. exists s', w'. destruct H as [H1 H2]. auto.
Qed.

End SessionSteps.

Lemma consistent_empty : consistent emptyManager.
Proof.
  split; [|split; [|split]]; cbn.
  - intros socket. rewrite !lookup_empty. split; intros [x [=]].
  - intros socket c H. rewrite lookup_empty in H. discriminate.
  - intros socket tok c H. rewrite lookup_empty in H. discriminate.
  - intros tok sess H. rewrite lookup_empty in H. discriminate.
Qed.

Lemma getClientCount_clientsOf (s : Session) : getClientCount s = length (clientsOf s).
Proof. unfold getClientCount, clientsOf. now rewrite length_app. Qed.

Lemma clientsOf_nonempty (s : Session) (c : Client) : c ∈ clientsOf s -> (0 < getClientCount s)%nat.
Proof.
  rewrite getClientCount_clientsOf. destruct (clientsOf s); [inversion 1 | cbn; lia].
Qed.

Section Detach.
Variable browser : Browser.
Variables host port : string.

Lemma removeClientFromSession_result (socket : string) (mgr : Manager) (w : World) :
  exists sessions' w',
    removeClientFromSession browser socket (mgr, w)
    = (Return tt, (detachedFrom socket mgr sessions', w'))
    /\ (sessions' = sessionsByToken mgr
        \/ exists tok c sess b s1 w1,
             socketTokenMap mgr !! socket = Some tok
             /\ clientsBySocketId mgr !! socket = Some c
             /\ sessionsByToken mgr !! tok = Some sess
             /\ removeClient browser c (sess, w) = (Return b, (s1, w1))
             /\ sessions' !! tok = (if b then Some s1 else None)
             /\ forall k, k <> tok -> sessions' !! k = sessionsByToken mgr !! k).
Proof.
  unfold removeClientFromSession.
  rewrite (bind_run _ _ _ _ _ (eq_refl : getManager (mgr, w) = (Return mgr, (mgr, w)))).
  assert (Hrest : forall (sessions1 : gmap string Session) (w1 : World) (body : M MSt unit),
    body (mgr, w) = (Return tt, (set_sessionsByToken sessions1 mgr, w1)) ->
    bind body (fun _ =>
      bind (updateManager (fun m => set_clientsBySocketId (delete socket (clientsBySocketId m)) m))
        (fun _ => updateManager (fun m => set_socketTokenMap (delete socket (socketTokenMap m)) m)))
      (mgr, w) = (Return tt, (detachedFrom socket mgr sessions1, w1))).
  { intros sessions1 w1 body Hbody. rewrite (bind_run _ _ _ _ _ Hbody). reflexivity. }
  assert (Hskip : forall body : M MSt unit, body (mgr, w) = (Return tt, (mgr, w)) ->
    exists sessions' w',
      bind body (fun _ =>
        bind (updateManager (fun m => set_clientsBySocketId (delete socket (clientsBySocketId m)) m))
          (fun _ => updateManager (fun m => set_socketTokenMap (delete socket (socketTokenMap m)) m)))
        (mgr, w) = (Return tt, (detachedFrom socket mgr sessions', w'))
      /\ (sessions' = sessionsByToken mgr
          \/ exists tok c sess b s1 w1,
               socketTokenMap mgr !! socket = Some tok
               /\ clientsBySocketId mgr !! socket = Some c
               /\ sessionsByToken mgr !! tok = Some sess
               /\ removeClient browser c (sess, w) = (Return b, (s1, w1))
               /\ sessions' !! tok = (if b then Some s1 else None)
               /\ forall k, k <> tok -> sessions' !! k = sessionsByToken mgr !! k)).
  { intros body Hbody. exists (sessionsByToken mgr), w. split; [|now left].
    apply Hrest. rewrite Hbody. now destruct mgr. }
  destruct (socketTokenMap mgr !! socket) as [tok|] eqn:Htok; [|now apply Hskip].
  destruct (clientsBySocketId mgr !! socket) as [c|] eqn:Hclient; [|now apply Hskip].
  destruct (isSet (Some tok)) eqn:Hset; [|now apply Hskip].
  destruct (sessionsByToken mgr !! tok) as [sess|] eqn:Hsess; [|now apply Hskip].
  destruct (removeClient_session browser c sess w) as (b & s1 & w1 & Hrm & _).
  pose proof (onSession_run tok (removeClient browser c) mgr w sess Hsess) as Hon.
  rewrite Hrm in Hon. cbn [fst snd] in Hon.
  set (mgr1 := set_sessionsByToken (<[tok:=s1]> (sessionsByToken mgr)) mgr) in *.
  destruct b.
  - exists (<[tok:=s1]> (sessionsByToken mgr)), w1. split.
    + apply Hrest. rewrite (bind_run _ _ _ _ _ Hon). reflexivity.
    + right. exists tok, c, sess, true, s1, w1. repeat split; try assumption.
      * apply lookup_insert_eq.
      * intros k Hk. now apply lookup_insert_ne.
  - destruct (returns_run _ (s1, w1) (returns_disconnect browser)) as ([] & [s2 w2] & Hdis).
    assert (Hs1 : sessionsByToken mgr1 !! tok = Some s1) by (cbn; apply lookup_insert_eq).
    pose proof (onSession_run tok (disconnect browser) mgr1 w1 s1 Hs1) as Hon2.
    rewrite Hdis in Hon2. cbn [fst snd] in Hon2.
    exists (delete tok (<[tok:=s2]> (<[tok:=s1]> (sessionsByToken mgr)))), w2. split.
    + apply Hrest. rewrite (bind_run _ _ _ _ _ Hon). cbn [negb when].
      rewrite (bind_run _ _ _ _ _ Hon2). reflexivity.
    + right. exists tok, c, sess, false, s1, w1. repeat split; try assumption.
      * apply lookup_delete_eq.
      * intros k Hk. rewrite lookup_delete_ne by congruence.
        rewrite !lookup_insert_ne by congruence. reflexivity.
Qed.

Lemma consistent_detached (socket : string) (mgr : Manager) (w : World)
    (sessions' : gmap string Session) :
  consistent mgr ->
  (sessions' = sessionsByToken mgr
   \/ exists tok c sess b s1 w1,
        socketTokenMap mgr !! socket = Some tok
        /\ clientsBySocketId mgr !! socket = Some c
        /\ sessionsByToken mgr !! tok = Some sess
        /\ removeClient browser c (sess, w) = (Return b, (s1, w1))
        /\ sessions' !! tok = (if b then Some s1 else None)
        /\ forall k, k <> tok -> sessions' !! k = sessionsByToken mgr !! k) ->
  consistent (detachedFrom socket mgr sessions').
Proof.
  intros (K1 & K2 & K3 & K4) Hcase.
  assert (Hmaps : (forall s, is_Some (delete socket (socketTokenMap mgr) !! s)
                             <-> is_Some (delete socket (clientsBySocketId mgr) !! s))
                  /\ (forall s c, delete socket (clientsBySocketId mgr) !! s = Some c ->
                                  socketId c = s)).
  { split.
    - intros s. destruct (decide (s = socket)) as [->|Hne].
      + rewrite !lookup_delete_eq. split; intros [x [=]].
      + rewrite !lookup_delete_ne by congruence. apply K1.
    - intros s c Hc. apply lookup_delete_Some in Hc as [_ Hc]. eauto. }
  destruct Hmaps as [K1' K2'].
  destruct Hcase as [->|(tok & c & sess & b & s1 & w1 & Htok & Hclient & Hsess & Hrm & Hat & Hother)].
  - split; [exact K1'|]. split; [exact K2'|]. split; [|exact K4].
    intros s tok c Ht Hc. cbn in *.
    apply lookup_delete_Some in Ht as [_ Ht]. apply lookup_delete_Some in Hc as [_ Hc]. eauto.
  - destruct (removeClient_session browser c sess w) as (b' & s1' & w1' & Hrm' & Htoken & Hkeep & Hb & Hok).
    rewrite Hrm in Hrm'. injection Hrm' as <- <- <-.
    destruct (K4 tok sess Hsess) as (Ktok & _ & Kok).
    split; [exact K1'|]. split; [exact K2'|]. split.
    + intros s tok' c' Ht Hc. cbn in Ht, Hc.
      apply lookup_delete_Some in Ht as [Hne Ht]. apply lookup_delete_Some in Hc as [_ Hc].
      destruct (K3 s tok' c' Ht Hc) as (sess' & Hsess' & Hmem).
      destruct (decide (tok' = tok)) as [->|Hnt]; [|exists sess'; now rewrite Hother].
      assert (sess' = sess) as -> by congruence.
      assert (Hcc : c' <> c).
      { intros ->. apply Hne. rewrite <- (K2 s c Hc), <- (K2 socket c Hclient). reflexivity. }
      pose proof (Hkeep c' Hmem Hcc) as Hmem1.
      destruct b.
      * exists s1. auto.
      * apply clientsOf_nonempty in Hmem1. symmetry in Hb. apply Nat.ltb_ge in Hb. lia.
    + intros tok' sess' Hl. cbn in Hl.
      destruct (decide (tok' = tok)) as [->|Hnt]; [|rewrite Hother in Hl by exact Hnt; eauto].
      rewrite Hat in Hl. destruct b; [|discriminate]. injection Hl as <-.
      split; [congruence|]. split; [|auto]. symmetry in Hb. now apply Nat.ltb_lt in Hb.
Qed.

Lemma removeClientFromSession_consistent (socket : string) (mgr : Manager) (w : World) :
  consistent mgr ->
  exists mgr' w',
    removeClientFromSession browser socket (mgr, w) = (Return tt, (mgr', w'))
    /\ consistent mgr'
    /\ socketTokenMap mgr' !! socket = None /\ clientsBySocketId mgr' !! socket = None
    /\ created mgr' = created mgr
    /\ (forall s, s <> socket -> socketTokenMap mgr' !! s = socketTokenMap mgr !! s
                                 /\ clientsBySocketId mgr' !! s = clientsBySocketId mgr !! s).
Proof.
  intros Hok. destruct (removeClientFromSession_result socket mgr w) as (sessions' & w' & Hrun & Hcase).
  exists (detachedFrom socket mgr sessions'), w'. split; [exact Hrun|].
  split; [now apply (consistent_detached socket mgr w)|]. cbn.
  split; [apply lookup_delete_eq|]. split; [apply lookup_delete_eq|]. split; [reflexivity|].
  intros s Hs. now rewrite !lookup_delete_ne by congruence.
Qed.

End Detach.

Lemma firstClient_ok (client : Client) :
  sessionOk (firstClient client) /\ clientsOf (firstClient client) = [client]
  /\ browserClient (firstClient client) = None.
Proof.
  unfold firstClient. destruct (ctype client); cbn; repeat split; try discriminate; set_solver.
Qed.

Section Attach.
Variable browser : Browser.
Variables host port : string.

(** The optional first step of [connectBrowser]. *)
Lemma previous_attachment_removed (socket : string) (mgr : Manager) (w : World) :
  consistent mgr ->
  exists mgr1 w1,
    when (isSet (socketTokenMap mgr !! socket)) (removeClientFromSession browser socket) (mgr, w)
    = (Return tt, (mgr1, w1))
    /\ consistent mgr1
    /\ (forall tok, socketTokenMap mgr1 !! socket = Some tok -> tok = "")
    /\ (socketTokenMap mgr !! socket = None -> mgr1 = mgr /\ w1 = w).
Proof.
  intros Hok. destruct (isSet (socketTokenMap mgr !! socket)) eqn:Hset; cbn [when].
  - destruct (removeClientFromSession_consistent browser socket mgr w Hok)
      as (mgr1 & w1 & Hrun & Hok1 & Hgone & _).
    exists mgr1, w1. split; [exact Hrun|]. split; [exact Hok1|]. split.
    + intros tok Htok. rewrite Hgone in Htok. discriminate.
    + intros Hnone. rewrite Hnone in Hset. discriminate.
  - exists mgr, w. split; [reflexivity|]. split; [exact Hok|]. split; [|auto].
    intros tok Htok. rewrite Htok in Hset. cbn in Hset.
    destruct (String.eqb_spec tok ""); [assumption | discriminate].
Qed.

Lemma connectBrowser_result (socket tok : string) (clientType : ClientType) (mgr : Manager)
    (w : World) :
  consistent mgr ->
  exists mgr1 w1 s' w',
    when (isSet (socketTokenMap mgr !! socket)) (removeClientFromSession browser socket) (mgr, w)
    = (Return tt, (mgr1, w1))
    /\ consistent mgr1
    /\ let client := {| cid := created mgr1; socketId := socket; ctype := clientType |} in
       connectBrowser browser host port socket tok clientType (mgr, w)
       = (Return (bool_decide (is_Some (sessionsByToken mgr1 !! tok))),
          (attachedTo socket tok client mgr1 (<[tok := s']> (sessionsByToken mgr1)), w'))
       /\ token s' = tok /\ client ∈ clientsOf s' /\ sessionOk s'
       /\ (forall sess x, sessionsByToken mgr1 !! tok = Some sess -> x ∈ clientsOf sess ->
                          x ∈ clientsOf s').
Proof.
  intros Hok.
  destruct (previous_attachment_removed socket mgr w Hok) as (mgr1 & w1 & Hrun1 & Hok1 & _).
  set (client := {| cid := created mgr1; socketId := socket; ctype := clientType |}).
  set (mgr2 := set_socketTokenMap (<[socket := tok]> (socketTokenMap mgr1))
                 (set_clientsBySocketId (<[socket := client]> (clientsBySocketId mgr1))
                    (set_created (S (created mgr1)) mgr1))).
  assert (Hprefix : forall k : Manager -> M MSt bool,
    connectBrowser browser host port socket tok clientType (mgr, w)
    = (bind getManager (fun m =>
         match sessionsByToken m !! tok with
         | Some _ =>
             bind (onSession tok (addClient browser client)) (fun _ =>
             bind (notifyClient client (browser_connected "" None)) (fun _ => ret true))
         | None =>
             bind (onFresh newSession (addClient browser client)) (fun added =>
             bind (updateManager (fun m => set_sessionsByToken
                                             (<[tok := snd added]> (sessionsByToken m)) m))
               (fun _ =>
             bind (onSession tok (connectToBrowser browser host port tok)) (fun _ => ret false)))
         end)) (mgr2, w1)).
  { intros _. unfold connectBrowser.
    rewrite (bind_run _ _ _ _ _ (eq_refl : getManager (mgr, w) = (Return mgr, (mgr, w)))).
    rewrite (bind_run _ _ _ _ _ Hrun1).
    rewrite (bind_run _ _ _ (set_created (S (created mgr1)) mgr1, w1) client) by reflexivity.
    unfold bind at 1. cbn [updateManager modify fst snd].
    unfold bind at 1. cbn [updateManager modify fst snd]. reflexivity. }
  rewrite (Hprefix (fun _ => ret true)).
  rewrite (bind_run _ _ _ _ _ (eq_refl : getManager (mgr2, w1) = (Return mgr2, (mgr2, w1)))).
  change (sessionsByToken mgr2) with (sessionsByToken mgr1).
  destruct (sessionsByToken mgr1 !! tok) as [sess|] eqn:Hsess.
  - destruct (addClient_session browser client sess w1) as (s' & w' & Hadd & Htok & Hin & Hkeep & Hsok).
    pose proof Hok1 as (K1 & K2 & K3 & K4). destruct (K4 tok sess Hsess) as (Ktok & _ & Ksok).
    exists mgr1, w1, s', (match clientType with
                          | VIEWER => logDeliveries [(client, browser_connected "" None)] w'
                          | API => w'
                          end).
    split; [exact Hrun1|]. split; [exact Hok1|]. cbv zeta. fold client.
    split; [|split; [congruence|split; [exact Hin|split; [exact (Hsok Ksok)|]]]].
    + rewrite (bind_run _ _ _ (set_sessionsByToken (<[tok := s']> (sessionsByToken mgr2)) mgr2, w') tt).
      2:{ rewrite (onSession_run tok _ mgr2 w1 sess Hsess), Hadd. reflexivity. }
      unfold bind, notifyClient, modify. cbn [fst snd ctype client].
      rewrite bool_decide_eq_true_2 by eauto. destruct clientType; reflexivity.
    + intros sess0 x Heq Hx. apply Hkeep. assert (sess0 = sess) as -> by congruence. exact Hx.
  - destruct (firstClient_ok client) as (Hfok & Hfclients & Hfnone).
    destruct (connectToBrowser_session browser host port tok (firstClient client) w1)
      as (s' & w' & Hconn & Htok & Hclients & Hsok).
    exists mgr1, w1, s', w'.
    split; [exact Hrun1|]. split; [exact Hok1|]. cbv zeta. fold client.
    split; [|split; [exact Htok|split; [|split; [exact (Hsok Hfok)|]]]].
    + rewrite (bind_run _ _ _ (mgr2, w1) (tt, firstClient client)).
      2:{ unfold onFresh. cbn [fst snd]. rewrite (addClient_fresh browser client w1). reflexivity. }
      unfold bind at 1. cbn [updateManager modify fst snd].
      set (mgr3 := set_sessionsByToken (<[tok := firstClient client]> (sessionsByToken mgr2)) mgr2).
      assert (Hs3 : sessionsByToken mgr3 !! tok = Some (firstClient client))
        by (cbn; apply lookup_insert_eq).
      unfold bind. rewrite (onSession_run tok _ mgr3 w1 _ Hs3), Hconn. cbn [fst snd].
      rewrite bool_decide_eq_false_2 by (rewrite Hsess; intros [x [=]]).
      unfold attachedTo, mgr3, mgr2, ret. cbn. now rewrite insert_insert_eq.
    + rewrite Hclients, Hfclients. now apply list_elem_of_singleton.
    + intros sess x Heq. rewrite Hsess in Heq. discriminate.
Qed.

Lemma consistent_attachedTo (socket tok : string) (client : Client) (mgr1 : Manager)
    (s' : Session) :
  consistent mgr1 -> socketId client = socket ->
  token s' = tok -> client ∈ clientsOf s' -> sessionOk s' ->
  (forall sess x, sessionsByToken mgr1 !! tok = Some sess -> x ∈ clientsOf sess ->
                  x ∈ clientsOf s') ->
  consistent (attachedTo socket tok client mgr1 (<[tok := s']> (sessionsByToken mgr1))).
Proof.
  intros (K1 & K2 & K3 & K4) Hsock Htok Hin Hsok Hkeep.
  split; [|split; [|split]]; cbn.
  - intros s. destruct (decide (s = socket)) as [->|Hne].
    + rewrite !lookup_insert_eq. split; eauto.
    + rewrite !lookup_insert_ne by congruence. apply K1.
  - intros s c Hc. apply lookup_insert_Some in Hc as [[<- <-]|[_ Hc]]; eauto.
  - intros s tok' c Ht Hc.
    apply lookup_insert_Some in Ht as [[<- <-]|[Hne Ht]].
    + rewrite lookup_insert_eq in Hc. injection Hc as <-.
      exists s'. split; [apply lookup_insert_eq | exact Hin].
    + rewrite lookup_insert_ne in Hc by exact Hne.
      destruct (K3 s tok' c Ht Hc) as (sess & Hsess & Hmem).
      destruct (decide (tok' = tok)) as [->|Hnt].
      * exists s'. split; [apply lookup_insert_eq | eauto].
      * exists sess. split; [now rewrite lookup_insert_ne | exact Hmem].
  - intros tok' sess Hl. apply lookup_insert_Some in Hl as [[<- <-]|[_ Hl]]; [|eauto].
    split; [exact Htok|]. split; [eapply clientsOf_nonempty; eauto | exact Hsok].
Qed.

(** The arrival of an outcome changes neither the token nor the clients of
    the session it resumes. *)
Lemma consistent_arrival (tok : string) (i : nat) (mgr : Manager) (w : World) :
  consistent mgr -> consistent (fst (snd (onSession tok (settle i) (mgr, w)))).
Proof.
  intros Hok. unfold onSession. cbn [fst snd].
  destruct (sessionsByToken mgr !! tok) as [sess|] eqn:Hsess; [|exact Hok].
  set (P := fun x : Session => token x = token sess /\ clientsOf x = clientsOf sess
                               /\ (sessionOk sess -> sessionOk x)).
  pose proof (preserves_state P (settle i) (sess, w)
                (preserves_settle P i (fun x b H => H) (fun x l H => H))
                (conj eq_refl (conj eq_refl (fun H => H)))) as (Htok & Hclients & Hsok).
  destruct (settle i (sess, w)) as [o [s' w']]. cbn [fst snd] in *.
  destruct Hok as (K1 & K2 & K3 & K4). split; [exact K1|]. split; [exact K2|]. split.
  - intros socket tok0 c Ht Hc. cbn.
    destruct (K3 socket tok0 c Ht Hc) as (sess0 & Hsess0 & Hin).
    destruct (decide (tok0 = tok)) as [->|Hne].
    + rewrite lookup_insert_eq. exists s'. split; [reflexivity|].
      rewrite Hclients. congruence.
    + rewrite lookup_insert_ne by congruence. eauto.
  - intros tok0 sess0 Hl. cbn in Hl.
    apply lookup_insert_Some in Hl as [[<- <-]|[_ Hl]]; [|eauto].
    destruct (K4 tok sess Hsess) as (H1 & H2 & H3).
    split; [congruence|]. split; [|auto].
    rewrite getClientCount_clientsOf, Hclients, <- getClientCount_clientsOf. exact H2.
Qed.

Lemma consistent_serveAll (rs : list Request) (st : MSt) :
  consistent (fst st) -> consistent (fst (serveAll browser host port rs st)).
Proof.
  revert st. induction rs as [|r rs IH]; intros [mgr w] Hok; [exact Hok|].
  cbn [serveAll foldl]. apply IH. destruct r as [socket tok clientType|socket|tok i]; cbn [serve].
  3:{ now apply consistent_arrival. }
  - destruct (connectBrowser_result socket tok clientType mgr w Hok)
      as (mgr1 & w1 & s' & w' & _ & Hok1 & Hrun & Htok & Hin & Hsok & Hkeep).
    rewrite Hrun. cbn [fst snd]. now apply consistent_attachedTo.
  - unfold disconnectBrowser.
    destruct (removeClientFromSession_consistent browser socket mgr w Hok)
      as (mgr' & w' & Hrun & Hok' & _). rewrite Hrun. exact Hok'.
Qed.

(** X15. In every registry reached by serving events one at a time (attaches,
    detaches and the arrivals of outcomes, each handler completing before the
    next event), a socket recorded with a token has its client (carrying the
    id of the socket), the token has a registered session, and the client is
    among the clients of that session; [getSessionBySocket] finds that
    session unless the token is the empty string. *)
Theorem attached_socket_has_session (rs : list Request) (socket tok : string) :
  let mgr := fst (serveAll browser host port rs (emptyManager, emptyWorld)) in
  socketTokenMap mgr !! socket = Some tok ->
  exists c sess,
    getClientBySocket mgr socket = Some c /\ socketId c = socket
    /\ getSessionByToken mgr tok = Some sess /\ c ∈ clientsOf sess
    /\ (tok <> "" -> getSessionBySocket mgr socket = Some sess).
Proof.
  intros mgr Htok.
  assert (Hok : consistent mgr) by (apply consistent_serveAll, consistent_empty).
  destruct Hok as (K1 & K2 & K3 & _).
  destruct (proj1 (K1 socket) (ltac:(eauto))) as [c Hc].
  destruct (K3 socket tok c Htok Hc) as (sess & Hsess & Hmem).
  exists c, sess. unfold getClientBySocket, getSessionByToken, getSessionBySocket.
  rewrite Htok. repeat split; eauto.
  intros Hne. cbn. destruct (String.eqb_spec tok ""); [contradiction | exact Hsess].
Qed.

(** X16. In every registry reached by serving events one at a time (attaches,
    detaches and the arrivals of outcomes, each handler completing before the
    next event), a session registered under a token carries that token, has
    at least one client, holds a page session only with a transport and has
    only Control, Alt and Shift in its pressed set. *)
Theorem registered_session_well_formed (rs : list Request) (tok : string) (sess : Session) :
  let mgr := fst (serveAll browser host port rs (emptyManager, emptyWorld)) in
  getSessionByToken mgr tok = Some sess ->
  token sess = tok /\ (0 < getClientCount sess)%nat
  /\ pageNeedsTransport sess /\ pressedModifiers sess ⊆ modifierNames.
Proof.
  intros mgr Hsess.
  assert (Hok : consistent mgr) by (apply consistent_serveAll, consistent_empty).
  destruct Hok as (_ & _ & _ & K4). destruct (K4 tok sess Hsess) as (H1 & H2 & H3 & H4). auto.
Qed.

End Attach.

Section Reuse.
Variable browser : Browser.
Variables host port : string.

Lemma connectBrowser_steps (socket tok : string) (clientType : ClientType) (mgr : Manager)
    (w : World) :
  exists mgr1 w1,
    when (isSet (socketTokenMap mgr !! socket)) (removeClientFromSession browser socket) (mgr, w)
    = (Return tt, (mgr1, w1))
    /\ connectBrowser browser host port socket tok clientType (mgr, w)
       = joinOrCreate browser host port tok
           {| cid := created mgr1; socketId := socket; ctype := clientType |}
           (filed socket tok {| cid := created mgr1; socketId := socket; ctype := clientType |}
              mgr1, w1).
Proof.
  assert (Hfirst : exists mgr1 w1,
    when (isSet (socketTokenMap mgr !! socket)) (removeClientFromSession browser socket) (mgr, w)
    = (Return tt, (mgr1, w1))).
  { destruct (isSet (socketTokenMap mgr !! socket)); cbn [when]; [|eauto].
    destruct (removeClientFromSession_run browser socket mgr w) as (mgr1 & w1 & Hrun & _). eauto. }
  destruct Hfirst as (mgr1 & w1 & Hrun1). exists mgr1, w1. split; [exact Hrun1|].
  unfold connectBrowser.
  rewrite (bind_run _ _ _ _ _ (eq_refl : getManager (mgr, w) = (Return mgr, (mgr, w)))).
  rewrite (bind_run _ _ _ _ _ Hrun1).
  rewrite (bind_run _ _ _ (set_created (S (created mgr1)) mgr1, w1)
             {| cid := created mgr1; socketId := socket; ctype := clientType |}) by reflexivity.
  unfold bind at 1. cbn [updateManager modify fst snd].
  unfold bind at 1. cbn [updateManager modify fst snd]. reflexivity.
Qed.

Lemma joinOrCreate_returns (tok : string) (client : Client) (st : MSt) :
  exists reused, fst (joinOrCreate browser host port tok client st) = Return reused.
Proof.
  destruct st as [mgr w]. unfold joinOrCreate.
  rewrite (bind_run _ _ _ _ _ (eq_refl : getManager (mgr, w) = (Return mgr, (mgr, w)))).
  destruct (sessionsByToken mgr !! tok) as [sess|] eqn:Hsess.
  - destruct (returns_run _ (sess, w) (returns_addClient browser client)) as ([] & [s' w'] & Hadd).
    rewrite (bind_run _ _ _ (set_sessionsByToken (<[tok := s']> (sessionsByToken mgr)) mgr, w') tt).
    2:{ rewrite (onSession_run tok _ mgr w sess Hsess), Hadd. reflexivity. }
    exists true. reflexivity.
  - rewrite (bind_run _ _ _ (mgr, w) (tt, firstClient client)).
    2:{ unfold onFresh. cbn [fst snd]. rewrite (addClient_fresh browser client w). reflexivity. }
    unfold bind at 1. cbn [updateManager modify fst snd].
    set (mgr3 := set_sessionsByToken (<[tok := firstClient client]> (sessionsByToken mgr)) mgr).
    assert (Hs3 : sessionsByToken mgr3 !! tok = Some (firstClient client))
      by (cbn; apply lookup_insert_eq).
    destruct (returns_run _ (firstClient client, w)
                (returns_connectToBrowser browser host port tok)) as ([] & [s' w'] & Hconn).
    unfold bind. rewrite (onSession_run tok _ mgr3 w _ Hs3), Hconn. exists false. reflexivity.
Qed.

(** X17. [connectBrowser], [disconnectBrowser] and [handleSocketDisconnect]
    never reject, in any state of the registry and whatever the browser
    answers. *)
Theorem registry_never_rejects (socket tok : string) (clientType : ClientType) (st : MSt) :
  (exists reused, fst (connectBrowser browser host port socket tok clientType st) = Return reused)
  /\ fst (disconnectBrowser browser socket st) = Return tt
  /\ fst (handleSocketDisconnect browser socket st) = Return tt.
Proof.
  destruct st as [mgr w]. split; [|split].
  - destruct (connectBrowser_steps socket tok clientType mgr w) as (mgr1 & w1 & _ & ->).
    apply joinOrCreate_returns.
  - destruct (removeClientFromSession_run browser socket mgr w) as (mgr' & w' & Hrun & _).
    unfold disconnectBrowser. now rewrite Hrun.
  - destruct (removeClientFromSession_run browser socket mgr w) as (mgr' & w' & Hrun & _).
    unfold handleSocketDisconnect. now rewrite Hrun.
Qed.

(** X18. [connectBrowser] of an unattached socket with a token that has a
    session answers [reused: true] and files the new client under the socket
    and in that session.  The session keeps its transport, page session,
    target and URL; no transport is opened or closed.  A viewer is then told
    [browser:connected] with an empty URL and no target id; for an API client
    the browser and the viewers see nothing. *)
Theorem connectBrowser_reuses_session (mgr : Manager) (w : World) (socket tok : string)
    (clientType : ClientType) (sess : Session) :
  socketTokenMap mgr !! socket = None ->
  sessionsByToken mgr !! tok = Some sess ->
  let client := {| cid := created mgr; socketId := socket; ctype := clientType |} in
  let result := connectBrowser browser host port socket tok clientType (mgr, w) in
  let mgr' := fst (snd result) in
  let w' := snd (snd result) in
  fst result = Return true
  /\ getClientBySocket mgr' socket = Some client /\ socketTokenMap mgr' !! socket = Some tok
  /\ (exists sess', getSessionByToken mgr' tok = Some sess' /\ client ∈ clientsOf sess'
                    /\ browserClient sess' = browserClient sess
                    /\ sessionId sess' = sessionId sess /\ targetId sess' = targetId sess
                    /\ currentUrl sess' = currentUrl sess)
  /\ opened w' = opened w /\ (forall t, closeCount t (calls w') = closeCount t (calls w))
  /\ match clientType with
     | VIEWER => exists before, deliveries w' = (before ++ [(client, browser_connected "" None)])%list
     | API => w' = w
     end.
Proof.
  intros Hfree Hsess client result mgr' w'.
  destruct (connectBrowser_steps socket tok clientType mgr w) as (mgr1 & w1 & Hrun1 & Hrun).
  rewrite Hfree in Hrun1. cbn [isSet when ret] in Hrun1. injection Hrun1 as <- <-.
  fold client in Hrun.
  assert (Hsess2 : sessionsByToken (filed socket tok client mgr) !! tok = Some sess) by exact Hsess.
  destruct (addClient_session browser client sess w) as (s' & wa & Hadd & _ & Hin & _).
  pose proof (quiet_addClient browser _ _ _ client (sess, w) (quiet_refl sess w)) as Hq.
  pose proof (addClient_preserves browser
                (fun x => sessionId x = sessionId sess /\ targetId x = targetId sess
                          /\ currentUrl x = currentUrl sess) client
                (fun x b H => H) (fun x l H => H) (fun x l H => H) (sess, w)
                (conj eq_refl (conj eq_refl eq_refl))) as Hframe.
  rewrite Hadd in Hq, Hframe. unfold quiet in Hq. cbn [fst snd] in Hq, Hframe.
  destruct Hq as (Hb & Ho & extra & Hcalls & Hextra). destruct Hframe as (Hsid & Htid & Hurl).
  assert (Hresult : result
    = (Return true,
       (set_sessionsByToken (<[tok := s']> (sessionsByToken mgr)) (filed socket tok client mgr),
        match clientType with
        | VIEWER => logDeliveries [(client, browser_connected "" None)] wa
        | API => wa
        end))).
  { subst result. rewrite Hrun. unfold joinOrCreate.
    rewrite (bind_run _ _ _ _ _ (eq_refl : getManager (filed socket tok client mgr, w)
                                           = (Return (filed socket tok client mgr),
                                              (filed socket tok client mgr, w)))).
    rewrite Hsess2.
    rewrite (bind_run _ _ _
               (set_sessionsByToken (<[tok := s']> (sessionsByToken mgr))
                  (filed socket tok client mgr), wa) tt).
    2:{ rewrite (onSession_run tok _ _ w sess Hsess2), Hadd. reflexivity. }
    unfold bind, notifyClient, modify. cbn [fst snd ctype client].
    destruct clientType; reflexivity. }
  subst mgr' w'. rewrite Hresult. cbn [fst snd].
  split; [reflexivity|]. split; [apply lookup_insert_eq|]. split; [apply lookup_insert_eq|].
  split.
  { exists s'. unfold getSessionByToken. cbn. rewrite lookup_insert_eq. repeat split; assumption. }
  assert (Hcount : forall t, closeCount t (calls wa) = closeCount t (calls w)).
  { intros t. rewrite Hcalls, closeCount_app, (closeCount_ordinary _ _ _ Hextra). lia. }
  destruct clientType.
  - cbn. split; [exact Ho|]. split; [exact Hcount|]. eauto.
  - split; [exact Ho|]. split; [exact Hcount|].
    unfold addClient in Hadd. cbn in Hadd. now injection Hadd as _ <-.
Qed.

(** X19. After [disconnectBrowser], in any state, the socket has no client, no
    token and no session; the entries of the other sockets are untouched and
    no session appears under a token that had none. *)
Theorem disconnectBrowser_forgets (socket : string) (mgr : Manager) (w : World) :
  let mgr' := fst (snd (disconnectBrowser browser socket (mgr, w))) in
  getClientBySocket mgr' socket = None /\ getSessionBySocket mgr' socket = None
  /\ socketTokenMap mgr' !! socket = None
  /\ (forall other, other <> socket ->
        getClientBySocket mgr' other = getClientBySocket mgr other
        /\ socketTokenMap mgr' !! other = socketTokenMap mgr !! other)
  /\ (forall tok, getSessionByToken mgr tok = None -> getSessionByToken mgr' tok = None).
Proof.
  cbv zeta. unfold disconnectBrowser.
  destruct (removeClientFromSession_run browser socket mgr w)
    as (mgr' & w' & Hrun & Hfree & _ & Hclients & Htokens).
  rewrite Hrun. cbn [fst snd]. unfold getClientBySocket, getSessionBySocket, getSessionByToken.
  rewrite Hclients, Htokens, !lookup_delete_eq.
  split; [reflexivity|]. split; [reflexivity|]. split; [reflexivity|]. split; [|exact Hfree].
  intros other Hne. now rewrite !lookup_delete_ne by congruence.
Qed.

(** X20. Once [disconnectBrowser] has run for a socket, the
    [handleSocketDisconnect] that follows for the same socket returns and
    changes nothing: neither the registry nor the calls and deliveries. *)
Theorem second_detach_is_noop (socket : string) (st : MSt) :
  let st1 := snd (disconnectBrowser browser socket st) in
  handleSocketDisconnect browser socket st1 = (Return tt, st1).
Proof.
  destruct st as [mgr w]. cbv zeta. unfold disconnectBrowser.
  destruct (removeClientFromSession_run browser socket mgr w)
    as (mgr' & w' & Hrun & _ & _ & Hclients & Htokens).
  rewrite Hrun. cbn [snd]. unfold handleSocketDisconnect, removeClientFromSession.
  rewrite (bind_run _ _ _ _ _ (eq_refl : getManager (mgr', w') = (Return mgr', (mgr', w')))).
  cbv zeta. rewrite Htokens, lookup_delete_eq.
  unfold bind, ret, updateManager, modify. cbn [fst snd].
  f_equal. f_equal. destruct mgr' as [ss cs ts n]. cbn in *. subst cs ts.
  unfold set_socketTokenMap, set_clientsBySocketId. cbn.
  now rewrite !delete_delete_eq.
Qed.

End Reuse.

Lemma attached_socket_has_session_witness :
  let mgr := fst (serveAll sampleBrowser "localhost" "9222" oneViewer
                    (emptyManager, emptyWorld)) in
  socketTokenMap mgr !! "v" = Some "T"
  /\ exists c sess,
       getClientBySocket mgr "v" = Some c /\ socketId c = "v"
       /\ getSessionByToken mgr "T" = Some sess /\ c ∈ clientsOf sess
       /\ ("T" <> "" -> getSessionBySocket mgr "v" = Some sess).
Proof.
  cbv zeta. split; [vm_compute; reflexivity|].
  apply (attached_socket_has_session sampleBrowser "localhost" "9222" oneViewer "v" "T").
  vm_compute. reflexivity.
Defined.

Lemma registered_session_well_formed_witness :
  getSessionByToken (fst (serveAll sampleBrowser "localhost" "9222" oneViewer
                            (emptyManager, emptyWorld))) "T" = Some servedSession
  /\ token servedSession = "T" /\ (0 < getClientCount servedSession)%nat
  /\ pageNeedsTransport servedSession /\ pressedModifiers servedSession ⊆ modifierNames.
Proof.
  split; [vm_compute; reflexivity|].
  apply (registered_session_well_formed sampleBrowser "localhost" "9222" oneViewer "T"
           servedSession).
  vm_compute. reflexivity.
Defined.

Lemma connectBrowser_reuses_session_witness :
  let st := serveAll sampleBrowser "localhost" "9222" oneViewer (emptyManager, emptyWorld) in
  let result := connectBrowser sampleBrowser "localhost" "9222" "a" "T" API st in
  socketTokenMap (fst st) !! "a" = None
  /\ sessionsByToken (fst st) !! "T" = Some servedSession
  /\ fst result = Return true
  /\ getClientBySocket (fst (snd result)) "a" = Some apiJoiner
  /\ snd (snd result) = snd st.
Proof.
  cbv zeta. split; [vm_compute; reflexivity|]. split; [vm_compute; reflexivity|].
  pose proof (connectBrowser_reuses_session sampleBrowser "localhost" "9222"
                (fst (serveAll sampleBrowser "localhost" "9222" oneViewer
                        (emptyManager, emptyWorld)))
                (snd (serveAll sampleBrowser "localhost" "9222" oneViewer
                        (emptyManager, emptyWorld)))
                "a" "T" API servedSession) as H.
  cbv zeta in H. rewrite <- surjective_pairing in H.
  destruct H as (Hret & Hclient & _ & _ & _ & _ & Hworld).
  - vm_compute. reflexivity.
  - vm_compute. reflexivity.
  - split; [exact Hret|]. split; [|exact Hworld].
    rewrite Hclient. vm_compute. reflexivity.
Defined.

Section Edges.
Variable browser : Browser.
Variables host port : string.

(** [joinOrCreate] leaves the socket maps alone and registers one session
    under the token: the joined one, or the new one once connected. *)
Lemma joinOrCreate_run (tok : string) (client : Client) (mgr : Manager) (w : World) :
  exists s' w',
    joinOrCreate browser host port tok client (mgr, w)
    = (Return (bool_decide (is_Some (sessionsByToken mgr !! tok))),
       (set_sessionsByToken (<[tok := s']> (sessionsByToken mgr)) mgr, w'))
    /\ (sessionsByToken mgr !! tok = None ->
        connectToBrowser browser host port tok (firstClient client, w) = (Return tt, (s', w'))).
Proof.
  unfold joinOrCreate.
  rewrite (bind_run _ _ _ _ _ (eq_refl : getManager (mgr, w) = (Return mgr, (mgr, w)))).
  destruct (sessionsByToken mgr !! tok) as [sess|] eqn:Hsess.
  - destruct (returns_run _ (sess, w) (returns_addClient browser client)) as ([] & [s' w'] & Hadd).
    exists s', (match ctype client with
                | VIEWER => logDeliveries [(client, browser_connected "" None)] w'
                | API => w'
                end).
    split; [|discriminate].
    rewrite (bind_run _ _ _ (set_sessionsByToken (<[tok := s']> (sessionsByToken mgr)) mgr, w') tt).
    2:{ rewrite (onSession_run tok _ mgr w sess Hsess), Hadd. reflexivity. }
    rewrite bool_decide_eq_true_2 by eauto.
    unfold bind, notifyClient, modify. cbn [fst snd]. destruct (ctype client); reflexivity.
  - destruct (returns_run _ (firstClient client, w)
                (returns_connectToBrowser browser host port tok)) as ([] & [s' w'] & Hconn).
    exists s', w'. split; [|intros _; exact Hconn].
    rewrite (bind_run _ _ _ (mgr, w) (tt, firstClient client)).
    2:{ unfold onFresh. cbn [fst snd]. rewrite (addClient_fresh browser client w). reflexivity. }
    unfold bind at 1. cbn [updateManager modify fst snd].
    set (mgr3 := set_sessionsByToken (<[tok := firstClient client]> (sessionsByToken mgr)) mgr).
    assert (Hs3 : sessionsByToken mgr3 !! tok = Some (firstClient client))
      by (cbn; apply lookup_insert_eq).
    unfold bind. rewrite (onSession_run tok _ mgr3 w _ Hs3), Hconn. cbn [fst snd ret].
    rewrite bool_decide_eq_false_2 by (intros [x [=]]).
    subst mgr3. cbn. now rewrite insert_insert_eq.
Qed.

(** X21. With the empty string as token, in any state: [connectBrowser]
    registers a session under the empty token and records the socket with it,
    yet [getSessionBySocket] finds no session for the socket; and the
    [disconnectBrowser] that follows leaves every registered session in
    place and makes no call and no delivery, so nothing is closed. *)
Theorem empty_token_is_never_released (socket : string) (clientType : ClientType) (st : MSt) :
  let st1 := snd (connectBrowser browser host port socket "" clientType st) in
  let st2 := snd (disconnectBrowser browser socket st1) in
  socketTokenMap (fst st1) !! socket = Some ""
  /\ is_Some (getSessionByToken (fst st1) "")
  /\ getSessionBySocket (fst st1) socket = None
  /\ sessionsByToken (fst st2) = sessionsByToken (fst st1)
  /\ snd st2 = snd st1.
Proof.
  destruct st as [mgr w]. cbv zeta.
  destruct (connectBrowser_steps browser host port socket "" clientType mgr w)
    as (mgr1 & w1 & _ & ->).
  destruct (joinOrCreate_run "" {| cid := created mgr1; socketId := socket; ctype := clientType |}
              (filed socket "" {| cid := created mgr1; socketId := socket; ctype := clientType |}
                 mgr1) w1) as (s' & w' & -> & _).
  cbn [fst snd].
  assert (Htok : forall m, socketTokenMap (filed socket "" m mgr1) !! socket = Some "")
    by (intros m; cbn; apply lookup_insert_eq).
  assert (Hclient : forall m, clientsBySocketId (filed socket "" m mgr1) !! socket = Some m)
    by (intros m; cbn; apply lookup_insert_eq).
  split; [apply Htok|]. split.
  { unfold getSessionByToken. cbn. rewrite lookup_insert_eq. eauto. }
  split.
  { unfold getSessionBySocket. cbn [set_sessionsByToken socketTokenMap]. now rewrite Htok. }
  unfold disconnectBrowser, removeClientFromSession.
  match goal with
  | |- context [bind getManager ?k (?m, ?w)] =>
      rewrite (bind_run _ _ _ _ _ (eq_refl : getManager (m, w) = (Return m, (m, w))))
  end.
  cbv zeta. cbn [set_sessionsByToken socketTokenMap clientsBySocketId].
  rewrite Htok, Hclient. cbn [isSet String.eqb negb].
  unfold bind, ret, updateManager, modify. cbn. split; reflexivity.
Qed.

(** The last client of a session of a token that is not empty detaches:
    the session is disconnected and unregistered. *)
Lemma removeClientFromSession_last (mgr : Manager) (w : World) (socket tok : string)
    (client : Client) (sess : Session) :
  socketTokenMap mgr !! socket = Some tok -> tok <> "" ->
  clientsBySocketId mgr !! socket = Some client ->
  sessionsByToken mgr !! tok = Some sess ->
  fst (removeClient browser client (sess, w)) = Return false ->
  exists mgr' w',
    removeClientFromSession browser socket (mgr, w) = (Return tt, (mgr', w'))
    /\ sessionsByToken mgr' !! tok = None /\ created mgr' = created mgr
    /\ opened w' = opened w
    /\ (forall t, browserClient sess = Some t -> (0 < closeCount t (calls w'))%nat).
Proof.
  intros Htok Hne Hclient Hsess Hlast.
  pose proof (quiet_removeClient browser _ _ _ client (sess, w) (quiet_refl sess w)) as Hq.
  destruct (removeClient browser client (sess, w)) as [o [s1 w1]] eqn:Hrm.
  cbn [fst] in Hlast. subst o. unfold quiet in Hq. cbn [fst snd] in Hq.
  destruct Hq as (Hb1 & Ho1 & extra1 & Hc1 & Hextra1).
  destruct (disconnect_frame browser s1 w1) as (Hb2 & Ho2 & Hc2).
  destruct (returns_run _ (s1, w1) (returns_disconnect browser)) as ([] & [s2 w2] & Hdis).
  rewrite Hdis in *. cbn [fst snd] in *.
  pose proof (onSession_run tok (removeClient browser client) mgr w sess Hsess) as Hon.
  rewrite Hrm in Hon. cbn [fst snd] in Hon.
  set (mgr1 := set_sessionsByToken (<[tok:=s1]> (sessionsByToken mgr)) mgr) in *.
  assert (Hs1 : sessionsByToken mgr1 !! tok = Some s1) by (cbn; apply lookup_insert_eq).
  pose proof (onSession_run tok (disconnect browser) mgr1 w1 s1 Hs1) as Hon2.
  rewrite Hdis in Hon2. cbn [fst snd] in Hon2.
  set (mgr2 := set_sessionsByToken (<[tok:=s2]> (sessionsByToken mgr1)) mgr1) in *.
  assert (Hbody :
    bind (onSession tok (removeClient browser client)) (fun hasOtherConnections =>
      when (negb hasOtherConnections)
        (bind (onSession tok (disconnect browser)) (fun _ =>
           updateManager (fun m => set_sessionsByToken (delete tok (sessionsByToken m)) m))))
      (mgr, w)
    = (Return tt, (set_sessionsByToken (delete tok (sessionsByToken mgr2)) mgr2, w2))).
  { rewrite (bind_run _ _ _ _ _ Hon). cbn [negb when].
    rewrite (bind_run _ _ _ _ _ Hon2). reflexivity. }
  eexists _, w2. split.
  { unfold removeClientFromSession.
    rewrite (bind_run _ _ _ _ _ (eq_refl : getManager (mgr, w) = (Return mgr, (mgr, w)))).
    cbv zeta. rewrite Htok, Hclient, Hsess.
    assert (Hset : isSet (Some tok) = true) by (destruct tok; [contradiction | reflexivity]).
    rewrite Hset. rewrite (bind_run _ _ _ _ _ Hbody).
    unfold bind, updateManager, modify. cbn [fst snd]. reflexivity. }
  split; [cbn; apply lookup_delete_eq|]. split; [reflexivity|]. split; [congruence|].
  intros t Ht. rewrite Hb1, Ht in Hc2. destruct Hc2 as (extra2 & Hc2 & _).
  rewrite Hc2, !closeCount_app, closeCount_closeCall.
  destruct (decide (t = t)); [lia | contradiction].
Qed.

(** X22. When the only client left in the session of a non-empty token
    attaches again with the same token, the session is not reused:
    [connectBrowser] answers [reused: false], [close()] is invoked on the
    transport the session held, a new transport is opened, and the session
    then registered under the token has the new client as its only client. *)
Theorem reattach_last_client_recreates (mgr : Manager) (w : World) (socket tok : string)
    (client : Client) (sess : Session) (clientType : ClientType) :
  socketTokenMap mgr !! socket = Some tok -> tok <> "" ->
  clientsBySocketId mgr !! socket = Some client ->
  sessionsByToken mgr !! tok = Some sess ->
  fst (removeClient browser client (sess, w)) = Return false ->
  let result := connectBrowser browser host port socket tok clientType (mgr, w) in
  let newClient := {| cid := created mgr; socketId := socket; ctype := clientType |} in
  let w' := snd (snd result) in
  fst result = Return false
  /\ opened w' = S (opened w)
  /\ (forall t, browserClient sess = Some t -> (0 < closeCount t (calls w'))%nat)
  /\ getClientBySocket (fst (snd result)) socket = Some newClient
  /\ exists s', getSessionByToken (fst (snd result)) tok = Some s'
                /\ clientsOf s' = [newClient]
                /\ (browserClient s' = None \/ browserClient s' = Some (opened w)).
Proof.
  intros Htok Hne Hclient Hsess Hlast. cbv zeta.
  destruct (removeClientFromSession_last mgr w socket tok client sess Htok Hne Hclient Hsess Hlast)
    as (mgrR & wR & Hrun & Hnone & Hcreated & Hopened & Hclosed).
  destruct (connectBrowser_steps browser host port socket tok clientType mgr w)
    as (mgr1 & w1 & Hrun1 & ->).
  assert (Hset : isSet (Some tok) = true) by (destruct tok; [contradiction | reflexivity]).
  rewrite Htok, Hset in Hrun1. cbn [when] in Hrun1. rewrite Hrun in Hrun1.
  injection Hrun1 as <- <-. rewrite Hcreated.
  set (newClient := {| cid := created mgr; socketId := socket; ctype := clientType |}).
  destruct (joinOrCreate_run tok newClient (filed socket tok newClient mgrR) wR)
    as (s' & w' & -> & Hconn).
  assert (Hnone' : sessionsByToken (filed socket tok newClient mgrR) !! tok = None) by exact Hnone.
  specialize (Hconn Hnone'). cbn [fst snd].
  destruct (firstClient_ok newClient) as (_ & Hclients & Hbc).
  pose proof (connectToBrowser_frame browser host port tok (firstClient newClient) wR Hbc) as Hf.
  destruct (connectToBrowser_session browser host port tok (firstClient newClient) wR)
    as (s'' & w'' & Hconn' & _ & Hsame & _).
  rewrite Hconn in Hf, Hconn'. cbv zeta in Hf. cbn [fst snd] in Hf. injection Hconn' as <- <-.
  destruct Hf as (Hopen & Hbc' & extra & Hcalls & _).
  split; [rewrite Hnone'; rewrite bool_decide_eq_false_2 by (intros [x [=]]); reflexivity|].
  split; [congruence|]. split.
  { intros t Ht. specialize (Hclosed t Ht). rewrite Hcalls, closeCount_app. lia. }
  split; [apply lookup_insert_eq|].
  exists s'. split; [unfold getSessionByToken; cbn; apply lookup_insert_eq|].
  split; [congruence|]. rewrite <- Hopened. exact Hbc'.
Qed.

End Edges.

Lemma reattach_last_client_recreates_witness :
  let st := serveAll sampleBrowser "localhost" "9222" oneViewer (emptyManager, emptyWorld) in
  let result := connectBrowser sampleBrowser "localhost" "9222" "v" "T" VIEWER st in
  socketTokenMap (fst st) !! "v" = Some "T"
  /\ sessionsByToken (fst st) !! "T" = Some servedSession
  /\ fst result = Return false
  /\ opened (snd (snd result)) = 2%nat
  /\ (0 < closeCount 0 (calls (snd (snd result))))%nat.
Proof.
  cbv zeta. split; [vm_compute; reflexivity|]. split; [vm_compute; reflexivity|].
  pose proof (reattach_last_client_recreates sampleBrowser "localhost" "9222"
                (fst (serveAll sampleBrowser "localhost" "9222" oneViewer
                        (emptyManager, emptyWorld)))
                (snd (serveAll sampleBrowser "localhost" "9222" oneViewer
                        (emptyManager, emptyWorld)))
                "v" "T" soleViewer servedSession VIEWER) as H.
  cbv zeta in H. rewrite <- surjective_pairing in H.
  destruct H as (Hret & Hopen & Hclosed & _).
  - vm_compute. reflexivity.
  - discriminate.
  - vm_compute. reflexivity.
  - vm_compute. reflexivity.
  - vm_compute. reflexivity.
  - split; [exact Hret|]. split; [rewrite Hopen; vm_compute; reflexivity|].
    apply (Hclosed 0%nat). reflexivity.
Defined.

End Registry.
